(** * tc-notifications: the email notification service

    A shallow embedding of [src/connect/notificationServices/email.js]:
    the placeholder resolver, the classifier, the section builder, the
    due-event batch processor and the per-event handler, followed by the
    properties established about them.

    JavaScript values are embedded as the inductive [Js.value]; strings are
    [string]s, arrays are [list]s, object literals are association lists in
    property order.  The modules the service requires but which are not part
    of it ([../config], [../constants], [../events-config], [../helpers],
    the bus, settings, user and scheduler collaborators) are parameters. *)

From Stdlib Require Import String Ascii List ZArith NArith Lia Bool.
From Stdlib Require Import Permutation Sorted DecimalString.
Import ListNotations.
Local Open Scope string_scope.
Local Open Scope list_scope.

(* ================================================================== *)
(** * JavaScript values and the built-ins the service relies on        *)
(* ================================================================== *)

Module Js.

#[local] Set Warnings "-register-all".

(** Primitive values and plain objects.  Numbers are the integral ones,
    printed in plain decimal, plus [NaN] (all the service produces with
    [parseInt]); an object is its own properties. *)
Inductive value : Type :=
| VUndefined
| VNull
| VBool (b : bool)
| VNum (n : Z)
| VNaN
| VStr (s : string)
| VObj (fields : list (string * value)).

(** A plain object: own properties in creation order. *)
Definition obj : Type := list (string * value).

(** The decimal numeral of an integer: what JavaScript prints for the
    integral numbers below 10^21. *)
Definition string_of_Z (z : Z) : string := NilZero.string_of_int (Z.to_int z).

(** [ToString]. *)
Definition to_string (v : value) : string :=
  match v with
  | VUndefined => "undefined"
  | VNull => "null"
  | VBool true => "true"
  | VBool false => "false"
  | VNum n => string_of_Z n
  | VNaN => "NaN"
  | VStr s => s
  | VObj _ => "[object Object]"
  end.

(** [ToBoolean]. *)
Definition truthy (v : value) : bool :=
  match v with
  | VUndefined | VNull | VNaN => false
  | VBool b => b
  | VNum n => negb (n =? 0)%Z
  | VStr s => negb (s =? "")
  | VObj _ => true
  end.

(** [v === s] for a string literal [s]. *)
Definition is_string (v : value) (s : string) : bool :=
  match v with
  | VStr s' => s' =? s
  | _ => false
  end.

(** [a || b]. *)
Definition or_else (a b : value) : value := if truthy a then a else b.

(** Own-property read [o[k]] on an object literal. *)
Fixpoint lookup (o : obj) (k : string) : value :=
  match o with
  | [] => VUndefined
  | (k', v) :: o' => if k' =? k then v else lookup o' k
  end.

(** Property assignment [o[k] = v]: an existing property keeps its place. *)
Fixpoint set (o : obj) (k : string) (v : value) : obj :=
  match o with
  | [] => [(k, v)]
  | (k', v') :: o' => if k' =? k then (k, v) :: o' else (k', v') :: set o' k v
  end.

(** [v[k]] on any value: only objects carry properties here; reading a
    property of [undefined] or [null] is a [TypeError] ([None]). *)
Definition member (v : value) (k : string) : option value :=
  match v with
  | VUndefined | VNull => None
  | VObj o => Some (lookup o k)
  | _ => Some VUndefined
  end.

(** ** Strings *)

Fixpoint drop (n : nat) (s : string) : string :=
  match n, s with
  | O, _ => s
  | S n', String _ r => drop n' r
  | S _, EmptyString => EmptyString
  end.

(** [s.slice(1, -1)]. *)
Fixpoint drop_last (s : string) : string :=
  match s with
  | EmptyString => EmptyString
  | String c EmptyString => EmptyString
  | String c r => String c (drop_last r)
  end.

Definition slice_1_m1 (s : string) : string := drop_last (drop 1 s).

Definition is_letter (c : ascii) : bool :=
  let n := nat_of_ascii c in
  ((65 <=? n) && (n <=? 90) || (97 <=? n) && (n <=? 122))%nat.

(** The rest of a match of [/<[a-zA-Z]+>/] once ["<"] has been read:
    [letters_gt s = Some w] when [s] starts with the letters [w] followed by
    [">"]. *)
Fixpoint letters_gt (s : string) : option string :=
  match s with
  | EmptyString => None
  | String c r =>
      if is_letter c then option_map (String c) (letters_gt r)
      else if Ascii.eqb c ">" then Some EmptyString
      else None
  end.

Definition token_at (s : string) : option string :=
  match letters_gt s with
  | Some (String c w) => Some (String c w)
  | _ => None
  end.

Definition token (w : string) : string := ("<" ++ w ++ ">")%string.

(** All matches of [/<[a-zA-Z]+>/g], left to right.  A match starts at a
    ["<"] and holds no other ["<"], so matches never overlap and the scan
    may resume right behind the ["<"]. *)
Fixpoint matches (s : string) : list string :=
  match s with
  | EmptyString => []
  | String c r =>
      if Ascii.eqb c "<" then
        match token_at r with
        | Some w => token w :: matches r
        | None => matches r
        end
      else matches r
  end.

(** [s.match(/<[a-zA-Z]+>/g)]: [null] when nothing matches. *)
Definition str_match (s : string) : option (list string) :=
  match matches s with
  | [] => None
  | ms => Some ms
  end.

Fixpoint starts_with (p s : string) : bool :=
  match p, s with
  | EmptyString, _ => true
  | String a p', String b s' => Ascii.eqb a b && starts_with p' s'
  | String _ _, EmptyString => false
  end.

(** Splits [s] around the first occurrence of [p]. *)
Fixpoint split_first (p s : string) : option (string * string) :=
  if starts_with p s then Some (EmptyString, drop (String.length p) s)
  else
    match s with
    | EmptyString => None
    | String c r =>
        match split_first p r with
        | Some (before, after) => Some (String c before, after)
        | None => None
        end
    end.

(** [GetSubstitution] for a string pattern (no captures): [$$], [$&],
    [$`] and [$'] are expanded, every other character is literal. *)
Fixpoint get_substitution (matched before after r : string) : string :=
  match r with
  | EmptyString => EmptyString
  | String "$" (String "$" r') =>
      String "$" (get_substitution matched before after r')
  | String "$" (String "&" r') =>
      (matched ++ get_substitution matched before after r')%string
  | String "$" (String "`" r') =>
      (before ++ get_substitution matched before after r')%string
  | String "$" (String "'" r') =>
      (after ++ get_substitution matched before after r')%string
  | String c r' => String c (get_substitution matched before after r')
  end.

(** [s.replace(p, r)] with a string pattern: the first occurrence only. *)
Definition str_replace (s p r : string) : string :=
  match split_first p s with
  | Some (before, after) =>
      (before ++ get_substitution p before after r ++ after)%string
  | None => s
  end.

(** The text [Array.prototype.join] uses for one element. *)
Definition join_item (v : value) : string :=
  match v with
  | VUndefined | VNull => EmptyString
  | _ => to_string v
  end.

(** [values.join(sep)]. *)
Definition join (sep : string) (values : list value) : string :=
  String.concat sep (map join_item values).

(** ** Property order of ordinary objects *)

(** [array_index k = Some n] when [k] is the canonical numeral of an array
    index [n < 2^32 - 1]. *)
Definition array_index (k : string) : option N :=
  match NilEmpty.uint_of_string k with
  | Some d =>
      let n := N.of_uint d in
      if (NilZero.string_of_uint (N.to_uint n) =? k) && (n <? 4294967295)%N
      then Some n else None
  | None => None
  end.

Section OwnKeys.
Context {A : Type}.

Fixpoint insert_index (n : N) (e : string * A) (l : list (N * (string * A)))
  : list (N * (string * A)) :=
  match l with
  | [] => [(n, e)]
  | (m, e') :: l' =>
      if (n <=? m)%N then (n, e) :: l else (m, e') :: insert_index n e l'
  end.

Fixpoint index_entries (l : list (string * A)) : list (N * (string * A)) :=
  match l with
  | [] => []
  | e :: l' =>
      match array_index (fst e) with
      | Some n => insert_index n e (index_entries l')
      | None => index_entries l'
      end
  end.

Definition name_entries (l : list (string * A)) : list (string * A) :=
  filter (fun e => match array_index (fst e) with Some _ => false | None => true end) l.

(** Enumeration order of the properties created in the order [l]: array
    indices ascending, then the other names in creation order. *)
Definition own_order (l : list (string * A)) : list (string * A) :=
  map snd (index_entries l) ++ name_entries l.
End OwnKeys.

(** ** Reading a property of a plain object *)

(** [o] has an own property [k]. *)
Definition has_own (o : obj) (k : string) : bool :=
  existsb (fun e => fst e =? k) o.

(** The text of a built-in function. *)
Definition native (name : string) : string :=
  ("function " ++ name ++ "() { [native code] }")%string.

(** The properties every plain object inherits from [Object.prototype],
    each with the text [String] gives for its value: eleven built-in
    functions, and the prototype itself under [__proto__].  All these
    values are truthy. *)
Definition object_prototype : list (string * string) :=
  [ ("constructor", native "Object");
    ("__defineGetter__", native "__defineGetter__");
    ("__defineSetter__", native "__defineSetter__");
    ("hasOwnProperty", native "hasOwnProperty");
    ("__lookupGetter__", native "__lookupGetter__");
    ("__lookupSetter__", native "__lookupSetter__");
    ("isPrototypeOf", native "isPrototypeOf");
    ("propertyIsEnumerable", native "propertyIsEnumerable");
    ("toString", native "toString");
    ("valueOf", native "valueOf");
    ("__proto__", "[object Object]");
    ("toLocaleString", native "toLocaleString") ].

(** [k] names a property inherited from [Object.prototype]. *)
Definition inherited (k : string) : option string :=
  option_map snd (find (fun e => fst e =? k) object_prototype).

(** [!!o[k]] for a plain object [o]: the own property, else the inherited
    one. *)
Definition truthy_at (o : obj) (k : string) : bool :=
  if has_own o k then truthy (lookup o k)
  else match inherited k with
       | Some _ => true
       | None => false
       end.

(** [String(o[k])] for a plain object [o]: the own property, else the
    inherited one. *)
Definition text_at (o : obj) (k : string) : string :=
  if has_own o k then to_string (lookup o k)
  else match inherited k with
       | Some text => text
       | None => "undefined"
       end.

(** [a === b], or both [NaN], for values that are not one same object. *)
Definition strict_equal (a b : value) : bool :=
  match a, b with
  | VUndefined, VUndefined | VNull, VNull | VNaN, VNaN => true
  | VBool x, VBool y => Bool.eqb x y
  | VNum x, VNum y => (x =? y)%Z
  | VStr x, VStr y => x =? y
  | _, _ => false
  end.

(** [s.indexOf(p) > -1]. *)
Fixpoint contains (p s : string) : bool :=
  starts_with p s
  || match s with
     | EmptyString => false
     | String _ r => contains p r
     end.

(** ** Characters *)

Definition is_digit (c : ascii) : bool :=
  let n := nat_of_ascii c in ((48 <=? n) && (n <=? 57))%nat.

Fixpoint every (p : ascii -> bool) (s : string) : bool :=
  match s with
  | EmptyString => true
  | String c r => p c && every p r
  end.

End Js.

(* ================================================================== *)
(** * The lodash functions used by the service                         *)
(* ================================================================== *)

Module Lodash.
Import Js.

(** [_.map(data, name)] with a property name: one value per item, read
    among the item's own properties. *)
Definition map_prop (data : list obj) (name : string) : list value :=
  map (fun o => lookup o name) data.

Section GroupBy.
Context {A : Type}.
Variable key_of : A -> string.

(** The aggregator step: push onto the key's array, or create it. *)
Fixpoint add_to_group (k : string) (x : A) (acc : list (string * list A))
  : list (string * list A) :=
  match acc with
  | [] => [(k, [x])]
  | (k', g) :: acc' =>
      if k' =? k then (k', g ++ [x]) :: acc'
      else (k', g) :: add_to_group k x acc'
  end.

Definition grouped (l : list A) : list (string * list A) :=
  fold_left (fun acc x => add_to_group (key_of x) x acc) l [].

(** [_.groupBy(l, key_of)], read back in property order. *)
Definition groupBy (l : list A) : list (string * list A) :=
  own_order (grouped l).
End GroupBy.

(** The items of [l] whose key is [k], in the order of [l]. *)
Definition members_of {A} (key_of : A -> string) (l : list A) (k : string) : list A :=
  filter (fun x => key_of x =? k) l.

(** [_.includes(array, v)] on an array of strings. *)
Definition includes (l : list string) (v : value) : bool :=
  existsb (is_string v) l.

(** [_.assign(target, source)]. *)
Definition assign (target source : obj) : obj :=
  fold_left (fun t kv => set t (fst kv) (snd kv)) source target.

(** [_.get(v, path)] for a path of plain property names: [undefined] as
    soon as a step is missing. *)
Fixpoint get (v : value) (path : list string) : value :=
  match path with
  | [] => v
  | k :: path' =>
      match v with
      | VObj o => get (lookup o k) path'
      | _ => VUndefined
      end
  end.

(** ** Property paths

    [stringToPath] of lodash 4: the names of a path written as a string.
    The path is scanned from left to right; at each position the first of
    these that applies is taken:
    - a longest run of characters other than [.], [[] and []] is a name;
    - a bracket holding a number (an optional minus sign, digits, an
      optional fraction) is the name made of the number's text;
    - a bracket holding a quoted text is the name made of the text, with
      the backslash of every escape removed;
    - the empty name, in front of a [.] or a [[]] that is itself followed
      by a [.], a [[]] or the end;
    - otherwise the character is passed over.
    A path that starts with [.] has the empty name in front. *)

Definition path_break (c : ascii) : bool :=
  Ascii.eqb c "." || Ascii.eqb c "[" || Ascii.eqb c "]".

(** The longest prefix without [.], [[] and []]. *)
Fixpoint path_run (s : string) : string :=
  match s with
  | EmptyString => EmptyString
  | String c r => if path_break c then EmptyString else String c (path_run r)
  end.

(** The longest prefix of digits. *)
Fixpoint digits (s : string) : string :=
  match s with
  | EmptyString => EmptyString
  | String c r => if is_digit c then String c (digits r) else EmptyString
  end.

(** What follows ["["] is a number closed by ["]"]: the number's text and
    how many characters were read, the closing bracket included. *)
Definition bracket_number (s : string) : option (string * nat) :=
  let sign := match s with String "-" _ => "-" | _ => EmptyString end in
  let s1 := drop (String.length sign) s in
  let whole := digits s1 in
  match whole with
  | EmptyString => None
  | _ =>
      match drop (String.length whole) s1 with
      | String "]" _ =>
          Some ((sign ++ whole)%string, String.length sign + String.length whole + 1)
      | String "." s2 =>
          let fraction := digits s2 in
          match fraction with
          | EmptyString => None
          | _ =>
              match drop (String.length fraction) s2 with
              | String "]" _ =>
                  Some ((sign ++ whole ++ "." ++ fraction)%string,
                        String.length sign + String.length whole + 1
                        + String.length fraction + 1)
              | _ => None
              end
          end
      | _ => None
      end
  end.

(** A line terminator, which the [.] of a regular expression refuses. *)
Definition line_end (c : ascii) : bool :=
  Ascii.eqb c "010" || Ascii.eqb c "013".

(** What follows the opening quote [q]: the text up to the first [q] that
    is not escaped, then [q] and ["]"].  The result is the text without
    the backslashes of its escapes, and how many characters were read. *)
Fixpoint quoted_name (q : ascii) (s : string) : option (string * nat) :=
  match s with
  | EmptyString => None
  | String c r =>
      if Ascii.eqb c q then
        match r with
        | String "]" _ => Some (EmptyString, 2)
        | _ => None
        end
      else if Ascii.eqb c "\" then
        match r with
        | String e r' =>
            if line_end e then None
            else option_map (fun p => (String e (fst p), 2 + snd p)) (quoted_name q r')
        | EmptyString => None
        end
      else option_map (fun p => (String c (fst p), 1 + snd p)) (quoted_name q r)
  end.

(** What follows ["["] is a number or a quoted text closed by ["]"]. *)
Definition bracket_name (s : string) : option (string * nat) :=
  match s with
  | String q r =>
      if Ascii.eqb q "034" || Ascii.eqb q "'"
      then option_map (fun p => (fst p, 1 + snd p)) (quoted_name q r)
      else bracket_number s
  | EmptyString => None
  end.

(** [s] starts with [.] or [[]], followed by [.], [[]] or the end. *)
Definition empty_name (s : string) : bool :=
  let after :=
    match s with
    | String "." r => Some r
    | String "[" (String "]" r) => Some r
    | _ => None
    end in
  match after with
  | Some EmptyString => true
  | Some (String "." _) => true
  | Some (String "[" (String "]" _)) => true
  | _ => false
  end.

(** The names found in [s]; [skip] counts the characters of the last name
    still to be passed over. *)
Fixpoint path_names (skip : nat) (s : string) : list string :=
  match s with
  | EmptyString => []
  | String c r =>
      match skip with
      | S k => path_names k r
      | O =>
          if negb (path_break c) then
            path_run s :: path_names (String.length (path_run r)) r
          else
            match (if Ascii.eqb c "[" then bracket_name r else None) with
            | Some (name, n) => name :: path_names n r
            | None =>
                if empty_name s then EmptyString :: path_names 0 r
                else path_names 0 r
            end
      end
  end.

Definition stringToPath (s : string) : list string :=
  match s with
  | String "." _ => EmptyString :: path_names 0 s
  | _ => path_names 0 s
  end.

(** A property name that a path holds as it is and that keeps its place
    in the order of the properties: it is not empty, holds none of [.],
    [[] and []], and is no array index. *)
Definition plain_key (k : string) : bool :=
  negb (k =? "")
  && every (fun c => negb (path_break c)) k
  && match array_index k with
     | Some _ => false
     | None => true
     end.

End Lodash.

(* ================================================================== *)
(** * The email service                                                *)
(* ================================================================== *)

Import Js.

(** ** Placeholder resolver *)

(** What one pass of the [each] callback computes. *)
Record placeholder_pass : Type := {
  values : list value;
  total : Z;
  replacement : string;
  ret : string
}.

Definition each_placeholder (data : list obj) (ret0 : string) (p : string)
  : placeholder_pass :=
  let values := Lodash.map_prop data (slice_1_m1 p) in
  let total := Z.of_nat (List.length values) in
  let replacement :=
    if (Z.of_nat (List.length values) <? 3)%Z
    then join ", " values
    else (join ", " (firstn 2 values) ++ " and " ++ string_of_Z (total - 3) ++ "others")%string in
  {| values := values;
     total := total;
     replacement := replacement;
     ret := str_replace ret0 p (join ", " values) |}.

Definition replacePlaceholders (term : string) (data : list obj) : string :=
  match str_match term with
  | Some placeholders =>
      fold_left (fun r p => ret (each_placeholder data r p)) placeholders term
  | None => term
  end.

(** The resolver as the specification words it: every placeholder token of
    the template replaced by [f] of its field name.  [skip] counts the
    characters of a token still to be passed over. *)
Fixpoint substitute_tokens (f : string -> string) (skip : nat) (s : string)
  : string :=
  match s with
  | EmptyString => EmptyString
  | String c r =>
      match skip with
      | S k => substitute_tokens f k r
      | O =>
          if Ascii.eqb c "<" then
            match token_at r with
            | Some w => (f w ++ substitute_tokens f (S (String.length w)) r)%string
            | None => String c (substitute_tokens f 0 r)
            end
          else String c (substitute_tokens f 0 r)
      end
  end.

(** Side conditions on templates and values. *)

(** [has c s]: the character [c] occurs in [s]. *)
Fixpoint has (c : ascii) (s : string) : bool :=
  match s with
  | EmptyString => false
  | String x r => Ascii.eqb x c || has c r
  end.

Fixpoint letters (w : string) : bool :=
  match w with
  | EmptyString => true
  | String c r => is_letter c && letters r
  end.

(** [open_after st s]: the text made of a text in state [st] followed by
    [s] ends with ["<"] followed by letters only (an unclosed bracket). *)
Fixpoint open_after (st : bool) (s : string) : bool :=
  match s with
  | EmptyString => st
  | String c r => open_after (Ascii.eqb c "<" || st && is_letter c) r
  end.

(** No placeholder token of [s] comes right behind an unclosed bracket;
    [st] tells whether the text before [s] ends with one. *)
Fixpoint tokens_detached (st : bool) (s : string) : bool :=
  match s with
  | EmptyString => true
  | String c r =>
      if Ascii.eqb c "<" then
        match token_at r with
        | Some _ => negb st && tokens_detached true r
        | None => tokens_detached true r
        end
      else tokens_detached (st && is_letter c) r
  end.

(** The matches of [/<[a-zA-Z]+>/g] in [p ++ r] that start in [p]. *)
Fixpoint starting_in (p r : string) : list string :=
  match p with
  | EmptyString => []
  | String c p' =>
      if Ascii.eqb c "<" then
        match token_at (p' ++ r) with
        | Some w => token w :: starting_in p' r
        | None => starting_in p' r
        end
      else starting_in p' r
  end.

(** Neither ["<"] nor ["$"] occurs in [s]. *)
Definition clean (s : string) : bool := negb (has "<" s) && negb (has "$" s).

(** The un-truncated list of the values of field [w]. *)
Definition joined (data : list obj) (w : string) : string :=
  join ", " (Lodash.map_prop data w).

Definition resolve_spec (term : string) (data : list obj) : string :=
  substitute_tokens (joined data) 0 term.

(** ** Data of the service *)

(** Modelled from the spec: [../events-config], which declares
    [EVENT_BUNDLES], is not among the sources.  An entry has the fields of
    the specification's bundle-group definition, which are the ones
    [email.js] reads: two template strings, the optional [groupBy] field
    name ([VUndefined] when the entry has none) and the array of types. *)
Module Bundle.
Record t : Type := {
  title : string;
  subject : string;
  groupBy : value;
  types : list string
}.
End Bundle.

(** [../config]. *)
Module Config.
Record t : Type := {
  CONNECT_URL : value;
  DEFAULT_REPLY_EMAIL : value;
  REPLY_EMAIL_FROM : value;
  ENABLE_DEV_MODE : value;
  DEV_MODE_EMAIL : value;
  ENV : value;
  MENTION_EMAIL : value;
  AUTH_SECRET : string;
  REPLY_EMAIL_PREFIX : value;
  REPLY_EMAIL_DOMAIN : value
}.
End Config.

(** [../constants]. *)
Module Constants.
Record t : Type := {
  BUS_API_EVENT_EMAIL_GENERAL : string;
  BUS_API_EVENT_CONNECT_POST_MENTION : string;
  SCHEDULED_EVENT_PERIOD : obj;
  SETTINGS_EMAIL_SERVICE_ID : string;
  SETTINGS_EMAIL_BUNDLING_SERVICE_ID : string
}.
End Constants.

(** The email message under construction; [D] is the type of its [data]. *)
Module Message.
Record sender : Type := { name : value; email : value }.
Record t (D : Type) : Type := {
  data : D;
  recipients : list value;
  version : string;
  from : sender;
  categories : list string;
  cc : option (list value);
  replyTo : value
}.
Arguments data {D} _.
Arguments recipients {D} _.
Arguments version {D} _.
Arguments from {D} _.
Arguments categories {D} _.
Arguments cc {D} _.
Arguments replyTo {D} _.
End Message.

(** A scheduled event; the wrapper [{data: eventMessage}] leaves the other
    fields [VUndefined]. *)
Module Event.
Record t : Type := {
  data : Message.t obj;
  period : value;
  userId : value;
  eventType : value;
  reference : value;
  referenceId : value
}.
End Event.

Module User.
Record t : Type := {
  id : value;
  email : value;
  firstName : value;
  lastName : value;
  handle : value
}.
End User.

Module Notification.
Record t : Type := { newType : value; userId : value; contents : obj }.
End Notification.

Module MessageJSON.
Record t : Type := {
  projectId : value;
  topicId : value;
  postId : value;
  postContent : value;
  fileName : value
}.
End MessageJSON.

(** A section [{title, [key]: true, notifications}]; [flag] is the [key]. *)
Record section : Type := {
  title : string;
  flag : string;
  notifications : list obj
}.

Record project : Type := {
  id : value;
  name : value;
  sections : list section
}.

Record bundleData : Type := {
  subject : string;
  connectURL : value;
  projects : list project
}.

Record busEvent : Type := {
  topic : string;
  originator : string;
  timestamp : string;
  mime_type : string;
  payload : Message.t bundleData
}.

(** The two statuses of the scheduler ([../../index]) the service sets. *)
Inductive SCHEDULED_EVENT_STATUS : Type := COMPLETED | FAILED.

(** ** Control and effects *)

Inductive error : Type :=
| TypeError
| UnsupportedBundlePeriod (userId bundlePeriod : value)
| Rejection.

Inductive outcome (A : Type) : Type :=
| Return (a : A)
| Throw (e : error).
Arguments Return {A} _.
Arguments Throw {A} _.

(** How a collaborator's promise settles. *)
Inductive response (A : Type) : Type :=
| Resolved (a : A)
| Rejected.
Arguments Resolved {A} _.
Arguments Rejected {A}.

Inductive level : Type := verbose | debug | info | error_level.

(** What the service does to the outside; log lines that only print data
    carry their fixed text. *)
Inductive effect : Type :=
| Log (l : level) (message : string)
| ConsoleLog
| PostEvent (e : busEvent)
| AddEvent (e : Event.t)
| SetEventsStatus (events : list Event.t) (status : SCHEDULED_EVENT_STATUS).

(** A computation: the effects performed, then a result or a throw (for
    asynchronous code, the promise's fulfilment or rejection). *)
Definition M (A : Type) : Type := (list effect * outcome A)%type.

Definition ret_ {A} (a : A) : M A := ([], Return a).
Definition throw {A} (e : error) : M A := ([], Throw e).
Definition emit (e : effect) : M unit := ([e], Return tt).
Definition lift {A} (o : outcome A) : M A := ([], o).

Definition bind {A B} (m : M A) (k : A -> M B) : M B :=
  match m with
  | (t, Return a) => let (t', r) := k a in (t ++ t', r)
  | (t, Throw e) => (t, Throw e)
  end.

(** [yield promise]. *)
Definition await {A} (r : response A) : M A :=
  match r with
  | Resolved a => ret_ a
  | Rejected => throw Rejection
  end.

(** [promise.catch(handler)]. *)
Definition catch {A} (m : M A) (handler : error -> M A) : M A :=
  match m with
  | (t, Throw e) => let (t', r) := handler e in (t ++ t', r)
  | _ => m
  end.

Notation "x <- m ;; k" := (bind m (fun x => k))
  (at level 61, m at next level, right associativity).
Notation "m ;;; k" := (bind m (fun _ => k))
  (at level 61, right associativity).

Definition posted (t : list effect) : list busEvent :=
  flat_map (fun e => match e with PostEvent b => [b] | _ => [] end) t.

Definition scheduled (t : list effect) : list Event.t :=
  flat_map (fun e => match e with AddEvent b => [b] | _ => [] end) t.

Definition statuses (t : list effect)
  : list (list Event.t * SCHEDULED_EVENT_STATUS) :=
  flat_map (fun e => match e with SetEventsStatus l s => [(l, s)] | _ => [] end) t.

Definition logged (l : level) (t : list effect) : list string :=
  flat_map (fun e => match e with
                     | Log l' m =>
                         match l, l' with
                         | verbose, verbose | debug, debug
                         | info, info | error_level, error_level => [m]
                         | _, _ => []
                         end
                     | _ => []
                     end) t.

(** A trace that neither posts, nor schedules, nor logs an error. *)
Definition quiet (t : list effect) : Prop :=
  posted t = [] /\ scheduled t = [] /\ logged error_level t = [].

(** [_.forIn(object, callback)] where the callback pushes onto one array and
    may throw. *)
Fixpoint forIn {A B} (o : list (string * A))
  (callback : A -> string -> outcome (list B)) : outcome (list B) :=
  match o with
  | [] => Return []
  | (key, value) :: o' =>
      match callback value key with
      | Throw e => Throw e
      | Return pushed =>
          match forIn o' callback with
          | Throw e => Throw e
          | Return more => Return (pushed ++ more)
          end
      end
  end.

Section Service.
Variable config : Config.t.
Variable constants : Constants.t.
(** [EVENT_BUNDLES]: its properties in the order they are declared, each
    name once. *)
Variable EVENT_BUNDLES : list (string * Bundle.t).

(** [EVENT_BUNDLES[key]]. *)
Definition bundle (key : string) : option Bundle.t :=
  option_map snd (find (fun e => fst e =? key) EVENT_BUNDLES).

(** [value.data.data]. *)
Definition data_data (value : Event.t) : obj := Message.data (Event.data value).

(** What [_.get(EVENT_BUNDLES, path)] can give: nothing that holds a
    value ([undefined], or a number, a character, a built-in function met
    on the way), an entry of the table, the [types] array of an entry, or
    a value held by an entry ([title], [subject], [groupBy] or a value
    inside it). *)
Inductive reading : Type :=
| Missing
| Entry (b : Bundle.t)
| Types (l : list string)
| Inner (v : value).

(** [entry[name]] for an entry of the table. *)
Definition entry_field (b : Bundle.t) (name : string) : reading :=
  if name =? "title" then Inner (VStr (Bundle.title b))
  else if name =? "subject" then Inner (VStr (Bundle.subject b))
  else if name =? "groupBy" then Inner (Bundle.groupBy b)
  else if name =? "types" then Types (Bundle.types b)
  else Missing.

(** [baseGet(EVENT_BUNDLES, names)] for names that end with ["types"], as
    those of the classifier's path do: a string, an array, a number and a
    built-in function have no property [types], so that a walk through
    one of them ends in [undefined]. *)
Definition read_names (names : list string) : reading :=
  match names with
  | [] => Missing
  | key :: rest =>
      match bundle key with
      | None => Missing
      | Some b =>
          match rest with
          | [] => Entry b
          | name :: rest' =>
              match entry_field b name, rest' with
              | r, [] => r
              | Inner v, _ => Inner (Lodash.get v rest')
              | _, _ => Missing
              end
          end
      end
  end.

(** [_.get(EVENT_BUNDLES, `${key}.types`)].  The path holds a ["."], so
    lodash takes it for one property name only when the table has a
    property of that very name, and splits it into names otherwise. *)
Definition types_of (key : string) : reading :=
  let path := (key ++ ".types")%string in
  match bundle path with
  | Some b => Entry b
  | None => read_names (Lodash.stringToPath path)
  end.

(** [_.includes(collection, v)] on what the path gave: an array is
    searched for [v]; an object is searched among the values of its
    properties; a string is searched for the text of [v]; anything else
    holds nothing. *)
Definition includes_reading (collection : reading) (v : value) : bool :=
  match collection with
  | Missing => false
  | Types l => Lodash.includes l v
  | Entry b =>
      is_string v (Bundle.title b) || is_string v (Bundle.subject b)
      || match Bundle.groupBy b with
         | VUndefined => false
         | g => strict_equal v g
         end
  | Inner (VStr s) => contains (to_string v) s
  | Inner (VObj o) => existsb (strict_equal v) (map snd o)
  | Inner _ => false
  end.

(** [_.keys] enumerates the table in property order; [!key] holds for
    [undefined] and for the empty key. *)
Definition getEventGroupKey (value : Event.t) : string :=
  let key :=
    find (fun key => includes_reading (types_of key) (lookup (data_data value) "type"))
         (map fst (own_order EVENT_BUNDLES)) in
  match key with
  | Some key => if key =? "" then "DEFAULT" else key
  | None => "DEFAULT"
  end.

(** The key lodash groups [n] under for [groupBy] field [g]: the text of
    [n.data.data[g]]. *)
Definition subgroup_key (g : value) (n : Event.t) : string :=
  text_at (data_data n) (to_string g).

Definition getSections (projectUserEvents : list Event.t) : outcome (list section) :=
  forIn (Lodash.groupBy getEventGroupKey projectUserEvents) (fun value key =>
    match bundle key with
    | None => Throw TypeError
    | Some b =>
        if negb (truthy (Bundle.groupBy b)) then
          Return [ {| title := replacePlaceholders (Bundle.title b) (map data_data value);
                      flag := key;
                      notifications := map data_data value |} ]
        else
          forIn (Lodash.groupBy (subgroup_key (Bundle.groupBy b)) value)
            (fun groupValue groupKey =>
               let title := Bundle.title b in
               let title := replacePlaceholders title (map data_data groupValue) in
               Return [ {| title := title;
                           flag := key;
                           notifications := map data_data groupValue |} ])
    end).

(** The classifier as the specification words it: the key of the first
    group, in declaration order, whose [types] hold the event's type, and
    ["DEFAULT"] when there is none. *)
Definition classify_spec (value : Event.t) : string :=
  match find (fun e => Lodash.includes (Bundle.types (snd e)) (lookup (data_data value) "type"))
             EVENT_BUNDLES with
  | Some (key, _) => key
  | None => "DEFAULT"
  end.

(** The section built from the events [value] of group [key]. *)
Definition section_of (b : Bundle.t) (key : string) (value : list Event.t) : section :=
  {| title := replacePlaceholders (Bundle.title b) (map data_data value);
     flag := key;
     notifications := map data_data value |}.

(** The sections pushed for the group [value] of [key]. *)
Definition sections_of_group (key : string) (value : list Event.t) : list section :=
  match bundle key with
  | Some b =>
      if negb (truthy (Bundle.groupBy b)) then [section_of b key value]
      else map (fun p => section_of b key (snd p))
               (Lodash.groupBy (subgroup_key (Bundle.groupBy b)) value)
  | None => []
  end.

(** Code outside the service: [../helpers], the built-ins [parseInt(_, 10)],
    [toLowerCase], [jwt.sign(...).split('.')[2]] and
    [(new Date()).toISOString()], and the collaborators' promises. *)
Variable markdownToHTML : value -> value.
Variable sanitizeEmail : value -> value.
Variable parseInt : value -> value.
Variable toLowerCase : string -> string.
Variable jwt_signature : obj -> string -> value.
Variable now : string.
Variable getSettings : value -> response value.
Variable getUsersById : list value -> response (list User.t).
Variable postEvent : busEvent -> response unit.

(** *** Due-event batch processor *)

(** [_.get(projectUserEvents, '[0].data.data.' + field)]. *)
Definition first_data (projectUserEvents : list Event.t) (field : string) : value :=
  match projectUserEvents with
  | [] => VUndefined
  | first :: _ => lookup (data_data first) field
  end.

(** [_.mapValues(object, callback)] with a callback that may throw. *)
Fixpoint mapValues {A B} (callback : A -> outcome B) (o : list (string * A))
  : outcome (list (string * B)) :=
  match o with
  | [] => Return []
  | (key, value) :: o' =>
      match callback value with
      | Throw e => Throw e
      | Return b =>
          match mapValues callback o' with
          | Throw e => Throw e
          | Return more => Return ((key, b) :: more)
          end
      end
  end.

Definition project_of (projectUserEvents : list Event.t) : outcome project :=
  match getSections projectUserEvents with
  | Throw e => Throw e
  | Return sections =>
      Return {| id := first_data projectUserEvents "projectId";
                name := first_data projectUserEvents "projectName";
                sections := sections |}
  end.

Definition project_key (e : Event.t) : string :=
  to_string (lookup (data_data e) "projectId").

Definition user_key (e : Event.t) : string := to_string (Event.userId e).

(** The bus event built for one user's due events. *)
Definition user_event (userEvents : list Event.t) : outcome busEvent :=
  match mapValues project_of (Lodash.groupBy project_key userEvents) with
  | Throw e => Throw e
  | Return byProject =>
      let bundleData :=
        {| subject := "Your Topcoder project updates";
           connectURL := Config.CONNECT_URL config;
           projects := map snd byProject |} in
      match userEvents with
      | [] => Throw TypeError
      | first :: _ =>
          let eventMessage :=
            {| Message.data := bundleData;
               Message.recipients := Message.recipients (Event.data first);
               Message.version := "v3";
               Message.from :=
                 {| Message.name := Config.REPLY_EMAIL_FROM config;
                    Message.email := Config.DEFAULT_REPLY_EMAIL config |};
               Message.categories := Message.categories (Event.data first);
               Message.cc := Some [];
               Message.replyTo := Config.DEFAULT_REPLY_EMAIL config |} in
          Return {| topic := Constants.BUS_API_EVENT_EMAIL_GENERAL constants;
                    originator := "tc-notifications";
                    timestamp := now;
                    mime_type := "application/json";
                    payload := eventMessage |}
      end
  end.

(** [promise.then(...).catch(...)] of one dispatch, once the bus has
    answered [r]. *)
Definition settle (userEvents : list Event.t) (r : response unit) : M unit :=
  catch
    (await r ;;;
     emit (Log info "Successfully sent event to bus api") ;;;
     emit (SetEventsStatus userEvents COMPLETED))
    (fun _ =>
       emit (Log error_level "Failed to send event to bus api") ;;;
       emit (SetEventsStatus userEvents FAILED)).

(** A run of the batch processor: the events posted by the loop, the
    promise chain of each, and what the loop threw, if anything. *)
Record batch : Type := {
  sent : list busEvent;
  settled : list (M unit);
  thrown : option error
}.

Fixpoint forEach_user (groups : list (list Event.t)) : batch :=
  match groups with
  | [] => {| sent := []; settled := []; thrown := None |}
  | userEvents :: rest =>
      match user_event userEvents with
      | Throw e => {| sent := []; settled := []; thrown := Some e |}
      | Return e =>
          let more := forEach_user rest in
          {| sent := e :: sent more;
             settled := settle userEvents (postEvent e) :: settled more;
             thrown := thrown more |}
      end
  end.

Definition handleScheduledEvents (events : list Event.t) : batch :=
  match events with
  | [] => {| sent := []; settled := []; thrown := None |}
  | _ =>
      let eventsByUsers := Lodash.groupBy user_key events in
      forEach_user (map snd eventsByUsers)
  end.

(** *** Single notifications *)

Definition wrapIndividualNotification (data : Event.t) : outcome bundleData :=
  let key := getEventGroupKey data in
  match bundle key with
  | None => Throw TypeError
  | Some b =>
      let subject := replacePlaceholders (Bundle.subject b) [data_data data] in
      match getSections [data] with
      | Throw e => Throw e
      | Return sections =>
          Return {| subject := subject;
                    connectURL := Config.CONNECT_URL config;
                    projects :=
                      [ {| id := lookup (data_data data) "projectId";
                           name := lookup (data_data data) "projectName";
                           sections := sections |} ] |}
      end
  end.

(** [{data: eventMessage}]. *)
Definition wrap (eventMessage : Message.t obj) : Event.t :=
  {| Event.data := eventMessage;
     Event.period := VUndefined;
     Event.userId := VUndefined;
     Event.eventType := VUndefined;
     Event.reference := VUndefined;
     Event.referenceId := VUndefined |}.

Definition with_data {D E} (m : Message.t D) (d : E) : Message.t E :=
  {| Message.data := d;
     Message.recipients := Message.recipients m;
     Message.version := Message.version m;
     Message.from := Message.from m;
     Message.categories := Message.categories m;
     Message.cc := Message.cc m;
     Message.replyTo := Message.replyTo m |}.

(** [v[k]] where [v] is known not to be [null] or [undefined]. *)
Definition prop (v : value) (k : string) : value :=
  match member v k with
  | Some x => x
  | None => VUndefined
  end.

(** [settings.notifications[notificationType]]. *)
Definition type_settings (settings notificationType : value) : outcome value :=
  match member settings "notifications" with
  | None => Throw TypeError
  | Some notifications =>
      match member notifications (to_string notificationType) with
      | None => Throw TypeError
      | Some s => Return s
      end
  end.

(** The test of lines 192-194 on [settings.notifications[notificationType]]. *)
Definition disabled (s : value) : bool :=
  let id := Constants.SETTINGS_EMAIL_SERVICE_ID constants in
  truthy s && truthy (prop s id) && is_string (prop (prop s id) "enabled") "no".

(** Lines 281-288: the bundling flag and period after the defaults.  The
    quoted type name and the service ids are each one step of the lodash
    path. *)
Definition bundling (settings notificationType : value) (messagingEvent : bool)
  : value * value :=
  let bundlingEnabled :=
    Lodash.get settings
      ["notifications"; to_string notificationType;
       Constants.SETTINGS_EMAIL_BUNDLING_SERVICE_ID constants; "enabled"] in
  let bundlePeriod :=
    Lodash.get settings
      ["services"; Constants.SETTINGS_EMAIL_SERVICE_ID constants; "bundlePeriod"] in
  if negb (truthy bundlingEnabled) && negb messagingEvent then
    (VStr "yes", if negb (truthy bundlePeriod) then VStr "daily" else bundlePeriod)
  else (bundlingEnabled, bundlePeriod).

(** [SCHEDULED_EVENT_PERIOD[bundlePeriod]] is truthy; the table is a plain
    object, read with the properties it inherits. *)
Definition recognized (bundlePeriod : value) : bool :=
  truthy_at (Constants.SCHEDULED_EVENT_PERIOD constants) (to_string bundlePeriod).

(** The local state of [handler] from line 216 on. *)
Record draft : Type := {
  eventMessage : Message.t obj;
  reference : value;
  referenceId : value;
  messagingEvent : bool
}.

Definition set_data (m : Message.t obj) (k : string) (v : value) : Message.t obj :=
  with_data m (set (Message.data m) k v).

(** Lines 216-242. *)
Definition compose (notificationType : value) (messageJSON : MessageJSON.t)
  (notification : Notification.t) (user : User.t) (recipients : list value) : draft :=
  let eventType := Constants.BUS_API_EVENT_EMAIL_GENERAL constants in
  let contents := Notification.contents notification in
  let categories := [toLowerCase (to_string (Config.ENV config) ++ ":" ++ eventType)%string] in
  let data : obj :=
    [ ("name", VStr (to_string (User.firstName user) ++ " "
                     ++ to_string (User.lastName user))%string);
      ("handle", User.handle user);
      ("date", VStr now);
      ("projectName", lookup contents "projectName");
      ("projectId", MessageJSON.projectId messageJSON);
      ("authorHandle", lookup contents "userHandle");
      ("authorFullName", lookup contents "userFullName");
      ("photoURL", lookup contents "photoURL");
      ("type", notificationType) ] in
  let data := set data (to_string (lookup data "type")) (VBool true) in
  let data := Lodash.assign data contents in
  {| eventMessage :=
       {| Message.data := data;
          Message.recipients := recipients;
          Message.version := "v3";
          Message.from :=
            {| Message.name := lookup contents "userHandle";
               Message.email := Config.DEFAULT_REPLY_EMAIL config |};
          Message.categories := categories;
          Message.cc := None;
          Message.replyTo := VUndefined |};
     reference := VStr "project";
     referenceId := lookup data "projectId";
     messagingEvent := false |}.

(** Lines 245-274. *)
Definition topics_and_posts (notificationType : value) (messageJSON : MessageJSON.t)
  (notification : Notification.t) (user : User.t) (d : draft) : M draft :=
  match bundle "TOPICS_AND_POSTS" with
  | None => throw TypeError
  | Some b =>
      if Lodash.includes (Bundle.types b) notificationType then
        let m := eventMessage d in
        let topicId := parseInt (MessageJSON.topicId messageJSON) in
        let m := set_data m "topicId" topicId in
        let m := set_data m "postId"
                   (if truthy (MessageJSON.postId messageJSON)
                    then parseInt (MessageJSON.postId messageJSON) else VNull) in
        let m := if truthy (MessageJSON.postContent messageJSON)
                 then set_data m "post" (markdownToHTML (MessageJSON.postContent messageJSON))
                 else m in
        let cc :=
          if is_string notificationType
               (Constants.BUS_API_EVENT_CONNECT_POST_MENTION constants)
          then Some [Config.MENTION_EMAIL config] else Message.cc m in
        let body : obj :=
          [ ("userId", parseInt (Notification.userId notification));
            ("topicId", lookup (Message.data m) "topicId");
            ("userEmail", sanitizeEmail (User.email user)) ] in
        emit (Log debug "body") ;;;
        emit (Log debug "body for generating token") ;;;
        emit (Log debug "AUTH_SECRET") ;;;
        let token := jwt_signature body (Config.AUTH_SECRET config) in
        emit (Log debug "token") ;;;
        let replyTo :=
          VStr (to_string (Config.REPLY_EMAIL_PREFIX config) ++ "+"
                ++ to_string (lookup (Message.data m) "topicId") ++ "/"
                ++ to_string token ++ "@"
                ++ to_string (Config.REPLY_EMAIL_DOMAIN config))%string in
        ret_ {| eventMessage :=
                  {| Message.data := Message.data m;
                     Message.recipients := Message.recipients m;
                     Message.version := Message.version m;
                     Message.from := Message.from m;
                     Message.categories := Message.categories m;
                     Message.cc := cc;
                     Message.replyTo := replyTo |};
                reference := VStr "topic";
                referenceId := lookup (Message.data m) "topicId";
                messagingEvent := true |}
      else ret_ d
  end.

(** Lines 276-278. *)
Definition file_name (messageJSON : MessageJSON.t) (d : draft) : draft :=
  if truthy (MessageJSON.fileName messageJSON) then
    {| eventMessage := set_data (eventMessage d) "fileName" (MessageJSON.fileName messageJSON);
       reference := reference d;
       referenceId := referenceId d;
       messagingEvent := messagingEvent d |}
  else d.

(** Lines 292-322. *)
Definition deliver (notification : Notification.t) (d : draft)
  (bundlingEnabled bundlePeriod : value) : M unit :=
  let eventType := Constants.BUS_API_EVENT_EMAIL_GENERAL constants in
  if is_string bundlingEnabled "yes" && truthy bundlePeriod then
    if negb (recognized bundlePeriod) then
      throw (UnsupportedBundlePeriod (Notification.userId notification) bundlePeriod)
    else
      emit (AddEvent {| Event.data := eventMessage d;
                        Event.period := bundlePeriod;
                        Event.userId := Notification.userId notification;
                        Event.eventType := VStr eventType;
                        Event.reference := reference d;
                        Event.referenceId := referenceId d |})
  else
    data <- lift (wrapIndividualNotification (wrap (eventMessage d))) ;;
    let eventMessage := with_data (eventMessage d) data in
    emit ConsoleLog ;;;
    let e := {| topic := eventType;
                originator := "tc-notifications";
                timestamp := now;
                mime_type := "application/json";
                payload := eventMessage |} in
    emit (PostEvent e) ;;;
    await (postEvent e) ;;;
    emit (Log info "Successfully sent event to bus api").

Definition handler (topicName : string) (messageJSON : MessageJSON.t)
  (notification : Notification.t) : M unit :=
  let notificationType := or_else (Notification.newType notification) (VStr topicName) in
  settings <- await (getSettings (Notification.userId notification)) ;;
  s <- lift (type_settings settings notificationType) ;;
  if disabled s then
    emit (Log verbose
            ("Notification '" ++ to_string notificationType ++ "' won't be sent by '"
             ++ Constants.SETTINGS_EMAIL_SERVICE_ID constants
             ++ "' service to the userId '" ++ to_string (Notification.userId notification)
             ++ "' due to his notification settings.")%string)
  else
    users <- await (getUsersById [Notification.userId notification]) ;;
    emit (Log debug "got users") ;;;
    match users with
    | [] => throw TypeError
    | user :: _ =>
        let userEmail := User.email user in
        (if negb (truthy userEmail)
         then emit (Log error_level
                      ("Email not received for user: " ++ to_string (User.id user))%string)
         else ret_ tt) ;;;
        let userEmail :=
          if is_string (Config.ENABLE_DEV_MODE config) "true"
          then Config.DEV_MODE_EMAIL config else userEmail in
        let recipients := [userEmail] in
        let d := compose notificationType messageJSON notification user recipients in
        d <- topics_and_posts notificationType messageJSON notification user d ;;
        let d := file_name messageJSON d in
        let (bundlingEnabled, bundlePeriod) :=
          bundling settings notificationType (messagingEvent d) in
        emit (Log debug "bundlingEnabled=>") ;;;
        emit (Log debug "bundlePeriod=>") ;;;
        deliver notification d bundlingEnabled bundlePeriod
    end.
End Service.

(** ** A sample configuration *)

Definition sample_bundles : list (string * Bundle.t) :=
  [ ("TOPICS_AND_POSTS",
     {| Bundle.title := "<authorFullName> posted"; Bundle.subject := "Posts by <authorFullName>";
        Bundle.groupBy := VStr "topicId";
        Bundle.types := ["topic.created"; "post.created"; "post.mention"] |});
    ("PROJECT_STATUS",
     {| Bundle.title := "Status of <projectName>"; Bundle.subject := "Project status";
        Bundle.groupBy := VUndefined;
        Bundle.types := ["project.created"; "post.created"] |});
    ("DEFAULT",
     {| Bundle.title := "Other updates"; Bundle.subject := "Project updates";
        Bundle.groupBy := VUndefined;
        Bundle.types := [] |}) ].

Definition sample_message (data : obj) : Message.t obj :=
  {| Message.data := data;
     Message.recipients := [VStr "ann@example.com"];
     Message.version := "v3";
     Message.from := {| Message.name := VStr "bob"; Message.email := VStr "noreply@example.com" |};
     Message.categories := ["dev:general"];
     Message.cc := None;
     Message.replyTo := VUndefined |}.

Definition sample_event (userId : Z) (data : obj) : Event.t :=
  {| Event.data := sample_message data;
     Event.period := VStr "daily";
     Event.userId := VNum userId;
     Event.eventType := VStr "email.general";
     Event.reference := VStr "project";
     Event.referenceId := lookup data "projectId" |}.

Definition sample_events : list Event.t :=
  [ sample_event 1 [("type", VStr "post.created"); ("topicId", VNum 9);
                    ("authorFullName", VStr "Ann"); ("projectId", VNum 4)];
    sample_event 1 [("type", VStr "file.uploaded"); ("projectId", VNum 4)];
    sample_event 1 [("type", VStr "post.created"); ("topicId", VNum 7);
                    ("authorFullName", VStr "Bob"); ("projectId", VNum 4)];
    sample_event 1 [("type", VStr "post.mention"); ("topicId", VNum 9);
                    ("authorFullName", VStr "Cy"); ("projectId", VNum 4)];
    sample_event 1 [("type", VStr "project.created"); ("projectName", VStr "Apollo");
                    ("projectId", VNum 4)] ].

(** Due events of two users, the first with events in two projects. *)
Definition sample_due : list Event.t :=
  [ sample_event 1 [("type", VStr "post.created"); ("topicId", VNum 9); ("projectId", VNum 4)];
    sample_event 2 [("type", VStr "project.created"); ("projectId", VNum 4)];
    sample_event 1 [("type", VStr "project.created"); ("projectId", VNum 5)] ].

Definition sample_config (devMode : string) : Config.t :=
  {| Config.CONNECT_URL := VStr "https://connect.example.com";
     Config.DEFAULT_REPLY_EMAIL := VStr "noreply@example.com";
     Config.REPLY_EMAIL_FROM := VStr "Connect";
     Config.ENABLE_DEV_MODE := VStr devMode;
     Config.DEV_MODE_EMAIL := VStr "dev@example.com";
     Config.ENV := VStr "DEV";
     Config.MENTION_EMAIL := VStr "mention@example.com";
     Config.AUTH_SECRET := "secret";
     Config.REPLY_EMAIL_PREFIX := VStr "reply";
     Config.REPLY_EMAIL_DOMAIN := VStr "example.com" |}.

Definition sample_constants : Constants.t :=
  {| Constants.BUS_API_EVENT_EMAIL_GENERAL := "email.general";
     Constants.BUS_API_EVENT_CONNECT_POST_MENTION := "post.mention";
     Constants.SCHEDULED_EVENT_PERIOD :=
       [("every10minutes", VStr "*/10 * * * *"); ("hourly", VStr "0 * * * *");
        ("daily", VStr "0 7 * * *"); ("weekly", VStr "0 7 * * 6")];
     Constants.SETTINGS_EMAIL_SERVICE_ID := "email";
     Constants.SETTINGS_EMAIL_BUNDLING_SERVICE_ID := "emailBundling" |}.

Definition sample_parseInt (v : value) : value :=
  match v with
  | VNum n => VNum n
  | _ => VNaN
  end.

Definition sample_user (email : value) : User.t :=
  {| User.id := VNum 40;
     User.email := email;
     User.firstName := VStr "Ann";
     User.lastName := VStr "Lee";
     User.handle := VStr "ann" |}.

Definition sample_notification : Notification.t :=
  {| Notification.newType := VUndefined;
     Notification.userId := VNum 40;
     Notification.contents :=
       [("projectName", VStr "Apollo"); ("userHandle", VStr "bob");
        ("userFullName", VStr "Bob B")] |}.

Definition sample_json : MessageJSON.t :=
  {| MessageJSON.projectId := VNum 4;
     MessageJSON.topicId := VNum 9;
     MessageJSON.postId := VUndefined;
     MessageJSON.postContent := VUndefined;
     MessageJSON.fileName := VUndefined |}.

(** Settings with the given entries under [notifications[topic]] and
    [services.email]. *)
Definition sample_settings (topic : string) (forTopic forEmail : obj) : value :=
  VObj [ ("notifications", VObj [(topic, VObj forTopic)]);
         ("services", VObj [("email", VObj forEmail)]) ].

Definition sample_now : string := "2019-01-01T00:00:00.000Z".

(** The handler on the sample input, for given settings, user and answer of
    the bus. *)
Definition sample_handler (devMode : string) (settings : value) (user : User.t)
  (answer : response unit) (topicName : string) : M unit :=
  handler (sample_config devMode) sample_constants sample_bundles
    (fun v => v) (fun v => v) sample_parseInt (fun s => s) (fun _ _ => VStr "sig")
    sample_now (fun _ => Resolved settings) (fun _ => Resolved [user])
    (fun _ => answer) topicName sample_json sample_notification.

(* ================================================================== *)
(** * Properties                                                       *)
(* ================================================================== *)

Example ex_matches : matches "Hi <name>, <x1> <<b> <>" = ["<name>"; "<b>"].
Proof. reflexivity. Qed.

Example ex_replace_first : str_replace "a<b>c<b>" "<b>" "$$x$&$1" = "a$x<b>$1c<b>".
Proof. reflexivity. Qed.

Example ex_resolve :
  replacePlaceholders "<n> posted, <n>!" [[("n", VStr "ann")]; [("n", VStr "bob")]; [("m", VNum 1)]]
  = "ann, bob,  posted, ann, bob, !".
Proof. reflexivity. Qed.

Example ex_own_order :
  map fst (own_order [("b", 1); ("10", 2); ("a", 3); ("9", 4); ("01", 5)]) = ["9"; "10"; "b"; "a"; "01"].
Proof. reflexivity. Qed.

(** ** Strings *)

Lemma append_assoc (a b c : string) :
  ((a ++ b) ++ c)%string = (a ++ (b ++ c))%string.
Proof. induction a as [|x a IH]; simpl; [reflexivity | now rewrite IH]. Qed.

Lemma append_length (a b : string) :
  String.length (a ++ b) = String.length a + String.length b.
Proof. induction a as [|x a IH]; simpl; [reflexivity | now rewrite IH]. Qed.

Lemma drop_append (a b : string) : drop (String.length a) (a ++ b) = b.
Proof. induction a as [|x a IH]; simpl; [now destruct b | exact IH]. Qed.

Lemma starts_with_append (a b : string) : starts_with a (a ++ b) = true.
Proof.
  induction a as [|x a IH]; simpl; [reflexivity |].
  now rewrite Ascii.eqb_refl.
Qed.

(** A string without ["$"] is its own substitution. *)
Lemma get_substitution_plain m b a r :
  has "$" r = false -> get_substitution m b a r = r.
Proof.
  induction r as [|c r IH]; simpl; [reflexivity |].
  intros H. apply orb_false_iff in H as [Hc Hr].
  destruct (Ascii.eqb_spec c "$") as [->|Hne]; [discriminate |].
  rewrite (IH Hr).
  destruct c as [[] [] [] [] [] [] [] []]; try reflexivity.
  now elim Hne.
Qed.

Lemma split_first_here (p s : string) :
  starts_with p s = true ->
  split_first p s = Some (EmptyString, drop (String.length p) s).
Proof. intros H. destruct s; cbn [split_first]; now rewrite H. Qed.

(** ** Placeholder tokens *)

Lemma letter_not_lt c : is_letter c = true -> Ascii.eqb c "<" = false.
Proof. destruct c as [[] [] [] [] [] [] [] []]; vm_compute; congruence. Qed.

Lemma letters_gt_inv s w :
  letters_gt s = Some w ->
  letters w = true /\ s = (w ++ String ">" (drop (S (String.length w)) s))%string.
Proof.
  revert w. induction s as [|c r IH]; simpl; intros w H; [discriminate |].
  destruct (is_letter c) eqn:Hc.
  - destruct (letters_gt r) as [w'|] eqn:E; [|discriminate].
    injection H as <-. destruct (IH w' eq_refl) as [Hl Hr].
    cbn [letters String.length drop append]. rewrite Hc, Hl.
    split; [reflexivity | now f_equal].
  - destruct (Ascii.eqb_spec c ">") as [->|]; [|discriminate].
    injection H as <-. now split.
Qed.

Lemma token_at_inv s w :
  token_at s = Some w ->
  letters w = true /\ s = (w ++ String ">" (drop (S (String.length w)) s))%string.
Proof.
  unfold token_at. destruct (letters_gt s) as [[|c v]|] eqn:E; try discriminate.
  intros H. injection H as <-. now apply letters_gt_inv.
Qed.

Lemma matches_letters w r :
  letters w = true -> matches (w ++ String ">" r) = matches r.
Proof.
  induction w as [|c w IH]; simpl; [reflexivity |].
  intros H. apply andb_true_iff in H as [Hc Hw].
  now rewrite (letter_not_lt c Hc), IH.
Qed.

Lemma tokens_detached_letters st w r :
  letters w = true ->
  tokens_detached st (w ++ String ">" r) = tokens_detached false r.
Proof.
  revert st. induction w as [|c w IH]; simpl; intros st H.
  - now rewrite andb_false_r.
  - apply andb_true_iff in H as [Hc Hw].
    now rewrite (letter_not_lt c Hc), IH.
Qed.

Lemma starts_with_letters_gt w x :
  letters w = true -> starts_with (w ++ ">") x = true -> letters_gt x = Some w.
Proof.
  revert x. induction w as [|c w IH]; intros [|c' x] Hw Hs;
    cbn [append starts_with letters letters_gt] in *; try discriminate.
  - apply andb_true_iff in Hs as [Hc _]. apply Ascii.eqb_eq in Hc. now subst c'.
  - apply andb_true_iff in Hw as [Hc Hw]. apply andb_true_iff in Hs as [Hcc Hs].
    apply Ascii.eqb_eq in Hcc. subst c'. now rewrite Hc, (IH x Hw Hs).
Qed.

Lemma token_at_letters w x :
  letters w = true -> w <> EmptyString ->
  starts_with (w ++ ">") x = true -> token_at x = Some w.
Proof.
  intros Hw Hne Hs. unfold token_at.
  rewrite (starts_with_letters_gt w x Hw Hs). destruct w; [congruence | reflexivity].
Qed.

Lemma token_at_nonempty s w : token_at s = Some w -> w <> EmptyString.
Proof.
  unfold token_at. destruct (letters_gt s) as [[|c v]|]; try discriminate.
  intros H. injection H as <-. discriminate.
Qed.

(** ** Unclosed brackets and the tokens of a prefix *)

Lemma open_after_app st a b : open_after st (a ++ b) = open_after (open_after st a) b.
Proof. revert st. induction a as [|c a IH]; simpl; intros st; [reflexivity | apply IH]. Qed.

Lemma open_after_closed st s : open_after true s = false -> open_after st s = false.
Proof.
  revert st. induction s as [|c s IH]; simpl; intros st H; [discriminate |].
  destruct (Ascii.eqb c "<"); simpl in *; [exact H |].
  destruct st; simpl; [exact H |].
  destruct (is_letter c); [now apply IH | exact H].
Qed.

Lemma open_after_plain s : has "<" s = false -> open_after false s = false.
Proof.
  induction s as [|c s IH]; simpl; intros H; [reflexivity |].
  apply orb_false_iff in H as [-> Hs]. now apply IH.
Qed.

Lemma starting_in_plain p r : has "<" p = false -> starting_in p r = [].
Proof.
  induction p as [|c p IH]; simpl; intros H; [reflexivity |].
  apply orb_false_iff in H as [-> Hs]. now apply IH.
Qed.

Lemma starting_in_app a b r :
  starting_in (a ++ b) r = starting_in a (b ++ r) ++ starting_in b r.
Proof.
  induction a as [|c a IH]; simpl; [reflexivity |].
  rewrite append_assoc, IH.
  destruct (Ascii.eqb c "<"); [| reflexivity].
  now destruct (token_at (a ++ b ++ r)).
Qed.

(** A bracket closed within [p] reads the same whatever follows [p]. *)
Lemma letters_gt_closed p x y :
  open_after true p = false -> letters_gt (p ++ x) = letters_gt (p ++ y).
Proof.
  induction p as [|c p IH]; simpl; intros H; [discriminate |].
  destruct (is_letter c) eqn:Hc.
  - rewrite (letter_not_lt c Hc) in H. simpl in H. now rewrite (IH H).
  - reflexivity.
Qed.

Lemma starting_in_closed p x y :
  open_after false p = false -> starting_in p x = starting_in p y.
Proof.
  induction p as [|c p IH]; simpl; intros H; [reflexivity |].
  destruct (Ascii.eqb c "<"); simpl in H.
  - unfold token_at. rewrite (letters_gt_closed p x y H).
    rewrite (IH (open_after_closed false p H)). reflexivity.
  - now apply IH.
Qed.

(** When no match starts in [p], the first occurrence of a token in
    [p ++ token ++ r] is the one right behind [p]. *)
Lemma split_first_token (p w r : string) :
  letters w = true -> w <> EmptyString ->
  starting_in p (token w ++ r) = [] ->
  split_first (token w) (p ++ token w ++ r) = Some (p, r).
Proof.
  intros Hw Hne. induction p as [|c p IH]; intros Hp.
  - cbn [append]. rewrite split_first_here by apply starts_with_append.
    now rewrite drop_append.
  - cbn [append split_first]. cbn [starting_in] in Hp.
    assert (Hno : starts_with (token w) (String c (p ++ token w ++ r)) = false).
    { unfold token at 1. cbn [append starts_with].
      destruct (Ascii.eqb_spec "<" c) as [<-|]; [| reflexivity].
      rewrite Ascii.eqb_refl in Hp. cbn [andb].
      destruct (starts_with (w ++ ">") (p ++ token w ++ r)) eqn:E; [| reflexivity].
      now rewrite (token_at_letters w _ Hw Hne E) in Hp. }
    rewrite Hno, IH; [reflexivity |].
    destruct (Ascii.eqb c "<"); [| exact Hp].
    destruct (token_at (p ++ token w ++ r)); [discriminate | exact Hp].
Qed.

Lemma str_replace_token (p w r v : string) :
  letters w = true -> w <> EmptyString ->
  starting_in p (token w ++ r) = [] -> has "$" v = false ->
  str_replace (p ++ token w ++ r) (token w) v = (p ++ v ++ r)%string.
Proof.
  intros Hw Hne Hp Hv. unfold str_replace.
  now rewrite (split_first_token p w r Hw Hne Hp), get_substitution_plain.
Qed.

Lemma substitute_tokens_skip f a b :
  substitute_tokens f (String.length a) (a ++ b) = substitute_tokens f 0 b.
Proof. induction a as [|x a IH]; simpl; [reflexivity | exact IH]. Qed.

Lemma drop_last_snoc w c : drop_last (w ++ String c "") = w.
Proof.
  induction w as [|x w IH]; simpl; [reflexivity |].
  rewrite IH. now destruct w.
Qed.

Lemma slice_token w : slice_1_m1 (token w) = w.
Proof. unfold slice_1_m1, token. simpl. apply drop_last_snoc. Qed.

Lemma token_append w r : (token w ++ r)%string = String "<" (w ++ String ">" r).
Proof. unfold token. simpl. now rewrite append_assoc. Qed.

Lemma str_match_fold {A} (step : A -> string -> A) (term : string) (a a' : A) :
  a = a' ->
  match str_match term with
  | Some ps => fold_left step ps a
  | None => a'
  end = fold_left step (matches term) a.
Proof.
  intros <-. unfold str_match. now destruct (matches term).
Qed.

Section Resolver.
Variable data : list obj.

Let step (r p : string) : string := ret (each_placeholder data r p).

Lemma step_token p w r :
  letters w = true -> w <> EmptyString ->
  starting_in p (token w ++ r) = [] -> clean (joined data w) = true ->
  step (p ++ token w ++ r) (token w) = (p ++ joined data w ++ r)%string.
Proof.
  intros Hw Hne Hp Hc. unfold step, each_placeholder; cbn [ret].
  rewrite slice_token. apply andb_true_iff in Hc as [_ Hd].
  apply str_replace_token; try assumption. now apply negb_true_iff.
Qed.

(** The loop over the placeholders of [r], started on [p ++ r] where no
    match starts in the rewritten part [p]. *)
Lemma fold_tokens n : forall r p,
  String.length r <= n ->
  starting_in p r = [] ->
  tokens_detached (open_after false p) r = true ->
  (forall w, In (token w) (matches r) -> clean (joined data w) = true) ->
  fold_left step (matches r) (p ++ r)%string
  = (p ++ substitute_tokens (joined data) 0 r)%string.
Proof.
  induction n as [|n IH]; intros [|c r] p Hn Hp Hr Hv; simpl in Hn;
    try reflexivity; try lia.
  assert (Hsnoc : forall x, (p ++ String c x)%string = ((p ++ String c "") ++ x)%string)
    by (intros x; now rewrite append_assoc).
  cbn [matches tokens_detached substitute_tokens] in *.
  destruct (Ascii.eqb_spec c "<") as [->|Hne].
  - destruct (token_at r) as [w|] eqn:Ht.
    + destruct (token_at_inv r w Ht) as [Hw Hsplit].
      pose proof (token_at_nonempty r w Ht) as Hwne.
      set (r' := drop (S (String.length w)) r) in *.
      assert (Hlen : String.length r' <= n).
      { rewrite Hsplit, append_length in Hn. simpl in Hn. lia. }
      assert (Hcl : clean (joined data w) = true) by (apply Hv; now left).
      clearbody r'. subst r. clear Ht.
      apply andb_true_iff in Hr as [Hst Hr]. apply negb_true_iff in Hst.
      rewrite tokens_detached_letters in Hr by exact Hw.
      rewrite matches_letters in Hv |- * by exact Hw.
      rewrite <- token_append in Hp |- *.
      cbn [fold_left]. rewrite step_token by assumption.
      pose proof Hcl as Hcl'. apply andb_true_iff in Hcl' as [Hlt _].
      apply negb_true_iff in Hlt.
      rewrite <- append_assoc.
      rewrite IH; try assumption.
      * rewrite append_assoc. do 2 f_equal.
        change (String ">" r') with (String ">" "" ++ r')%string.
        rewrite <- append_assoc, <- substitute_tokens_skip with (a := (w ++ ">")%string).
        now rewrite append_length, Nat.add_1_r.
      * rewrite starting_in_app, (starting_in_plain _ _ Hlt), app_nil_r.
        now rewrite (starting_in_closed p _ (token w ++ r') Hst).
      * now rewrite open_after_app, Hst, open_after_plain.
      * intros v Hin. apply Hv. now right.
    + rewrite Hsnoc, IH; try assumption; try lia.
      * now rewrite append_assoc.
      * rewrite starting_in_app. cbn [append starting_in].
        now rewrite Hp, Ascii.eqb_refl, Ht.
      * rewrite open_after_app. cbn [open_after]. now rewrite Ascii.eqb_refl.
  - apply Ascii.eqb_neq in Hne.
    rewrite Hsnoc, IH; try assumption; try lia.
    + now rewrite append_assoc.
    + rewrite starting_in_app. cbn [append starting_in]. now rewrite Hp, Hne.
    + rewrite open_after_app. cbn [open_after]. now rewrite Hne.
Qed.
End Resolver.

Lemma replacePlaceholders_fold term data :
  replacePlaceholders term data
  = fold_left (fun r p => ret (each_placeholder data r p)) (matches term) term.
Proof. unfold replacePlaceholders. now apply str_match_fold. Qed.

Lemma resolve_clean term data :
  tokens_detached false term = true ->
  forallb (fun p => clean (joined data (slice_1_m1 p))) (matches term) = true ->
  replacePlaceholders term data = resolve_spec term data.
Proof.
  intros Ht Hv. rewrite replacePlaceholders_fold.
  apply (fold_tokens data (String.length term) term EmptyString);
    [lia | reflexivity | exact Ht |].
  intros w Hin. rewrite forallb_forall in Hv.
  specialize (Hv _ Hin). now rewrite slice_token in Hv.
Qed.

(** C1 (as amended).  When no placeholder token of the template comes right
    behind an unclosed ["<"] (a ["<"] followed by letters only) and no
    substituted list contains ["<"] or ["$"], the resolver returns the
    template with each token replaced by the un-truncated [", "]-joined
    list of the field's values over all items, in order, whatever the
    number of items; the truncated display string is not part of the
    result; with no item at all every token is replaced by the empty
    string. *)
Theorem replacePlaceholders_untruncated (term : string) (data : list obj) :
  tokens_detached false term = true ->
  forallb (fun p => clean (joined data (slice_1_m1 p))) (matches term) = true ->
  replacePlaceholders term data = resolve_spec term data
  /\ (data = [] ->
      replacePlaceholders term data = substitute_tokens (fun _ => EmptyString) 0 term).
Proof.
  intros Ht Hv. split; [now apply resolve_clean |].
  intros ->. now rewrite resolve_clean.
Qed.

Lemma replacePlaceholders_untruncated_witness :
  let term := "a < b: <author> and <n> wrote to <author>" in
  let data := [[("author", VStr "ann"); ("n", VNum 3)];
               [("author", VStr "bob")];
               [("author", VStr "cy"); ("n", VNull)]] in
  replacePlaceholders term data = "a < b: ann, bob, cy and 3, ,  wrote to ann, bob, cy".
Proof.
  intros term data.
  destruct (replacePlaceholders_untruncated term data eq_refl eq_refl) as [-> _].
  reflexivity.
Defined.

(** C1 (as stated) fails: [replace] rewrites the first occurrence of the
    token in the string rewritten so far, so a value that itself holds a
    later token takes that token's substitution. *)
Lemma replacePlaceholders_first_occurrence :
  let term := "<a><b>" in
  let data := [[("a", VStr "<b>"); ("b", VStr "x")]] in
  replacePlaceholders term data = "x<b>"
  /\ resolve_spec term data = "<b>x"
  /\ replacePlaceholders term data <> resolve_spec term data.
Proof. repeat split. discriminate. Qed.

(** An unclosed ["<"] right before a token is completed by the token's
    substitution into a copy of a later token, which is then the one
    replaced. *)
Example replacePlaceholders_unclosed :
  replacePlaceholders "<x<a>b> and <xyb>" [[("a", VStr "y"); ("xyb", VStr "v")]]
  = "v and <xyb>".
Proof. reflexivity. Qed.

(** A ["$"] pattern in a value is expanded by [replace]. *)
Example replacePlaceholders_dollar :
  replacePlaceholders "Hi <name>!" [[("name", VStr "$& and $$")]] = "Hi <name> and $!".
Proof. reflexivity. Qed.

(** C2.  With at least three items, the display string computed in a pass
    is the first two values joined with [", "], then [" and "], then the
    decimal numeral of [total - 3], then ["others"]; with five items the
    numeral is [2]. *)
Theorem truncated_display_count (data : list obj) (r p : string) :
  3 <= List.length data ->
  let pass := each_placeholder data r p in
  total pass = Z.of_nat (List.length data)
  /\ replacement pass
     = (join ", " (firstn 2 (values pass)) ++ " and "
        ++ string_of_Z (total pass - 3) ++ "others")%string
  /\ (List.length data = 5 ->
      replacement pass
      = (join ", " (firstn 2 (values pass)) ++ " and " ++ "2" ++ "others")%string).
Proof.
  intros Hlen pass. unfold pass, each_placeholder, Lodash.map_prop.
  cbn [total replacement values]. rewrite length_map.
  destruct (Z.ltb_spec (Z.of_nat (List.length data)) 3) as [Hlt|_]; [lia |].
  repeat split. intros ->. reflexivity.
Qed.

Lemma truncated_display_count_witness :
  replacement
    (each_placeholder
       [[("n", VStr "a")]; [("n", VStr "b")]; [("n", VStr "c")];
        [("n", VStr "d")]; [("n", VStr "e")]] "<n> joined" "<n>")
  = "a, b and 2others".
Proof.
  pose proof (truncated_display_count
       [[("n", VStr "a")]; [("n", VStr "b")]; [("n", VStr "c")];
        [("n", VStr "d")]; [("n", VStr "e")]] "<n> joined" "<n>"
       ltac:(simpl; lia)) as H.
  destruct H as (_ & _ & H). rewrite (H eq_refl). reflexivity.
Defined.

(** ** Property order *)

Lemma filter_split {A} (p : A -> bool) (l : list A) :
  Permutation (filter p l ++ filter (fun x => negb (p x)) l) l.
Proof.
  induction l as [|x l IH]; simpl; [constructor |].
  destruct (p x); simpl.
  - now constructor.
  - symmetry. apply Permutation_cons_app. now symmetry.
Qed.

Lemma insert_index_perm {A} n (e : string * A) l :
  Permutation (map snd (insert_index n e l)) (e :: map snd l).
Proof.
  induction l as [|[m e'] l IH]; simpl; [reflexivity |].
  destruct (n <=? m)%N; simpl; [reflexivity |].
  rewrite IH. apply perm_swap.
Qed.

Lemma index_entries_perm {A} (l : list (string * A)) :
  Permutation (map snd (index_entries l))
    (filter (fun e => negb match array_index (fst e) with Some _ => false | None => true end) l).
Proof.
  induction l as [|e l IH]; simpl; [constructor |].
  destruct (array_index (fst e)); simpl; [| exact IH].
  rewrite insert_index_perm. now constructor.
Qed.

Lemma own_order_perm {A} (l : list (string * A)) : Permutation (own_order l) l.
Proof.
  unfold own_order, name_entries. rewrite index_entries_perm.
  rewrite Permutation_app_comm. apply filter_split.
Qed.

(** ** Grouping *)

Section GroupByFacts.
Context {A : Type} (f : A -> string).

Lemma add_to_group_keys k x (acc : list (string * list A)) k' :
  In k' (map fst (Lodash.add_to_group k x acc)) <-> In k' (map fst acc) \/ k' = k.
Proof.
  induction acc as [|[k0 g0] acc IH]; simpl.
  - intuition congruence.
  - destruct (String.eqb_spec k0 k) as [->|Hne]; simpl.
    + intuition congruence.
    + rewrite IH. tauto.
Qed.

Lemma add_to_group_NoDup k x (acc : list (string * list A)) :
  NoDup (map fst acc) -> NoDup (map fst (Lodash.add_to_group k x acc)).
Proof.
  induction acc as [|[k0 g0] acc IH]; simpl; intros H.
  - repeat constructor. intros [].
  - inversion H as [|? ? Hnot Hnd]; subst.
    destruct (String.eqb_spec k0 k) as [->|Hne]; simpl.
    + now constructor.
    + constructor; [| now apply IH].
      rewrite add_to_group_keys. intros [Hin| ->]; [now apply Hnot | now apply Hne].
Qed.

Lemma add_to_group_entry k x (acc : list (string * list A)) k' g' :
  NoDup (map fst acc) ->
  In (k', g') (Lodash.add_to_group k x acc) ->
  (k' <> k /\ In (k', g') acc)
  \/ (k' = k /\ ((exists g, In (k, g) acc /\ g' = g ++ [x])
                \/ (~ In k (map fst acc) /\ g' = [x]))).
Proof.
  induction acc as [|[k0 g0] acc IH]; simpl; intros Hnd Hin.
  - destruct Hin as [E|[]]. injection E as <- <-. right. split; [reflexivity |].
    right. split; [intros [] | reflexivity].
  - inversion Hnd as [|? ? Hnot Hnd']; subst.
    destruct (String.eqb_spec k0 k) as [->|Hne]; simpl in Hin.
    + destruct Hin as [E|Hin].
      * injection E as <- <-. right. split; [reflexivity |].
        left. exists g0. split; [now left | reflexivity].
      * left. split; [| now right].
        intros ->. apply Hnot. now apply (in_map fst) in Hin.
    + destruct Hin as [E|Hin].
      * injection E as <- <-. left. split; [exact Hne | now left].
      * destruct (IH Hnd' Hin) as [[Hk Hi]|[-> [[g [Hi ->]]|[Hn ->]]]].
        -- left. split; [exact Hk | now right].
        -- right. split; [reflexivity |]. left. exists g. split; [now right | reflexivity].
        -- right. split; [reflexivity |]. right. split; [| reflexivity].
           intros [E|Hi]; [now apply Hne | now apply Hn].
Qed.

Lemma members_of_snoc l x k :
  Lodash.members_of f (l ++ [x]) k
  = Lodash.members_of f l k ++ (if f x =? k then [x] else []).
Proof.
  unfold Lodash.members_of. rewrite filter_app. simpl. now destruct (f x =? k).
Qed.

Lemma members_of_nil l k :
  (forall x, In x l -> f x <> k) -> Lodash.members_of f l k = [].
Proof.
  intros H. unfold Lodash.members_of. induction l as [|x l IH]; simpl; [reflexivity |].
  destruct (String.eqb_spec (f x) k) as [E|_].
  - exfalso. apply (H x); [now left | exact E].
  - apply IH. intros y Hy. apply H. now right.
Qed.

(** The three facts that characterise the groups built by the aggregator:
    distinct keys, each group the members of its key, every item's key
    present. *)
Definition grouping (l : list A) (acc : list (string * list A)) : Prop :=
  NoDup (map fst acc)
  /\ (forall k g, In (k, g) acc -> g = Lodash.members_of f l k /\ g <> [])
  /\ (forall x, In x l -> In (f x) (map fst acc)).

Lemma grouped_grouping l : grouping l (Lodash.grouped f l).
Proof.
  unfold Lodash.grouped. induction l as [|x l IH] using rev_ind.
  - split; [constructor | split]; simpl; intros; contradiction.
  - rewrite fold_left_app. simpl.
    destruct IH as (Hnd & Hent & Hkey).
    set (acc := fold_left _ l []) in *.
    split; [now apply add_to_group_NoDup | split].
    + intros k g H.
      destruct (add_to_group_entry _ _ _ _ _ Hnd H)
        as [[Hk Hi]|[-> [[g0 [Hi ->]]|[Hn ->]]]].
      * rewrite members_of_snoc. destruct (String.eqb_spec (f x) k); [congruence |].
        rewrite app_nil_r. now apply Hent.
      * rewrite members_of_snoc, String.eqb_refl.
        destruct (Hent _ _ Hi) as [<- _]. split; [reflexivity | now destruct g0].
      * rewrite members_of_snoc, String.eqb_refl, members_of_nil;
          [split; [reflexivity | discriminate] |].
        intros y Hy E. apply Hn. rewrite <- E. now apply Hkey.
    + intros y Hy. rewrite add_to_group_keys.
      apply in_app_or in Hy as [Hy|[<-|[]]]; [left; now apply Hkey | now right].
Qed.

Lemma groupBy_grouping l : grouping l (Lodash.groupBy f l).
Proof.
  destruct (grouped_grouping l) as (Hnd & Hent & Hkey).
  pose proof (own_order_perm (Lodash.grouped f l)) as P.
  unfold Lodash.groupBy. split; [| split].
  - eapply Permutation_NoDup; [| exact Hnd].
    symmetry. now apply Permutation_map.
  - intros k g H. apply Hent. eapply Permutation_in; [exact P | exact H].
  - intros x Hx. eapply Permutation_in; [| apply Hkey, Hx].
    symmetry. now apply Permutation_map.
Qed.

Lemma members_concat (ks : list string) x l :
  NoDup ks -> In (f x) ks ->
  Permutation (concat (map (Lodash.members_of f (x :: l)) ks))
              (x :: concat (map (Lodash.members_of f l) ks)).
Proof.
  induction ks as [|k ks IH]; simpl; intros Hnd Hin; [contradiction |].
  inversion Hnd as [|? ? Hnot Hnd']; subst.
  destruct (String.eqb_spec (f x) k) as [E|Hne].
  - simpl. constructor. apply Permutation_app_head.
    replace (map (Lodash.members_of f (x :: l)) ks) with (map (Lodash.members_of f l) ks);
      [reflexivity |].
    apply map_ext_in. intros k' Hk'. unfold Lodash.members_of. simpl.
    destruct (String.eqb_spec (f x) k'); [congruence | reflexivity].
  - destruct Hin as [E|Hin]; [congruence |].
    rewrite (IH Hnd' Hin). symmetry. apply Permutation_middle.
Qed.

Lemma grouping_concat l acc :
  grouping l acc -> Permutation (concat (map snd acc)) l.
Proof.
  intros (Hnd & Hent & Hkey).
  assert (E : map snd acc = map (Lodash.members_of f l) (map fst acc)).
  { rewrite map_map. apply map_ext_in. intros [k g] Hin. simpl.
    now apply Hent in Hin. }
  rewrite E. clear E Hent.
  set (ks := map fst acc) in *. clearbody ks. clear acc.
  induction l as [|x l IH].
  - induction ks as [|k ks IHk]; simpl; [constructor |].
    inversion Hnd; subst. apply IHk; [assumption | intros ? []].
  - rewrite members_concat; [| exact Hnd | apply Hkey; now left].
    constructor. apply IH. intros y Hy. apply Hkey. now right.
Qed.
End GroupByFacts.

(** ** Classification *)

Section Classifier.
Variable EVENT_BUNDLES : list (string * Bundle.t).

Lemma bundle_In key b :
  NoDup (map fst EVENT_BUNDLES) -> In (key, b) EVENT_BUNDLES ->
  bundle EVENT_BUNDLES key = Some b.
Proof.
  unfold bundle. induction EVENT_BUNDLES as [|[k0 b0] l IH]; simpl; intros Hnd Hin.
  - contradiction.
  - inversion Hnd as [|? ? Hnot Hnd']; subst.
    destruct Hin as [E|Hin].
    + injection E as -> ->. now rewrite String.eqb_refl.
    + destruct (String.eqb_spec k0 key) as [->|_]; [| now apply IH].
      exfalso. apply Hnot. now apply (in_map fst) in Hin.
Qed.

Lemma bundle_key key : In key (map fst EVENT_BUNDLES) -> bundle EVENT_BUNDLES key <> None.
Proof.
  unfold bundle. induction EVENT_BUNDLES as [|[k0 b0] l IH]; simpl; [contradiction |].
  intros [->|Hin].
  - now rewrite String.eqb_refl.
  - destruct (k0 =? key); [discriminate | now apply IH].
Qed.

Lemma bundle_none key :
  ~ In key (map fst EVENT_BUNDLES) -> bundle EVENT_BUNDLES key = None.
Proof.
  unfold bundle. induction EVENT_BUNDLES as [|[k0 b0] l IH]; simpl; intros Hn;
    [reflexivity |].
  destruct (String.eqb_spec k0 key) as [->|_]; [exfalso; apply Hn; now left |].
  apply IH. intros H. apply Hn. now right.
Qed.

Lemma getEventGroupKey_cases e :
  getEventGroupKey EVENT_BUNDLES e = "DEFAULT"
  \/ In (getEventGroupKey EVENT_BUNDLES e) (map fst EVENT_BUNDLES).
Proof.
  unfold getEventGroupKey.
  destruct (find _ (map fst (own_order EVENT_BUNDLES))) as [k|] eqn:E; [| now left].
  destruct (k =? ""); [now left | right].
  apply find_some in E as [E _].
  eapply Permutation_in; [| exact E].
  apply Permutation_map, own_order_perm.
Qed.

(** A table that defines ["DEFAULT"] defines every key the classifier
    returns. *)
Lemma default_groups_defined :
  bundle EVENT_BUNDLES "DEFAULT" <> None ->
  forall e, bundle EVENT_BUNDLES (getEventGroupKey EVENT_BUNDLES e) <> None.
Proof.
  intros Hd e. destruct (getEventGroupKey_cases e) as [->|Hin];
    [exact Hd | now apply bundle_key].
Qed.

(** *** Tables keyed by plain names *)

Lemma stringToPath_plain c r :
  Lodash.path_break c = false ->
  Lodash.stringToPath (String c r) = Lodash.path_names 0 (String c r).
Proof.
  intros H. unfold Lodash.stringToPath.
  destruct c as [[] [] [] [] [] [] [] []]; try (vm_compute in H; discriminate H);
    reflexivity.
Qed.

Lemma path_run_plain w r :
  every (fun c => negb (Lodash.path_break c)) w = true ->
  Lodash.path_run (w ++ String "." r) = w.
Proof.
  induction w as [|c w IH]; cbn [every append Lodash.path_run]; [reflexivity |].
  intros H. apply andb_prop in H as [Hc Hw].
  apply negb_true_iff in Hc. now rewrite Hc, (IH Hw).
Qed.

Lemma path_names_skip a r :
  Lodash.path_names (String.length a) (a ++ r) = Lodash.path_names 0 r.
Proof. induction a as [|c a IH]; [reflexivity | exact IH]. Qed.

(** The classifier's path for a plain key has two names. *)
Lemma plain_key_path k :
  Lodash.plain_key k = true -> Lodash.stringToPath (k ++ ".types") = [k; "types"].
Proof.
  unfold Lodash.plain_key. intros H.
  apply andb_prop in H as [H _]. apply andb_prop in H as [Hne Hw].
  destruct k as [|c w]; [discriminate |].
  cbn [every] in Hw. apply andb_prop in Hw as [Hc Hw]. apply negb_true_iff in Hc.
  change ((String c w ++ ".types")%string) with (String c (w ++ ".types")).
  rewrite (stringToPath_plain c _ Hc).
  cbn [Lodash.path_names Lodash.path_run]. rewrite Hc. cbn [negb].
  rewrite (path_run_plain w "types" Hw), path_names_skip. reflexivity.
Qed.

Lemma dotted_not_plain k : Lodash.plain_key (k ++ ".types") = false.
Proof.
  assert (H : every (fun c => negb (Lodash.path_break c)) (k ++ ".types") = false).
  { induction k as [|c w IH]; [reflexivity |].
    cbn [append every]. rewrite IH. apply andb_false_r. }
  unfold Lodash.plain_key. rewrite H. now rewrite andb_false_r.
Qed.

Lemma plain_key_not_index k : Lodash.plain_key k = true -> array_index k = None.
Proof.
  unfold Lodash.plain_key. intros H. apply andb_prop in H as [_ H].
  now destruct (array_index k).
Qed.

Lemma own_order_names {A} (l : list (string * A)) :
  Forall (fun e => array_index (fst e) = None) l -> own_order l = l.
Proof.
  intros H. unfold own_order, name_entries.
  replace (index_entries l) with (@nil (N * (string * A))).
  - cbn [map app]. induction H as [|e l He _ IH]; cbn [filter]; [reflexivity |].
    now rewrite He, IH.
  - symmetry. induction H as [|e l He _ IH]; cbn [index_entries]; [reflexivity |].
    now rewrite He.
Qed.

Section PlainKeys.
Hypothesis keys_distinct : NoDup (map fst EVENT_BUNDLES).
Hypothesis keys_plain : Forall (fun e => Lodash.plain_key (fst e) = true) EVENT_BUNDLES.

Lemma types_of_entry k b :
  In (k, b) EVENT_BUNDLES -> types_of EVENT_BUNDLES k = Types (Bundle.types b).
Proof.
  intros Hin. unfold types_of.
  rewrite bundle_none.
  - rewrite Forall_forall in keys_plain.
    rewrite (plain_key_path k (keys_plain _ Hin)).
    cbn [read_names]. rewrite (bundle_In k b keys_distinct Hin). reflexivity.
  - intros H. apply in_map_iff in H as (e & He & Hin').
    rewrite Forall_forall in keys_plain.
    pose proof (keys_plain e Hin') as Hid.
    rewrite He, dotted_not_plain in Hid. discriminate.
Qed.

Lemma find_keys (type : value) (l : list (string * Bundle.t)) :
  (forall k b, In (k, b) l -> In (k, b) EVENT_BUNDLES) ->
  find (fun key => includes_reading (types_of EVENT_BUNDLES key) type) (map fst l)
  = option_map fst (find (fun e => Lodash.includes (Bundle.types (snd e)) type) l).
Proof.
  induction l as [|[k b] l IH]; simpl; intros H; [reflexivity |].
  rewrite (types_of_entry k b) by (apply H; now left). cbn [includes_reading].
  destruct (Lodash.includes (Bundle.types b) type); [reflexivity |].
  apply IH. intros k' b' Hin. apply H. now right.
Qed.

Lemma getEventGroupKey_classify value :
  getEventGroupKey EVENT_BUNDLES value = classify_spec EVENT_BUNDLES value.
Proof.
  unfold getEventGroupKey, classify_spec.
  rewrite own_order_names.
  2:{ eapply Forall_impl; [| exact keys_plain].
      intros e He. now apply plain_key_not_index. }
  rewrite find_keys by auto.
  destruct (find _ EVENT_BUNDLES) as [[k b]|] eqn:F; simpl; [| reflexivity].
  apply find_some in F as [Hin _].
  rewrite Forall_forall in keys_plain. specialize (keys_plain _ Hin).
  cbn [fst] in keys_plain.
  destruct (String.eqb_spec k "") as [->|_]; [discriminate | reflexivity].
Qed.
End PlainKeys.

(** C5 (as amended).  Over a table whose group keys are distinct and
    plain (not empty, without [.], [[] and []], and no array indices), the
    classifier returns, for every event, the key of the first group in
    declaration order whose [types] hold the event's type (so the earlier
    of two groups sharing a type), and ["DEFAULT"] when no group holds
    it. *)
Theorem getEventGroupKey_first_match (value : Event.t) :
  NoDup (map fst EVENT_BUNDLES) ->
  Forall (fun e => Lodash.plain_key (fst e) = true) EVENT_BUNDLES ->
  let type := lookup (data_data value) "type" in
  getEventGroupKey EVENT_BUNDLES value = classify_spec EVENT_BUNDLES value
  /\ (forall before key b after,
        EVENT_BUNDLES = before ++ (key, b) :: after ->
        Lodash.includes (Bundle.types b) type = true ->
        Forall (fun e => Lodash.includes (Bundle.types (snd e)) type = false) before ->
        getEventGroupKey EVENT_BUNDLES value = key)
  /\ (Forall (fun e => Lodash.includes (Bundle.types (snd e)) type = false) EVENT_BUNDLES ->
      getEventGroupKey EVENT_BUNDLES value = "DEFAULT").
Proof.
  intros Hnd Hid type.
  pose proof (getEventGroupKey_classify Hnd Hid value) as Heq.
  split; [exact Heq | split].
  - intros before key b after Hsplit Hb Hbefore. rewrite Heq.
    unfold classify_spec. fold type. rewrite Hsplit. clear Hsplit.
    induction Hbefore as [|e before He _ IH]; simpl.
    + rewrite Hb. reflexivity.
    + rewrite He. exact IH.
  - intros Hall. rewrite Heq. unfold classify_spec. fold type.
    clear Heq Hnd Hid.
    induction Hall as [|e l He _ IH]; simpl; [reflexivity |].
    rewrite He. exact IH.
Qed.
End Classifier.

Lemma sample_bundles_keys :
  NoDup (map fst sample_bundles)
  /\ Forall (fun e => Lodash.plain_key (fst e) = true) sample_bundles.
Proof.
  split.
  - repeat constructor; simpl; intuition discriminate.
  - repeat constructor.
Qed.

Lemma getEventGroupKey_first_match_witness :
  getEventGroupKey sample_bundles (sample_event 1 [("type", VStr "post.created")])
  = "TOPICS_AND_POSTS"
  /\ getEventGroupKey sample_bundles (sample_event 1 [("type", VStr "file.uploaded")])
     = "DEFAULT".
Proof.
  destruct sample_bundles_keys as [Hnd Hid].
  split.
  - destruct (getEventGroupKey_first_match sample_bundles
                (sample_event 1 [("type", VStr "post.created")]) Hnd Hid) as [-> _].
    reflexivity.
  - destruct (getEventGroupKey_first_match sample_bundles
                (sample_event 1 [("type", VStr "file.uploaded")]) Hnd Hid) as [-> _].
    reflexivity.
Defined.

(** C5 (as stated) fails.  The group keyed ["A.B"] is not found: lodash
    reads the path [A.B.types] as three names, so that an event of the
    group's type is classified ["DEFAULT"].  Groups whose
    keys are array indices are scanned in ascending order of the index,
    not in declaration order: of two such groups sharing a type, declared
    as ["1"] then ["0"], the later declared one is returned. *)
Lemma getEventGroupKey_key_shapes :
  let group := {| Bundle.title := "t"; Bundle.subject := "s";
                  Bundle.groupBy := VUndefined; Bundle.types := ["x"] |} in
  let event := sample_event 1 [("type", VStr "x")] in
  (getEventGroupKey [("A.B", group)] event = "DEFAULT"
   /\ classify_spec [("A.B", group)] event = "A.B")
  /\ (getEventGroupKey [("1", group); ("0", group)] event = "0"
      /\ classify_spec [("1", group); ("0", group)] event = "1").
Proof. repeat split. Qed.

(** ** Section builder *)

Lemma filter_filter {A} (p q : A -> bool) (l : list A) :
  filter p (filter q l) = filter (fun x => q x && p x) l.
Proof.
  induction l as [|x l IH]; simpl; [reflexivity |].
  destruct (q x); simpl; [destruct (p x) |]; now rewrite IH.
Qed.

Lemma forIn_push {A B} (o : list (string * A)) (h : A -> B) :
  forIn o (fun value _ => Return [h value]) = Return (map (fun p => h (snd p)) o).
Proof.
  induction o as [|[k v] o IH]; simpl; [reflexivity | now rewrite IH].
Qed.

Lemma forIn_blocks {A B} (o : list (string * A))
  (callback : A -> string -> outcome (list B)) (blocks : string -> A -> list B) :
  (forall k v, In (k, v) o -> callback v k = Return (blocks k v)) ->
  forIn o callback = Return (flat_map (fun p => blocks (fst p) (snd p)) o).
Proof.
  induction o as [|[k v] o IH]; simpl; intros H; [reflexivity |].
  rewrite (H k v) by now left.
  rewrite IH; [reflexivity |]. intros k' v' Hin. apply H. now right.
Qed.

Lemma nonempty_member {A} (l : list A) : l <> [] -> exists x, In x l.
Proof. destruct l as [|x l]; [congruence | intros _; exists x; now left]. Qed.

Section SectionBuilder.
Variable EVENT_BUNDLES : list (string * Bundle.t).

(** Every key the classifier returns is defined in [EVENT_BUNDLES]. *)
Hypothesis groups_defined :
  forall e, bundle EVENT_BUNDLES (getEventGroupKey EVENT_BUNDLES e) <> None.

Let key_of := getEventGroupKey EVENT_BUNDLES.
Let groups (events : list Event.t) := Lodash.groupBy key_of events.

Lemma group_defined events k g :
  In (k, g) (groups events) ->
  exists b, bundle EVENT_BUNDLES k = Some b
            /\ g = Lodash.members_of key_of events k /\ g <> [].
Proof.
  intros Hin. destruct (groupBy_grouping key_of events) as (_ & Hent & _).
  destruct (Hent k g Hin) as [Hg Hne].
  destruct (nonempty_member g Hne) as [e He].
  rewrite Hg in He. apply filter_In in He as [_ Hk].
  apply String.eqb_eq in Hk.
  destruct (bundle EVENT_BUNDLES k) as [b|] eqn:E.
  - now exists b.
  - exfalso. apply (groups_defined e). fold key_of. now rewrite Hk.
Qed.

Lemma getSections_blocks events :
  getSections EVENT_BUNDLES events
  = Return (flat_map (fun p => sections_of_group EVENT_BUNDLES (fst p) (snd p))
                     (groups events)).
Proof.
  unfold getSections. apply forIn_blocks. intros k g Hin.
  destruct (group_defined events k g Hin) as (b & Hb & _).
  unfold sections_of_group. rewrite Hb.
  destruct (negb (truthy (Bundle.groupBy b))); [reflexivity |].
  apply (forIn_push _ (section_of b k)).
Qed.

Lemma group_notifications k g :
  bundle EVENT_BUNDLES k <> None ->
  Permutation (concat (map notifications (sections_of_group EVENT_BUNDLES k g)))
              (map data_data g).
Proof.
  intros Hd. unfold sections_of_group.
  destruct (bundle EVENT_BUNDLES k) as [b|]; [| congruence].
  destruct (negb (truthy (Bundle.groupBy b))); simpl.
  - now rewrite app_nil_r.
  - rewrite map_map. simpl.
    rewrite <- (map_map snd (map data_data)), <- concat_map.
    apply Permutation_map.
    apply (grouping_concat (subgroup_key (Bundle.groupBy b))), groupBy_grouping.
Qed.
Lemma all_notifications (G : list (string * list Event.t)) :
  (forall k g, In (k, g) G -> bundle EVENT_BUNDLES k <> None) ->
  Permutation
    (concat (map notifications
               (flat_map (fun p => sections_of_group EVENT_BUNDLES (fst p) (snd p)) G)))
    (map data_data (concat (map snd G))).
Proof.
  induction G as [|[k g] G IH]; simpl; intros Hd; [constructor |].
  rewrite !map_app, concat_app. apply Permutation_app.
  - apply group_notifications. apply (Hd k g). now left.
  - apply IH. intros k' g' Hin. apply (Hd k' g'). now right.
Qed.

Lemma sections_of_group_flag k g s :
  In s (sections_of_group EVENT_BUNDLES k g) -> flag s = k.
Proof.
  unfold sections_of_group. destruct (bundle EVENT_BUNDLES k) as [b|]; [| intros []].
  destruct (negb (truthy (Bundle.groupBy b))).
  - intros [<-|[]]. reflexivity.
  - intros Hin. apply in_map_iff in Hin as (p & <- & _). reflexivity.
Qed.

Lemma filter_none {A} (p : A -> bool) (l : list A) :
  (forall x, In x l -> p x = false) -> filter p l = [].
Proof.
  induction l as [|x l IH]; simpl; intros H; [reflexivity |].
  rewrite (H x) by now left. apply IH. intros y Hy. apply H. now right.
Qed.

Lemma filter_all {A} (p : A -> bool) (l : list A) :
  (forall x, In x l -> p x = true) -> filter p l = l.
Proof.
  induction l as [|x l IH]; simpl; intros H; [reflexivity |].
  rewrite (H x) by now left. f_equal. apply IH. intros y Hy. apply H. now right.
Qed.

(** Among the sections built for groups of distinct keys, those flagged
    [key] are the ones built for the group of [key]. *)
Lemma sections_flagged (G : list (string * list Event.t)) key g :
  NoDup (map fst G) -> In (key, g) G ->
  filter (fun s => flag s =? key)
         (flat_map (fun p => sections_of_group EVENT_BUNDLES (fst p) (snd p)) G)
  = sections_of_group EVENT_BUNDLES key g.
Proof.
  induction G as [|[k0 g0] G IH]; simpl; intros Hnd Hin; [contradiction |].
  inversion Hnd as [|? ? Hnot Hnd']; subst. rewrite filter_app.
  destruct Hin as [E|Hin].
  - injection E as -> ->. rewrite filter_all, filter_none.
    + apply app_nil_r.
    + intros s Hs. apply in_flat_map in Hs as ([k' g'] & Hp & Hs).
      apply sections_of_group_flag in Hs. simpl in Hs.
      apply String.eqb_neq. intros E. apply Hnot.
      rewrite <- E, Hs. now apply (in_map fst) in Hp.
    + intros s Hs. apply sections_of_group_flag in Hs. now apply String.eqb_eq.
  - rewrite filter_none, (IH Hnd' Hin); [reflexivity |].
    intros s Hs. apply sections_of_group_flag in Hs.
    apply String.eqb_neq. intros E. apply Hnot.
    rewrite Hs in E. rewrite E. now apply (in_map fst) in Hin.
Qed.

(** The events of [events] that share the group of [e0] and, when the
    group's definition [b] has a [groupBy] field, the text of that field's
    value. *)
Lemma sub_group_members events k b e0 :
  truthy (Bundle.groupBy b) = true -> key_of e0 = k ->
  Lodash.members_of (subgroup_key (Bundle.groupBy b))
    (Lodash.members_of key_of events k) (subgroup_key (Bundle.groupBy b) e0)
  = filter (fun e =>
              (getEventGroupKey EVENT_BUNDLES e =? getEventGroupKey EVENT_BUNDLES e0)
              && (if truthy (Bundle.groupBy b)
                  then text_at (data_data e) (to_string (Bundle.groupBy b))
                       =? text_at (data_data e0) (to_string (Bundle.groupBy b))
                  else true))
           events.
Proof.
  intros Hg Hk. unfold Lodash.members_of. rewrite filter_filter.
  apply filter_ext. intros e. fold key_of. now rewrite Hk, Hg.
Qed.

Lemma whole_group_members events k b e0 :
  truthy (Bundle.groupBy b) = false -> key_of e0 = k ->
  Lodash.members_of key_of events k
  = filter (fun e =>
              (getEventGroupKey EVENT_BUNDLES e =? getEventGroupKey EVENT_BUNDLES e0)
              && (if truthy (Bundle.groupBy b)
                  then text_at (data_data e) (to_string (Bundle.groupBy b))
                       =? text_at (data_data e0) (to_string (Bundle.groupBy b))
                  else true))
           events.
Proof.
  intros Hg Hk. unfold Lodash.members_of. apply filter_ext. intros e.
  fold key_of. now rewrite Hk, Hg, andb_true_r.
Qed.

(** C6 (as amended).  Over a table that defines every key the classifier
    returns: for every list of events, the sections' [notifications],
    taken together, are the events' contents, each exactly once; every
    section holds, in input order, exactly the contents of the events
    that share one classification group and, when the group has a
    [groupBy] field, one text of that field's value (the property key the
    value converts to); and every event's contents sit in the section of
    its own group and text. *)
Theorem getSections_partition (events : list Event.t) :
  exists secs,
    getSections EVENT_BUNDLES events = Return secs
    /\ Permutation (concat (map notifications secs)) (map data_data events)
    /\ let class (b : Bundle.t) (e0 : Event.t) :=
         filter (fun e =>
                   (getEventGroupKey EVENT_BUNDLES e =? getEventGroupKey EVENT_BUNDLES e0)
                   && (if truthy (Bundle.groupBy b)
                       then text_at (data_data e) (to_string (Bundle.groupBy b))
                            =? text_at (data_data e0) (to_string (Bundle.groupBy b))
                       else true))
                events in
       Forall (fun s =>
                 exists e0 b,
                   In e0 events
                   /\ bundle EVENT_BUNDLES (getEventGroupKey EVENT_BUNDLES e0) = Some b
                   /\ flag s = getEventGroupKey EVENT_BUNDLES e0
                   /\ notifications s = map data_data (class b e0)) secs
       /\ (forall e0, In e0 events ->
             exists s b,
               In s secs
               /\ bundle EVENT_BUNDLES (getEventGroupKey EVENT_BUNDLES e0) = Some b
               /\ flag s = getEventGroupKey EVENT_BUNDLES e0
               /\ notifications s = map data_data (class b e0)).
Proof.
  eexists. split; [apply getSections_blocks | split; [| cbv zeta; split]].
  - rewrite all_notifications.
    + apply Permutation_map, (grouping_concat key_of), groupBy_grouping.
    + intros k g Hin. destruct (group_defined events k g Hin) as (b & -> & _).
      discriminate.
  - apply Forall_forall. intros s Hs.
    apply in_flat_map in Hs as ([k g] & Hin & Hs). simpl in Hs.
    destruct (group_defined events k g Hin) as (b & Hb & Hg & Hne).
    unfold sections_of_group in Hs. rewrite Hb in Hs.
    destruct (truthy (Bundle.groupBy b)) eqn:Hgb; simpl in Hs.
    + apply in_map_iff in Hs as ([j gv] & <- & Hj). simpl.
      destruct (groupBy_grouping (subgroup_key (Bundle.groupBy b)) g) as (_ & Hent & _).
      destruct (Hent j gv Hj) as [Hgv Hgvne].
      destruct (nonempty_member gv Hgvne) as [e0 He0].
      pose proof He0 as He0'. rewrite Hgv in He0'.
      apply filter_In in He0' as [He0g Hsub]. apply String.eqb_eq in Hsub.
      rewrite Hg in He0g. apply filter_In in He0g as [Hev Hk].
      apply String.eqb_eq in Hk.
      exists e0, b. split; [exact Hev |].
      split; [fold key_of; now rewrite Hk | split; [fold key_of; now rewrite Hk |]].
      f_equal. rewrite Hgv, Hg, <- Hsub.
      exact (sub_group_members events k b e0 Hgb Hk).
    + destruct Hs as [<-|[]]. simpl.
      destruct (nonempty_member g Hne) as [e0 He0].
      rewrite Hg in He0. apply filter_In in He0 as [He0 Hk].
      apply String.eqb_eq in Hk.
      exists e0, b. split; [exact He0 |].
      split; [fold key_of; now rewrite Hk | split; [fold key_of; now rewrite Hk |]].
      f_equal. rewrite Hg.
      exact (whole_group_members events k b e0 Hgb Hk).
  - intros e0 He0.
    destruct (groupBy_grouping key_of events) as (_ & Hent & Hkey).
    specialize (Hkey e0 He0). apply in_map_iff in Hkey as ([k g] & Hk & Hin).
    cbn [fst] in Hk.
    destruct (group_defined events k g Hin) as (b & Hb & Hg & Hne).
    assert (He0g : In e0 g).
    { rewrite Hg. apply filter_In. split; [exact He0 | now apply String.eqb_eq]. }
    destruct (truthy (Bundle.groupBy b)) eqn:Hgb.
    + destruct (groupBy_grouping (subgroup_key (Bundle.groupBy b)) g) as (_ & Hent' & Hkey').
      specialize (Hkey' e0 He0g). apply in_map_iff in Hkey' as ([j gv] & Hj & Hjin).
      cbn [fst] in Hj. destruct (Hent' j gv Hjin) as [Hgv _].
      exists (section_of b k gv), b.
      split; [| split; [fold key_of; now rewrite <- Hk | split; [exact Hk |]]].
      * apply in_flat_map. exists (k, g). split; [exact Hin |].
        cbn [fst snd]. unfold sections_of_group. rewrite Hb, Hgb. cbn [negb].
        apply in_map_iff. now exists (j, gv).
      * cbn [section_of notifications]. f_equal. rewrite Hgv, Hg, Hj.
        exact (sub_group_members events k b e0 Hgb (eq_sym Hk)).
    + exists (section_of b k g), b.
      split; [| split; [fold key_of; now rewrite <- Hk | split; [exact Hk |]]].
      * apply in_flat_map. exists (k, g). split; [exact Hin |].
        cbn [fst snd]. unfold sections_of_group. rewrite Hb, Hgb. now left.
      * cbn [section_of notifications]. f_equal. rewrite Hg.
        exact (whole_group_members events k b e0 Hgb (eq_sym Hk)).
Qed.

(** C7 (as amended).  Over a table that defines every key the classifier
    returns, and for a group that occurs among the events: when its
    definition has a [groupBy] field, the sections flagged with its key
    are exactly one per distinct text of that field's value among the
    group's events (the property key the value converts to), each with
    the title resolved from the group's title template on the contents of
    the events of that text only, and with these contents in input order
    as its notifications; without [groupBy] there is exactly one section,
    resolved on and holding the contents of the whole group. *)
Theorem getSections_groups (events : list Event.t) (key : string) (b : Bundle.t) :
  bundle EVENT_BUNDLES key = Some b ->
  (exists e, In e events /\ getEventGroupKey EVENT_BUNDLES e = key) ->
  exists secs,
    getSections EVENT_BUNDLES events = Return secs
    /\ let mine := filter (fun s => flag s =? key) secs in
       let group := filter (fun e => getEventGroupKey EVENT_BUNDLES e =? key) events in
       let text e := text_at (data_data e) (to_string (Bundle.groupBy b)) in
       let built (part : list Event.t) :=
         {| title := replacePlaceholders (Bundle.title b) (map data_data part);
            flag := key;
            notifications := map data_data part |} in
       if truthy (Bundle.groupBy b) then
         exists texts : list string,
           NoDup texts
           /\ (forall t, In t texts <-> exists e, In e group /\ text e = t)
           /\ mine = map (fun t => built (filter (fun e => text e =? t) group)) texts
       else mine = [built group].
Proof.
  intros Hb (e & He & Hk).
  eexists. split; [apply getSections_blocks |].
  destruct (groupBy_grouping key_of events) as (Hnd & Hent & Hkey).
  specialize (Hkey e He). fold key_of in Hk. rewrite Hk in Hkey.
  apply in_map_iff in Hkey as ([k g] & E & Hin). simpl in E. subst k.
  destruct (Hent key g Hin) as [Hg _].
  cbv zeta. unfold groups. rewrite (sections_flagged _ key g Hnd Hin).
  change (filter (fun e0 => getEventGroupKey EVENT_BUNDLES e0 =? key) events)
    with (Lodash.members_of key_of events key).
  rewrite <- Hg. unfold sections_of_group. rewrite Hb.
  destruct (truthy (Bundle.groupBy b)); simpl; [| reflexivity].
  destruct (groupBy_grouping (subgroup_key (Bundle.groupBy b)) g) as (Hnd' & Hent' & Hkey').
  exists (map fst (Lodash.groupBy (subgroup_key (Bundle.groupBy b)) g)).
  split; [exact Hnd' | split].
  - intros t. split.
    + intros Ht. apply in_map_iff in Ht as ([j part] & <- & Hp). cbn [fst].
      destruct (Hent' j part Hp) as [Hpart Hne].
      destruct (nonempty_member part Hne) as [e1 He1]. rewrite Hpart in He1.
      apply filter_In in He1 as [He1 Ht]. apply String.eqb_eq in Ht.
      now exists e1.
    + intros (e1 & He1 & <-). exact (Hkey' e1 He1).
  - rewrite map_map. apply map_ext_in. intros [j part] Hp. cbn [fst snd].
    destruct (Hent' j part Hp) as [-> _]. reflexivity.
Qed.
End SectionBuilder.

Lemma sample_groups_defined :
  forall e, bundle sample_bundles (getEventGroupKey sample_bundles e) <> None.
Proof. apply default_groups_defined. intros H. discriminate H. Qed.

Lemma getSections_partition_witness :
  exists secs,
    getSections sample_bundles sample_events = Return secs
    /\ Permutation (concat (map notifications secs)) (map data_data sample_events)
    /\ map (fun s => (flag s, List.length (notifications s))) secs
       = [("TOPICS_AND_POSTS", 1); ("TOPICS_AND_POSTS", 2); ("DEFAULT", 1);
          ("PROJECT_STATUS", 1)]
    /\ Forall (fun s =>
         exists e0 b,
           In e0 sample_events
           /\ bundle sample_bundles (getEventGroupKey sample_bundles e0) = Some b
           /\ flag s = getEventGroupKey sample_bundles e0
           /\ notifications s
              = map data_data
                  (filter (fun e =>
                     (getEventGroupKey sample_bundles e =? getEventGroupKey sample_bundles e0)
                     && (if truthy (Bundle.groupBy b)
                         then text_at (data_data e) (to_string (Bundle.groupBy b))
                              =? text_at (data_data e0) (to_string (Bundle.groupBy b))
                         else true))
                     sample_events)) secs.
Proof.
  destruct (getSections_partition sample_bundles sample_groups_defined sample_events)
    as (secs & Hs & Hp & Hc & _).
  exists secs. split; [exact Hs | split; [exact Hp | split; [| exact Hc]]].
  vm_compute in Hs. injection Hs as <-. reflexivity.
Defined.

(** C6 (as stated) fails: an event without [topicId] and an event whose
    [topicId] is the string ["undefined"] have different sub-group values
    and yet sit in one section. *)
Lemma getSections_values_share_section :
  let e1 := sample_event 1 [("type", VStr "topic.created")] in
  let e2 := sample_event 1 [("type", VStr "topic.created"); ("topicId", VStr "undefined")] in
  lookup (data_data e1) "topicId" = VUndefined
  /\ lookup (data_data e2) "topicId" = VStr "undefined"
  /\ bundle sample_bundles (getEventGroupKey sample_bundles e1)
     = bundle sample_bundles "TOPICS_AND_POSTS"
  /\ getSections sample_bundles [e1; e2]
     = Return [ {| title := ",  posted";
                   flag := "TOPICS_AND_POSTS";
                   notifications := [data_data e1; data_data e2] |} ].
Proof. repeat split. Qed.

Lemma getSections_groups_witness :
  exists secs,
    getSections sample_bundles sample_events = Return secs
    /\ map title (filter (fun s => flag s =? "TOPICS_AND_POSTS") secs)
       = ["Bob posted"; "Ann, Cy posted"]
    /\ exists texts,
         NoDup texts
         /\ (forall t, In t texts
               <-> exists e,
                     In e (filter (fun e => getEventGroupKey sample_bundles e
                                            =? "TOPICS_AND_POSTS") sample_events)
                     /\ text_at (data_data e) "topicId" = t)
         /\ List.length (filter (fun s => flag s =? "TOPICS_AND_POSTS") secs)
            = List.length texts.
Proof.
  destruct (getSections_groups sample_bundles sample_groups_defined sample_events
              "TOPICS_AND_POSTS" _ eq_refl) as (secs & Hs & texts & Hnd & Ht & Hm).
  { eexists. split; [left; reflexivity | reflexivity]. }
  exists secs. split; [exact Hs | split].
  - vm_compute in Hs. injection Hs as <-. reflexivity.
  - exists texts. split; [exact Hnd | split; [exact Ht |]].
    rewrite Hm. apply length_map.
Defined.

(** C7 (as stated) fails: the number [9] and the string ["9"] are two
    distinct values of the [groupBy] field [topicId], and the two events
    that hold them get one section together, not one each. *)
Lemma getSections_values_merged :
  let e1 := sample_event 1 [("type", VStr "topic.created"); ("topicId", VNum 9)] in
  let e2 := sample_event 1 [("type", VStr "topic.created"); ("topicId", VStr "9")] in
  lookup (data_data e1) "topicId" <> lookup (data_data e2) "topicId"
  /\ Bundle.groupBy
       (match bundle sample_bundles (getEventGroupKey sample_bundles e1) with
        | Some b => b
        | None => {| Bundle.title := ""; Bundle.subject := "";
                     Bundle.groupBy := VUndefined; Bundle.types := [] |}
        end) = VStr "topicId"
  /\ exists s,
       getSections sample_bundles [e1; e2] = Return [s]
       /\ notifications s = [data_data e1; data_data e2].
Proof.
  split; [discriminate | split; [reflexivity |]].
  eexists. split; reflexivity.
Qed.

(** ** Due-event batch processor *)

Lemma settle_outcome userEvents (r : response unit) :
  statuses (fst (settle userEvents r))
  = [(userEvents, match r with Resolved _ => COMPLETED | Rejected => FAILED end)]
  /\ snd (settle userEvents r) = Return tt.
Proof. destruct r as [[]|]; split; reflexivity. Qed.

Lemma mapValues_total {A B} (callback : A -> outcome B) (o : list (string * A)) :
  (forall k v, In (k, v) o -> exists b, callback v = Return b) ->
  exists r, mapValues callback o = Return r.
Proof.
  induction o as [|[k v] o IH]; simpl; intros H; [now eexists |].
  destruct (H k v) as [b ->]; [now left |].
  destruct IH as [r ->]; [| now eexists].
  intros k' v' Hin. apply (H k' v'). now right.
Qed.

Section Batch.
Variable config : Config.t.
Variable constants : Constants.t.
Variable EVENT_BUNDLES : list (string * Bundle.t).
Variable now : string.
Variable postEvent : busEvent -> response unit.

Hypothesis groups_defined :
  forall e, bundle EVENT_BUNDLES (getEventGroupKey EVENT_BUNDLES e) <> None.

Let event_for := user_event config constants EVENT_BUNDLES now.
Let loop := forEach_user config constants EVENT_BUNDLES now postEvent.

Lemma user_event_total userEvents :
  userEvents <> [] -> exists e, event_for userEvents = Return e.
Proof.
  intros Hne. unfold event_for, user_event.
  destruct (mapValues_total (project_of EVENT_BUNDLES)
              (Lodash.groupBy project_key userEvents)) as [r ->].
  - intros k v _. unfold project_of.
    rewrite (getSections_blocks EVENT_BUNDLES groups_defined). now eexists.
  - destruct userEvents; [congruence | now eexists].
Qed.

Lemma forEach_user_total (groups : list (list Event.t)) :
  Forall (fun g => g <> []) groups ->
  let run := loop groups in
  thrown run = None
  /\ List.length (sent run) = List.length groups
  /\ settled run
     = map (fun p => settle (fst p) (postEvent (snd p))) (combine groups (sent run)).
Proof.
  induction 1 as [|g groups Hg _ IH]; simpl.
  - repeat split.
  - destruct (user_event_total g Hg) as [e He].
    unfold event_for in He. rewrite He. simpl.
    destruct IH as (Ht & Hl & Hs). repeat split.
    + exact Ht.
    + now f_equal.
    + now f_equal.
Qed.

(** C3.  Over a table that defines every key the classifier returns: the
    batch processor throws nothing; it posts one bus event per user; each
    post is followed by one status call, on all of that user's events, with
    [COMPLETED] when the post was accepted and [FAILED] when it was
    rejected; the promise chain of every post is fulfilled, so that a
    rejection of the bus is never passed on. *)
Theorem handleScheduledEvents_batch_atomic (events : list Event.t) :
  let run := handleScheduledEvents config constants EVENT_BUNDLES now postEvent events in
  let users := Lodash.groupBy user_key events in
  thrown run = None
  /\ List.length (sent run) = List.length users
  /\ map (fun chain => (statuses (fst chain), snd chain)) (settled run)
     = map (fun p =>
              ([(fst p, match postEvent (snd p) with
                        | Resolved _ => COMPLETED
                        | Rejected => FAILED
                        end)],
               Return tt))
           (combine (map snd users) (sent run))
  /\ NoDup (map fst users)
  /\ (forall k userEvents, In (k, userEvents) users ->
        userEvents <> [] /\ userEvents = filter (fun e => user_key e =? k) events)
  /\ (forall e, In e events -> In (user_key e) (map fst users)).
Proof.
  intros run users.
  destruct (groupBy_grouping user_key events) as (Hnd & Hent & Hkey).
  fold users in Hnd, Hent, Hkey.
  assert (Hgroups : Forall (fun g => g <> []) (map snd users)).
  { apply Forall_forall. intros g Hg. apply in_map_iff in Hg as ([k g'] & <- & Hin).
    now apply Hent in Hin. }
  assert (Hrun : run = loop (map snd users)).
  { unfold run, handleScheduledEvents. now destruct events. }
  destruct (forEach_user_total _ Hgroups) as (Ht & Hl & Hs).
  rewrite <- Hrun in Ht, Hl, Hs.
  split; [exact Ht | split; [now rewrite Hl, length_map | split]].
  - rewrite Hs, map_map. apply map_ext. intros [g e]. simpl.
    now destruct (settle_outcome g (postEvent e)) as [-> ->].
  - split; [exact Hnd | split; [| exact Hkey]].
    intros k g Hin. destruct (Hent k g Hin) as [-> Hne]. now split.
Qed.
End Batch.

(** ** The handler *)

Lemma posted_app a b : posted (a ++ b) = posted a ++ posted b.
Proof. unfold posted. now rewrite flat_map_app. Qed.

Lemma scheduled_app a b : scheduled (a ++ b) = scheduled a ++ scheduled b.
Proof. unfold scheduled. now rewrite flat_map_app. Qed.

Lemma logged_app l a b : logged l (a ++ b) = logged l a ++ logged l b.
Proof. unfold logged. now rewrite flat_map_app. Qed.

Section Handler.
Variable config : Config.t.
Variable constants : Constants.t.
Variable EVENT_BUNDLES : list (string * Bundle.t).
Variable markdownToHTML : value -> value.
Variable sanitizeEmail : value -> value.
Variable parseInt : value -> value.
Variable toLowerCase : string -> string.
Variable jwt_signature : obj -> string -> value.
Variable now : string.
Variable getSettings : value -> response value.
Variable getUsersById : list value -> response (list User.t).
Variable postEvent : busEvent -> response unit.

Let run := handler config constants EVENT_BUNDLES markdownToHTML sanitizeEmail
             parseInt toLowerCase jwt_signature now getSettings getUsersById postEvent.
Let deliver_ := deliver config constants EVENT_BUNDLES now postEvent.

Variable topicName : string.
Variable messageJSON : MessageJSON.t.
Variable notification : Notification.t.

Let notificationType := or_else (Notification.newType notification) (VStr topicName).

Lemma topics_and_posts_run tp user d :
  bundle EVENT_BUNDLES "TOPICS_AND_POSTS" = Some tp ->
  exists t d',
    topics_and_posts config constants EVENT_BUNDLES markdownToHTML sanitizeEmail
      parseInt jwt_signature notificationType messageJSON notification user d
    = (t, Return d')
    /\ quiet t
    /\ messagingEvent d'
       = (Lodash.includes (Bundle.types tp) notificationType || messagingEvent d)
    /\ Message.recipients (eventMessage d') = Message.recipients (eventMessage d).
Proof.
  intros Htp. unfold topics_and_posts. rewrite Htp.
  destruct (Lodash.includes (Bundle.types tp) notificationType).
  - do 2 eexists. split; [reflexivity |]. split; [now repeat split |].
    split; [reflexivity |].
    cbn [eventMessage Message.recipients].
    destruct (truthy (MessageJSON.postContent messageJSON)); reflexivity.
  - exists [], d. now repeat split.
Qed.

(** What every run that gets past the settings and the user lookup does:
    a prefix that posts and schedules nothing, then [deliver] on the
    draft with the resolved bundling flag and period. *)
Lemma handler_run settings s user others tp :
  getSettings (Notification.userId notification) = Resolved settings ->
  type_settings settings notificationType = Return s ->
  disabled constants s = false ->
  getUsersById [Notification.userId notification] = Resolved (user :: others) ->
  bundle EVENT_BUNDLES "TOPICS_AND_POSTS" = Some tp ->
  exists pre d,
    let messaging := Lodash.includes (Bundle.types tp) notificationType in
    let b := bundling constants settings notificationType messaging in
    run topicName messageJSON notification
    = (pre ++ fst (deliver_ notification d (fst b) (snd b)),
       snd (deliver_ notification d (fst b) (snd b)))
    /\ posted pre = [] /\ scheduled pre = []
    /\ logged error_level pre
       = (if truthy (User.email user) then []
          else [("Email not received for user: " ++ to_string (User.id user))%string])
    /\ Message.recipients (eventMessage d)
       = [if is_string (Config.ENABLE_DEV_MODE config) "true"
          then Config.DEV_MODE_EMAIL config else User.email user].
Proof.
  intros Hs Ht Hd Hu Htp.
  set (recipients := [if is_string (Config.ENABLE_DEV_MODE config) "true"
                      then Config.DEV_MODE_EMAIL config else User.email user]).
  destruct (topics_and_posts_run tp user
              (compose config constants toLowerCase now notificationType
                 messageJSON notification user recipients) Htp)
    as (t & d' & Hrun & (Hp & Hsch & Hlog) & Hm & Hr).
  cbn [compose messagingEvent] in Hm. rewrite orb_false_r in Hm.
  exists ([Log debug "got users"]
          ++ (if truthy (User.email user) then []
              else [Log error_level
                      ("Email not received for user: " ++ to_string (User.id user))%string])
          ++ t ++ [Log debug "bundlingEnabled=>"; Log debug "bundlePeriod=>"]),
         (file_name messageJSON d').
  cbv zeta. split; [| split; [| split; [| split]]].
  - unfold run, handler. fold notificationType.
    rewrite Hs. cbn [await bind ret_]. rewrite Ht. cbn [lift bind]. rewrite Hd.
    rewrite Hu. cbn [await bind ret_ emit].
    fold recipients. rewrite Hrun.
    assert (Hf : messagingEvent (file_name messageJSON d')
                 = Lodash.includes (Bundle.types tp) notificationType).
    { rewrite <- Hm. unfold file_name.
      now destruct (truthy (MessageJSON.fileName messageJSON)). }
    cbn [bind]. rewrite Hf.
    destruct (bundling constants settings notificationType
                (Lodash.includes (Bundle.types tp) notificationType)) as [be bp].
    cbn [fst snd]. fold deliver_.
    destruct (deliver_ notification (file_name messageJSON d') be bp) as [td od].
    destruct (truthy (User.email user)); cbn [negb bind ret_ emit app fst snd];
      now rewrite <- ?app_assoc.
  - rewrite !posted_app, Hp. now destruct (truthy (User.email user)).
  - rewrite !scheduled_app, Hsch. now destruct (truthy (User.email user)).
  - rewrite !logged_app, Hlog. destruct (truthy (User.email user)); reflexivity.
  - unfold file_name.
    destruct (truthy (MessageJSON.fileName messageJSON)); cbn [eventMessage set_data with_data Message.recipients];
      rewrite Hr; reflexivity.
Qed.
Lemma deliver_schedules d be bp :
  is_string be "yes" && truthy bp = true ->
  recognized constants bp = true ->
  deliver_ notification d be bp
  = ([AddEvent {| Event.data := eventMessage d;
                  Event.period := bp;
                  Event.userId := Notification.userId notification;
                  Event.eventType := VStr (Constants.BUS_API_EVENT_EMAIL_GENERAL constants);
                  Event.reference := reference d;
                  Event.referenceId := referenceId d |}],
     Return tt).
Proof.
  intros H1 H2. unfold deliver_, deliver. now rewrite H1, H2.
Qed.


Lemma wrapIndividualNotification_total data :
  (forall e, bundle EVENT_BUNDLES (getEventGroupKey EVENT_BUNDLES e) <> None) ->
  exists b, wrapIndividualNotification config EVENT_BUNDLES data = Return b.
Proof.
  intros Hdef. unfold wrapIndividualNotification.
  destruct (bundle EVENT_BUNDLES (getEventGroupKey EVENT_BUNDLES data)) eqn:E;
    [| now apply Hdef in E].
  rewrite (getSections_blocks EVENT_BUNDLES Hdef). now eexists.
Qed.

Lemma deliver_posts d be bp :
  (forall e, bundle EVENT_BUNDLES (getEventGroupKey EVENT_BUNDLES e) <> None) ->
  is_string be "yes" && truthy bp = false ->
  exists e,
    Message.recipients (payload e) = Message.recipients (eventMessage d)
    /\ posted (fst (deliver_ notification d be bp)) = [e]
    /\ scheduled (fst (deliver_ notification d be bp)) = []
    /\ logged error_level (fst (deliver_ notification d be bp)) = []
    /\ snd (deliver_ notification d be bp)
       = match postEvent e with
         | Resolved _ => Return tt
         | Rejected => Throw Rejection
         end.
Proof.
  intros Hdef H. unfold deliver_, deliver. rewrite H.
  destruct (wrapIndividualNotification_total (wrap (eventMessage d)) Hdef) as [b ->].
  cbn [lift bind emit app fst snd].
  exists {| topic := Constants.BUS_API_EVENT_EMAIL_GENERAL constants;
            originator := "tc-notifications";
            timestamp := now;
            mime_type := "application/json";
            payload := with_data (eventMessage d) b |}.
  split; [reflexivity |].
  destruct (postEvent _) as [[]|]; now repeat split.
Qed.

(** C10.  When the fetched settings hold [enabled = 'no'] for the email
    service under the notification type, the handler returns without
    posting a bus event and without adding a scheduled event. *)
Theorem handler_disabled_no_effect (settings : value) :
  getSettings (Notification.userId notification) = Resolved settings ->
  Lodash.get settings
    ["notifications"; to_string notificationType;
     Constants.SETTINGS_EMAIL_SERVICE_ID constants; "enabled"] = VStr "no" ->
  posted (fst (run topicName messageJSON notification)) = []
  /\ scheduled (fst (run topicName messageJSON notification)) = []
  /\ snd (run topicName messageJSON notification) = Return tt.
Proof.
  intros Hs Hno. unfold run, handler. fold notificationType. rewrite Hs.
  cbn [await bind ret_]. unfold type_settings.
  destruct settings as [| | | | | |o]; try discriminate Hno. cbn [Lodash.get member] in *.
  destruct (lookup o "notifications") as [| | | | | |n]; try discriminate Hno.
  cbn [member].
  destruct (lookup n (to_string notificationType)) as [| | | | | |t] eqn:Et;
    try discriminate Hno.
  cbn [lift bind]. unfold disabled, prop. cbn [truthy member andb].
  destruct (lookup t (Constants.SETTINGS_EMAIL_SERVICE_ID constants)) as [| | | | | |sv];
    try discriminate Hno.
  cbn [truthy member andb]. rewrite Hno. cbn. now repeat split.
Qed.

(** C4.  With the bundling-enabled setting unset: a non-messaging event
    with no bundle period set resolves to bundling ['yes'] with period
    ['daily'] and is scheduled, not posted; a messaging event never
    resolves to bundling and is posted at once. *)
Theorem handler_default_bundling settings s user others tp :
  getSettings (Notification.userId notification) = Resolved settings ->
  type_settings settings notificationType = Return s ->
  disabled constants s = false ->
  getUsersById [Notification.userId notification] = Resolved (user :: others) ->
  bundle EVENT_BUNDLES "TOPICS_AND_POSTS" = Some tp ->
  truthy (Lodash.get settings
            ["notifications"; to_string notificationType;
             Constants.SETTINGS_EMAIL_BUNDLING_SERVICE_ID constants; "enabled"]) = false ->
  let r := run topicName messageJSON notification in
  let messaging := Lodash.includes (Bundle.types tp) notificationType in
  let b := bundling constants settings notificationType messaging in
  (messaging = false ->
   truthy (Lodash.get settings
             ["services"; Constants.SETTINGS_EMAIL_SERVICE_ID constants; "bundlePeriod"])
   = false ->
   recognized constants (VStr "daily") = true ->
   b = (VStr "yes", VStr "daily")
   /\ (exists e, scheduled (fst r) = [e] /\ Event.period e = VStr "daily")
   /\ posted (fst r) = []
   /\ snd r = Return tt)
  /\ (messaging = true ->
      (forall e, bundle EVENT_BUNDLES (getEventGroupKey EVENT_BUNDLES e) <> None) ->
      is_string (fst b) "yes" = false
      /\ scheduled (fst r) = []
      /\ exists e, posted (fst r) = [e]).
Proof.
  intros Hs Ht Hd Hu Htp Hunset r messaging b.
  destruct (handler_run settings s user others tp Hs Ht Hd Hu Htp)
    as (pre & d & Hrun & Hp & Hsch & _ & _).
  cbv zeta in Hrun. fold messaging b r in Hrun.
  split.
  - intros Hm Hperiod Hdaily.
    assert (Hb : b = (VStr "yes", VStr "daily")).
    { unfold b, bundling. now rewrite Hunset, Hm, Hperiod. }
    rewrite Hb in Hrun. cbn [fst snd] in Hrun.
    rewrite deliver_schedules in Hrun by (reflexivity || exact Hdaily).
    rewrite Hrun. cbn [fst snd].
    rewrite scheduled_app, posted_app, Hsch, Hp.
    split; [exact Hb | split; [| now split]].
    eexists. split; reflexivity.
  - intros Hm Hdef.
    assert (Hb : is_string (fst b) "yes" = false).
    { unfold b, bundling. rewrite Hunset, Hm. cbn [negb andb fst].
      destruct (Lodash.get settings _) as [| |[]|n| |str|o];
        try reflexivity; try discriminate Hunset.
      cbn in Hunset |- *. destruct (String.eqb_spec str ""); [now subst | discriminate]. }
    destruct (deliver_posts d (fst b) (snd b) Hdef) as (e & _ & He & Hse & _).
    { now rewrite Hb. }
    rewrite Hrun. cbn [fst snd].
    rewrite scheduled_app, posted_app, Hsch, Hp, He, Hse.
    split; [exact Hb | split; [reflexivity | now exists e]].
Qed.


(** C9.  On the immediate-send path a user without email does not stop
    the handler: the missing email is logged as an error and the event is
    posted, to the development address when development mode is on and
    to the absent address otherwise; the outcome is the bus's answer. *)
Theorem handler_missing_email settings s user others tp :
  getSettings (Notification.userId notification) = Resolved settings ->
  type_settings settings notificationType = Return s ->
  disabled constants s = false ->
  getUsersById [Notification.userId notification] = Resolved (user :: others) ->
  bundle EVENT_BUNDLES "TOPICS_AND_POSTS" = Some tp ->
  (forall e, bundle EVENT_BUNDLES (getEventGroupKey EVENT_BUNDLES e) <> None) ->
  truthy (User.email user) = false ->
  let r := run topicName messageJSON notification in
  let b := bundling constants settings notificationType
             (Lodash.includes (Bundle.types tp) notificationType) in
  is_string (fst b) "yes" && truthy (snd b) = false ->
  logged error_level (fst r)
  = [("Email not received for user: " ++ to_string (User.id user))%string]
  /\ scheduled (fst r) = []
  /\ exists e,
       posted (fst r) = [e]
       /\ Message.recipients (payload e)
          = [if is_string (Config.ENABLE_DEV_MODE config) "true"
             then Config.DEV_MODE_EMAIL config else User.email user]
       /\ snd r = match postEvent e with
                  | Resolved _ => Return tt
                  | Rejected => Throw Rejection
                  end.
Proof.
  intros Hs Ht Hd Hu Htp Hdef Hemail r b Himm.
  destruct (handler_run settings s user others tp Hs Ht Hd Hu Htp)
    as (pre & d & Hrun & Hp & Hsch & Hlog & Hrec).
  cbv zeta in Hrun. fold b r in Hrun. rewrite Hemail in Hlog.
  destruct (deliver_posts d (fst b) (snd b) Hdef Himm) as (e & Hre & He & Hse & Hle & Ho).
  rewrite Hrun. cbn [fst snd].
  rewrite logged_app, scheduled_app, posted_app, Hlog, Hsch, Hp, He, Hse, Hle.
  split; [reflexivity | split; [reflexivity |]].
  exists e. split; [reflexivity | split; [| exact Ho]].
  now rewrite Hre, Hrec.
Qed.
End Handler.

(** ** The theorems at the sample configuration *)

Example sample_disabled :
  sample_handler "false"
    (sample_settings "project.created" [("email", VObj [("enabled", VStr "no")])] [])
    (sample_user (VStr "ann@example.com")) (Resolved tt) "project.created"
  = ([Log verbose "Notification 'project.created' won't be sent by 'email' service to the userId '40' due to his notification settings."],
     Return tt).
Proof. reflexivity. Qed.

Lemma handleScheduledEvents_batch_atomic_witness :
  let run := handleScheduledEvents (sample_config "false") sample_constants sample_bundles
               sample_now (fun _ => Rejected) sample_due in
  thrown run = None
  /\ List.length (sent run) = 2
  /\ map (fun chain => (map snd (statuses (fst chain)), snd chain)) (settled run)
     = [([FAILED], Return tt); ([FAILED], Return tt)].
Proof.
  intros run.
  destruct (handleScheduledEvents_batch_atomic (sample_config "false") sample_constants
              sample_bundles sample_now (fun _ => Rejected) sample_groups_defined sample_due)
    as (Ht & Hl & _).
  split; [exact Ht | split; [exact Hl | reflexivity]].
Defined.

Lemma handler_disabled_no_effect_witness :
  let r := sample_handler "false"
             (sample_settings "project.created" [("email", VObj [("enabled", VStr "no")])] [])
             (sample_user (VStr "ann@example.com")) (Resolved tt) "project.created" in
  posted (fst r) = [] /\ scheduled (fst r) = [] /\ snd r = Return tt.
Proof.
  exact (handler_disabled_no_effect (sample_config "false") sample_constants sample_bundles
           (fun v => v) (fun v => v) sample_parseInt (fun s => s) (fun _ _ => VStr "sig")
           sample_now
           (fun _ => Resolved (sample_settings "project.created"
                                 [("email", VObj [("enabled", VStr "no")])] []))
           (fun _ => Resolved [sample_user (VStr "ann@example.com")])
           (fun _ => Resolved tt)
           "project.created" sample_json sample_notification _ eq_refl eq_refl).
Defined.

Lemma handler_default_bundling_witness :
  (exists e,
     scheduled (fst (sample_handler "false" (sample_settings "project.created" [] [])
                       (sample_user (VStr "ann@example.com")) (Resolved tt)
                       "project.created")) = [e]
     /\ Event.period e = VStr "daily")
  /\ (exists e,
        posted (fst (sample_handler "false" (sample_settings "post.created" [] [])
                       (sample_user (VStr "ann@example.com")) (Resolved tt)
                       "post.created")) = [e]).
Proof.
  split.
  - destruct (handler_default_bundling (sample_config "false") sample_constants sample_bundles
                (fun v => v) (fun v => v) sample_parseInt (fun s => s) (fun _ _ => VStr "sig")
                sample_now (fun _ => Resolved (sample_settings "project.created" [] []))
                (fun _ => Resolved [sample_user (VStr "ann@example.com")])
                (fun _ => Resolved tt)
                "project.created" sample_json sample_notification
                _ (VObj []) _ [] _ eq_refl eq_refl eq_refl eq_refl eq_refl eq_refl)
      as [H _].
    destruct (H eq_refl eq_refl eq_refl) as (_ & He & _). exact He.
  - destruct (handler_default_bundling (sample_config "false") sample_constants sample_bundles
                (fun v => v) (fun v => v) sample_parseInt (fun s => s) (fun _ _ => VStr "sig")
                sample_now (fun _ => Resolved (sample_settings "post.created" [] []))
                (fun _ => Resolved [sample_user (VStr "ann@example.com")])
                (fun _ => Resolved tt)
                "post.created" sample_json sample_notification
                _ (VObj []) _ [] _ eq_refl eq_refl eq_refl eq_refl eq_refl eq_refl)
      as [_ H].
    destruct (H eq_refl sample_groups_defined) as (_ & _ & He). exact He.
Defined.



Lemma handler_missing_email_witness :
  (exists e,
     posted (fst (sample_handler "false" (sample_settings "post.created" [] [])
                    (sample_user VUndefined) Rejected "post.created")) = [e]
     /\ Message.recipients (payload e) = [VUndefined]
     /\ snd (sample_handler "false" (sample_settings "post.created" [] [])
               (sample_user VUndefined) Rejected "post.created") = Throw Rejection)
  /\ (exists e,
        posted (fst (sample_handler "true" (sample_settings "post.created" [] [])
                       (sample_user VUndefined) (Resolved tt) "post.created")) = [e]
        /\ Message.recipients (payload e) = [VStr "dev@example.com"]
        /\ snd (sample_handler "true" (sample_settings "post.created" [] [])
                  (sample_user VUndefined) (Resolved tt) "post.created") = Return tt).
Proof.
  split.
  - destruct (handler_missing_email (sample_config "false") sample_constants sample_bundles
                (fun v => v) (fun v => v) sample_parseInt (fun s => s) (fun _ _ => VStr "sig")
                sample_now (fun _ => Resolved (sample_settings "post.created" [] []))
                (fun _ => Resolved [sample_user VUndefined]) (fun _ => Rejected)
                "post.created" sample_json sample_notification
                _ (VObj []) _ [] _ eq_refl eq_refl eq_refl eq_refl eq_refl
                sample_groups_defined eq_refl eq_refl)
      as (_ & _ & e & He & Hr & Ho).
    exists e. split; [exact He | split; [exact Hr | exact Ho]].
  - destruct (handler_missing_email (sample_config "true") sample_constants sample_bundles
                (fun v => v) (fun v => v) sample_parseInt (fun s => s) (fun _ _ => VStr "sig")
                sample_now (fun _ => Resolved (sample_settings "post.created" [] []))
                (fun _ => Resolved [sample_user VUndefined]) (fun _ => Resolved tt)
                "post.created" sample_json sample_notification
                _ (VObj []) _ [] _ eq_refl eq_refl eq_refl eq_refl eq_refl
                sample_groups_defined eq_refl eq_refl)
      as (_ & _ & e & He & Hr & Ho).
    exists e. split; [exact He | split; [exact Hr | exact Ho]].
Defined.

(* ================================================================== *)
(** * Further properties of the service                                *)
(* ================================================================== *)

(** ** Errors and edges of the section builder *)

Lemma forIn_throw_inv {A B} (o : list (string * A))
  (callback : A -> string -> outcome (list B)) err :
  forIn o callback = Throw err ->
  exists k v, In (k, v) o /\ callback v k = Throw err.
Proof.
  induction o as [|[k v] o IH]; simpl; [discriminate |].
  destruct (callback v k) as [pushed|e] eqn:E.
  - destruct (forIn o callback) as [more|e']; [discriminate |].
    intros H. injection H as ->. destruct (IH eq_refl) as (k' & v' & Hin & Hc).
    exists k', v'. split; [now right | exact Hc].
  - intros H. injection H as ->. exists k, v. split; [now left | exact E].
Qed.

Lemma forIn_type_error {A B} (o : list (string * A))
  (callback : A -> string -> outcome (list B)) :
  (forall k v, In (k, v) o ->
     callback v k = Throw TypeError \/ exists r, callback v k = Return r) ->
  (exists k v, In (k, v) o /\ callback v k = Throw TypeError) ->
  forIn o callback = Throw TypeError.
Proof.
  induction o as [|[k v] o IH]; simpl; intros Hall (k' & v' & Hin & Hc);
    [contradiction |].
  destruct (Hall k v (or_introl eq_refl)) as [->|[r Hr]]; [reflexivity |].
  rewrite Hr. rewrite IH; [reflexivity | |].
  - intros k0 v0 H0. apply Hall. now right.
  - destruct Hin as [E|Hin].
    + injection E as -> ->. congruence.
    + exists k', v'. now split.
Qed.

Lemma groupBy_singleton {A} (f : A -> string) (x : A) :
  Lodash.groupBy f [x] = [(f x, [x])].
Proof.
  unfold Lodash.groupBy, Lodash.grouped, own_order, name_entries. simpl.
  now destruct (array_index (f x)).
Qed.

Lemma nonempty_concat {A} (l : list (list A)) :
  Forall (fun x => x <> []) l -> List.length l <= List.length (concat l).
Proof.
  induction 1 as [|x l Hx _ IH]; simpl; [lia |].
  rewrite length_app. destruct x; [congruence | simpl; lia].
Qed.

Section SectionBuilderEdges.
Variable EVENT_BUNDLES : list (string * Bundle.t).

Let key_of := getEventGroupKey EVENT_BUNDLES.

(** The callback of the outer [forIn] either throws a [TypeError], when
    the group is not defined, or pushes the group's sections. *)
Lemma group_callback k (g : list Event.t) :
  match bundle EVENT_BUNDLES k with
  | None => Throw TypeError
  | Some b =>
      if negb (truthy (Bundle.groupBy b)) then
        Return [ {| title := replacePlaceholders (Bundle.title b) (map data_data g);
                    flag := k;
                    notifications := map data_data g |} ]
      else
        forIn (Lodash.groupBy (subgroup_key (Bundle.groupBy b)) g)
          (fun groupValue (_ : string) =>
             let title := Bundle.title b in
             let title := replacePlaceholders title (map data_data groupValue) in
             Return [ {| title := title;
                         flag := k;
                         notifications := map data_data groupValue |} ])
  end
  = match bundle EVENT_BUNDLES k with
    | None => Throw TypeError
    | Some _ => Return (sections_of_group EVENT_BUNDLES k g)
    end.
Proof.
  unfold sections_of_group. destruct (bundle EVENT_BUNDLES k) as [b|]; [| reflexivity].
  destruct (negb (truthy (Bundle.groupBy b))); [reflexivity |].
  apply (forIn_push _ (section_of b k)).
Qed.

Lemma group_member events k g :
  In (k, g) (Lodash.groupBy key_of events) ->
  g <> [] /\ forall e, In e g -> In e events /\ key_of e = k.
Proof.
  intros Hin. destruct (groupBy_grouping key_of events) as (_ & Hent & _).
  destruct (Hent k g Hin) as [Hg Hne]. split; [exact Hne |].
  intros e He. rewrite Hg in He. apply filter_In in He as [He Hk].
  now apply String.eqb_eq in Hk.
Qed.

Lemma getSections_returns events :
  (forall e, In e events -> bundle EVENT_BUNDLES (key_of e) <> None) ->
  getSections EVENT_BUNDLES events
  = Return (flat_map (fun p => sections_of_group EVENT_BUNDLES (fst p) (snd p))
                     (Lodash.groupBy key_of events)).
Proof.
  intros Hdef. unfold getSections. apply forIn_blocks. intros k g Hin.
  rewrite group_callback.
  destruct (group_member events k g Hin) as [Hne Hmem].
  destruct (nonempty_member g Hne) as [e He]. destruct (Hmem e He) as [Hev Hk].
  specialize (Hdef e Hev). rewrite Hk in Hdef.
  now destruct (bundle EVENT_BUNDLES k).
Qed.

Lemma getSections_throw_inv events err :
  getSections EVENT_BUNDLES events = Throw err ->
  err = TypeError
  /\ exists e, In e events /\ bundle EVENT_BUNDLES (key_of e) = None.
Proof.
  intros H. unfold getSections in H.
  apply forIn_throw_inv in H as (k & g & Hin & Hc).
  rewrite group_callback in Hc.
  destruct (bundle EVENT_BUNDLES k) eqn:Hb; [discriminate |].
  injection Hc as <-. split; [reflexivity |].
  destruct (group_member events k g Hin) as [Hne Hmem].
  destruct (nonempty_member g Hne) as [e He]. destruct (Hmem e He) as [Hev Hk].
  exists e. split; [exact Hev | now rewrite Hk].
Qed.

Lemma getSections_undefined_throws events e :
  In e events -> bundle EVENT_BUNDLES (key_of e) = None ->
  getSections EVENT_BUNDLES events = Throw TypeError.
Proof.
  intros He Hb. unfold getSections. apply forIn_type_error.
  - intros k g _. rewrite group_callback.
    destruct (bundle EVENT_BUNDLES k); [right; now eexists | now left].
  - destruct (groupBy_grouping key_of events) as (_ & _ & Hkey).
    specialize (Hkey e He). apply in_map_iff in Hkey as ([k g] & Hk & Hin).
    simpl in Hk. exists k, g. split; [exact Hin |].
    rewrite group_callback. rewrite <- Hk in Hb. now rewrite Hb.
Qed.

Lemma getSections_return_defined events secs :
  getSections EVENT_BUNDLES events = Return secs ->
  forall e, In e events -> bundle EVENT_BUNDLES (key_of e) <> None.
Proof.
  intros H e He Hb. rewrite (getSections_undefined_throws events e He Hb) in H.
  discriminate.
Qed.

(** X1.  The section builder throws exactly when the group key of one of
    the events has no entry in [EVENT_BUNDLES], and what it throws is a
    [TypeError]. *)
Theorem getSections_throws_iff (events : list Event.t) :
  (getSections EVENT_BUNDLES events = Throw TypeError
   <-> exists e, In e events
         /\ bundle EVENT_BUNDLES (getEventGroupKey EVENT_BUNDLES e) = None)
  /\ (forall err, getSections EVENT_BUNDLES events = Throw err -> err = TypeError).
Proof.
  split; [split |].
  - intros H. now apply getSections_throw_inv in H.
  - intros (e & He & Hb). now apply (getSections_undefined_throws events e).
  - intros err H. now apply getSections_throw_inv in H.
Qed.

(** X2.  When the group key of every event is defined, the section builder
    returns sections none of which is empty, so at most as many sections as
    there are events, and none for no event. *)
Theorem getSections_no_empty_section (events : list Event.t) :
  (forall e, In e events ->
     bundle EVENT_BUNDLES (getEventGroupKey EVENT_BUNDLES e) <> None) ->
  exists secs,
    getSections EVENT_BUNDLES events = Return secs
    /\ Forall (fun s => notifications s <> []) secs
    /\ List.length secs <= List.length events
    /\ (events = [] -> secs = []).
Proof.
  intros Hdef. eexists. split; [now apply getSections_returns |].
  set (secs := flat_map _ _).
  assert (Hbundle : forall k g, In (k, g) (Lodash.groupBy key_of events) ->
            bundle EVENT_BUNDLES k <> None).
  { intros k g Hin. destruct (group_member events k g Hin) as [Hne Hmem].
    destruct (nonempty_member g Hne) as [e He]. destruct (Hmem e He) as [Hev <-].
    now apply Hdef. }
  assert (Hne : Forall (fun s => notifications s <> []) secs).
  { apply Forall_forall. intros s Hs.
    apply in_flat_map in Hs as ([k g] & Hin & Hs). simpl in Hs.
    destruct (group_member events k g Hin) as [Hg _].
    unfold sections_of_group in Hs.
    destruct (bundle EVENT_BUNDLES k) as [b|]; [| contradiction].
    destruct (negb (truthy (Bundle.groupBy b))).
    - destruct Hs as [<-|[]]. simpl. now destruct g.
    - apply in_map_iff in Hs as ([j gv] & <- & Hj). simpl.
      destruct (groupBy_grouping (subgroup_key (Bundle.groupBy b)) g) as (_ & Hent & _).
      destruct (Hent j gv Hj) as [_ Hgv]. now destruct gv. }
  assert (Hlen : List.length secs <= List.length events).
  { pose proof (all_notifications EVENT_BUNDLES _ Hbundle) as P.
    fold secs in P. apply Permutation_length in P.
    rewrite length_map in P.
    pose proof (grouping_concat key_of events _ (groupBy_grouping key_of events)) as Q.
    apply Permutation_length in Q. rewrite Q in P.
    rewrite <- P, <- (length_map notifications).
    apply nonempty_concat. apply Forall_forall. intros n Hn.
    apply in_map_iff in Hn as (s & <- & Hs).
    rewrite Forall_forall in Hne. now apply Hne. }
  split; [exact Hne | split; [exact Hlen |]].
  intros E. subst events. reflexivity.
Qed.

Lemma getSections_singleton (e : Event.t) b :
  bundle EVENT_BUNDLES (key_of e) = Some b ->
  getSections EVENT_BUNDLES [e]
  = Return [ {| title := replacePlaceholders (Bundle.title b) [data_data e];
                flag := key_of e;
                notifications := [data_data e] |} ].
Proof.
  intros Hb. unfold getSections. rewrite groupBy_singleton. cbn [forIn].
  fold key_of. rewrite Hb. destruct (negb (truthy (Bundle.groupBy b))); [reflexivity |].
  rewrite groupBy_singleton. reflexivity.
Qed.

(** X3.  For a single notification, [wrapIndividualNotification] throws a
    [TypeError] when the notification's group is not defined; otherwise it
    returns one project, with the notification's project id and name, that
    holds one section: the notification's contents alone, under the
    group's title, with the subject resolved from the group's subject
    template on these contents. *)
Theorem wrapIndividualNotification_single (config : Config.t) (data : Event.t) :
  wrapIndividualNotification config EVENT_BUNDLES data
  = match bundle EVENT_BUNDLES (getEventGroupKey EVENT_BUNDLES data) with
    | None => Throw TypeError
    | Some b =>
        Return
          {| subject := replacePlaceholders (Bundle.subject b) [data_data data];
             connectURL := Config.CONNECT_URL config;
             projects :=
               [ {| id := lookup (data_data data) "projectId";
                    name := lookup (data_data data) "projectName";
                    sections :=
                      [ {| title := replacePlaceholders (Bundle.title b) [data_data data];
                           flag := getEventGroupKey EVENT_BUNDLES data;
                           notifications := [data_data data] |} ] |} ] |}
    end.
Proof.
  unfold wrapIndividualNotification.
  destruct (bundle EVENT_BUNDLES (getEventGroupKey EVENT_BUNDLES data)) as [b|] eqn:Hb;
    [| reflexivity].
  now rewrite (getSections_singleton data b Hb).
Qed.

End SectionBuilderEdges.

(** ** Errors and payloads of the batch processor *)

Lemma mapValues_inv {A B} (callback : A -> outcome B) (o : list (string * A)) r :
  mapValues callback o = Return r ->
  Forall2 (fun kv kb => fst kv = fst kb /\ callback (snd kv) = Return (snd kb)) o r.
Proof.
  revert r. induction o as [|[k v] o IH]; simpl; intros r H.
  - injection H as <-. constructor.
  - destruct (callback v) as [b|] eqn:E; [| discriminate].
    destruct (mapValues callback o) as [more|]; [| discriminate].
    injection H as <-. constructor; [now split | now apply IH].
Qed.

Lemma mapValues_throw_inv {A B} (callback : A -> outcome B) (o : list (string * A)) err :
  mapValues callback o = Throw err ->
  exists k v, In (k, v) o /\ callback v = Throw err.
Proof.
  induction o as [|[k v] o IH]; simpl; [discriminate |].
  destruct (callback v) as [b|e] eqn:E.
  - destruct (mapValues callback o) as [more|e']; [discriminate |].
    intros H. injection H as ->. destruct (IH eq_refl) as (k' & v' & Hin & Hc).
    exists k', v'. split; [now right | exact Hc].
  - intros H. injection H as ->. exists k, v. split; [now left | exact E].
Qed.

Lemma Forall2_In_l {A B} (R : A -> B -> Prop) l r x :
  Forall2 R l r -> In x l -> exists y, In y r /\ R x y.
Proof.
  induction 1 as [|a b l r Hab _ IH]; intros Hin; [contradiction |].
  destruct Hin as [<-|Hin].
  - exists b. split; [now left | exact Hab].
  - destruct (IH Hin) as (y & Hy & Hr). exists y. split; [now right | exact Hr].
Qed.

Lemma Forall2_strengthen {A B} (P : A -> Prop) (R : A -> B -> Prop) l r :
  Forall2 R l r -> (forall x, In x l -> P x) ->
  Forall2 (fun x y => P x /\ R x y) l r.
Proof.
  induction 1 as [|a b l r Hab _ IH]; intros HP; constructor.
  - split; [apply HP; now left | exact Hab].
  - apply IH. intros x Hx. apply HP. now right.
Qed.

Lemma Forall2_map_right {A B C} (R : A -> C -> Prop) (f : B -> C) l r :
  Forall2 (fun x y => R x (f y)) l r -> Forall2 R l (map f r).
Proof. induction 1; cbn [map]; now constructor. Qed.

(** The head of a filtered list is the first item of the list that passes
    the filter. *)
Lemma filter_head {A} (p : A -> bool) (l : list A) first rest :
  filter p l = first :: rest ->
  exists before after,
    l = before ++ first :: after
    /\ Forall (fun x => p x = false) before
    /\ p first = true.
Proof.
  induction l as [|x l IH]; simpl; [discriminate |].
  destruct (p x) eqn:Hx.
  - intros H. injection H as -> _. exists [], l. now repeat split.
  - intros H. destruct (IH H) as (before & after & -> & Hb & Hf).
    exists (x :: before), after. repeat split; [now constructor | exact Hf].
Qed.

Section BatchEdges.
Variable config : Config.t.
Variable constants : Constants.t.
Variable EVENT_BUNDLES : list (string * Bundle.t).
Variable now : string.
Variable postEvent : busEvent -> response unit.

Let key_of := getEventGroupKey EVENT_BUNDLES.
Let event_for := user_event config constants EVENT_BUNDLES now.
Let loop := forEach_user config constants EVENT_BUNDLES now postEvent.
Let defined (e : Event.t) : Prop := bundle EVENT_BUNDLES (key_of e) <> None.

Lemma project_group_member (userEvents : list Event.t) k g :
  In (k, g) (Lodash.groupBy project_key userEvents) ->
  forall e, In e g -> In e userEvents.
Proof.
  intros Hin e He. destruct (groupBy_grouping project_key userEvents) as (_ & Hent & _).
  destruct (Hent k g Hin) as [Hg _]. rewrite Hg in He.
  now apply filter_In in He.
Qed.

(** What the loop body builds when it does not throw. *)
Lemma user_event_inv userEvents e :
  event_for userEvents = Return e ->
  exists first rest byProject,
    userEvents = first :: rest
    /\ mapValues (project_of EVENT_BUNDLES) (Lodash.groupBy project_key userEvents)
       = Return byProject
    /\ e = {| topic := Constants.BUS_API_EVENT_EMAIL_GENERAL constants;
              originator := "tc-notifications";
              timestamp := now;
              mime_type := "application/json";
              payload :=
                {| Message.data :=
                     {| subject := "Your Topcoder project updates";
                        connectURL := Config.CONNECT_URL config;
                        projects := map snd byProject |};
                   Message.recipients := Message.recipients (Event.data first);
                   Message.version := "v3";
                   Message.from :=
                     {| Message.name := Config.REPLY_EMAIL_FROM config;
                        Message.email := Config.DEFAULT_REPLY_EMAIL config |};
                   Message.categories := Message.categories (Event.data first);
                   Message.cc := Some [];
                   Message.replyTo := Config.DEFAULT_REPLY_EMAIL config |} |}.
Proof.
  unfold event_for, user_event.
  destruct (mapValues _ _) as [byProject|]; [| discriminate].
  destruct userEvents as [|first rest]; [discriminate |].
  intros H. injection H as <-. now exists first, rest, byProject.
Qed.

Lemma user_event_defined userEvents e :
  event_for userEvents = Return e -> forall ev, In ev userEvents -> defined ev.
Proof.
  intros H ev Hev.
  destruct (user_event_inv userEvents e H) as (first & rest & byProject & _ & Hm & _).
  apply mapValues_inv in Hm.
  destruct (groupBy_grouping project_key userEvents) as (_ & Hent & Hkey).
  specialize (Hkey ev Hev). apply in_map_iff in Hkey as ([k g] & Hk & Hin).
  simpl in Hk.
  assert (Hg : In ev g).
  { destruct (Hent k g Hin) as [-> _]. apply filter_In. split; [exact Hev |].
    now apply String.eqb_eq. }
  destruct (Forall2_In_l _ _ _ _ Hm Hin) as (kb & _ & _ & Hp).
  unfold project_of in Hp. cbn [snd] in Hp.
  destruct (getSections EVENT_BUNDLES g) as [secs|] eqn:Hs; [| discriminate].
  exact (getSections_return_defined EVENT_BUNDLES g secs Hs ev Hg).
Qed.

Lemma user_event_returns userEvents :
  userEvents <> [] -> (forall ev, In ev userEvents -> defined ev) ->
  exists e, event_for userEvents = Return e.
Proof.
  intros Hne Hdef. unfold event_for, user_event.
  destruct (mapValues_total (project_of EVENT_BUNDLES)
              (Lodash.groupBy project_key userEvents)) as [r ->].
  - intros k g Hin. unfold project_of.
    rewrite (getSections_returns EVENT_BUNDLES g); [now eexists |].
    intros ev Hev. apply Hdef. now apply (project_group_member userEvents k g).
  - destruct userEvents; [congruence | now eexists].
Qed.

Lemma user_event_throws userEvents err :
  userEvents <> [] -> event_for userEvents = Throw err ->
  err = TypeError /\ exists ev, In ev userEvents /\ ~ defined ev.
Proof.
  intros Hne. unfold event_for, user_event.
  destruct (mapValues _ _) as [byProject|err'] eqn:Hm.
  - destruct userEvents; [congruence | discriminate].
  - intros H. injection H as ->.
    apply mapValues_throw_inv in Hm as (k & g & Hin & Hp).
    unfold project_of in Hp.
    destruct (getSections EVENT_BUNDLES g) as [secs|e'] eqn:Hs; [discriminate |].
    injection Hp as ->.
    destruct (getSections_throw_inv EVENT_BUNDLES g err Hs) as (-> & ev & Hev & Hb).
    split; [reflexivity |]. exists ev. split.
    + now apply (project_group_member userEvents k g).
    + intros Hd. now apply Hd.
Qed.

(** The loop over the users' groups: what was sent, and whether it threw. *)
Lemma forEach_user_shape (groups : list (list Event.t)) :
  Forall (fun g => g <> []) groups ->
  let run := loop groups in
  List.length (settled run) = List.length (sent run)
  /\ (forall e, In e (sent run) -> exists g, In g groups /\ event_for g = Return e)
  /\ (thrown run = None ->
      List.length (sent run) = List.length groups
      /\ forall g ev, In g groups -> In ev g -> defined ev)
  /\ (forall err, thrown run = Some err ->
        err = TypeError
        /\ List.length (sent run) < List.length groups
        /\ exists g ev, In g groups /\ In ev g /\ ~ defined ev).
Proof.
  induction 1 as [|g groups Hg _ IH]; cbn [loop forEach_user].
  - cbn. repeat split; try discriminate; intros; contradiction.
  - unfold loop. cbn [forEach_user]. fold loop.
    destruct (user_event config constants EVENT_BUNDLES now g) as [e|err] eqn:He.
    + destruct IH as (Hl & Hs & Hn & Ht). cbn [sent settled thrown List.length].
      split; [now f_equal | split; [| split]].
      * intros e' [<-|Hin].
        -- exists g. split; [now left | exact He].
        -- destruct (Hs e' Hin) as (g' & Hg' & He'). exists g'. split; [now right | exact He'].
      * intros Hnone. destruct (Hn Hnone) as [Hlen Hdef]. split; [now f_equal |].
        intros g' ev [<-|Hin] Hev.
        -- exact (user_event_defined g e He ev Hev).
        -- now apply (Hdef g').
      * intros err Hsome. destruct (Ht err Hsome) as (-> & Hlen & g' & ev & Hin & Hev & Hnd).
        split; [reflexivity | split; [lia |]].
        exists g', ev. split; [now right | now split].
    + cbn [sent settled thrown List.length].
      split; [reflexivity | split; [| split]].
      * intros e' [].
      * discriminate.
      * intros err' H. injection H as <-.
        destruct (user_event_throws g err Hg He) as (-> & ev & Hev & Hnd).
        split; [reflexivity | split; [lia |]].
        exists g, ev. split; [now left | now split].
Qed.

Lemma user_groups (events : list Event.t) :
  let users := Lodash.groupBy user_key events in
  Forall (fun g => g <> []) (map snd users)
  /\ (forall g ev, In g (map snd users) -> In ev g -> In ev events)
  /\ (forall ev, In ev events -> exists g, In g (map snd users) /\ In ev g).
Proof.
  intros users. destruct (groupBy_grouping user_key events) as (_ & Hent & Hkey).
  fold users in Hent, Hkey. split; [| split].
  - apply Forall_forall. intros g Hg. apply in_map_iff in Hg as ([k g'] & <- & Hin).
    now apply Hent in Hin.
  - intros g ev Hg Hev. apply in_map_iff in Hg as ([k g'] & <- & Hin).
    destruct (Hent k g' Hin) as [Hg' _]. simpl in Hev. rewrite Hg' in Hev.
    now apply filter_In in Hev.
  - intros ev Hev. specialize (Hkey ev Hev).
    apply in_map_iff in Hkey as ([k g] & Hk & Hin). simpl in Hk.
    exists g. split; [now apply (in_map snd) in Hin |].
    destruct (Hent k g Hin) as [-> _]. apply filter_In. split; [exact Hev |].
    now apply String.eqb_eq.
Qed.

Lemma handleScheduledEvents_loop (events : list Event.t) :
  handleScheduledEvents config constants EVENT_BUNDLES now postEvent events
  = loop (map snd (Lodash.groupBy user_key events)).
Proof. unfold handleScheduledEvents. now destruct events. Qed.

(** X5.  The batch processor throws exactly when the group key of one of
    the due events has no entry in [EVENT_BUNDLES]; what it throws is a
    [TypeError], and then fewer bus events are posted than there are
    users.  Every posted event has its promise chain. *)
Theorem handleScheduledEvents_throws_iff (events : list Event.t) :
  let run := handleScheduledEvents config constants EVENT_BUNDLES now postEvent events in
  let users := Lodash.groupBy user_key events in
  (thrown run = None
   <-> forall e, In e events ->
         bundle EVENT_BUNDLES (getEventGroupKey EVENT_BUNDLES e) <> None)
  /\ (forall err, thrown run = Some err ->
        err = TypeError /\ List.length (sent run) < List.length users)
  /\ List.length (settled run) = List.length (sent run).
Proof.
  intros run users. subst run users. rewrite handleScheduledEvents_loop.
  destruct (user_groups events) as (Hne & Hsub & Hcov).
  set (users := Lodash.groupBy user_key events) in *.
  destruct (forEach_user_shape (map snd users) Hne) as (Hl & _ & Hn & Ht).
  split; [split | split].
  - intros Hnone e He. destruct (Hn Hnone) as [_ Hdef].
    destruct (Hcov e He) as (g & Hg & Heg). exact (Hdef g e Hg Heg).
  - intros Hdef. destruct (thrown (loop (map snd users))) as [err|] eqn:E; [| reflexivity].
    destruct (Ht err eq_refl) as (_ & _ & g & ev & Hg & Hev & Hnd).
    exfalso. apply Hnd. apply Hdef. now apply (Hsub g).
  - intros err Hsome. destruct (Ht err Hsome) as (-> & Hlen & _).
    split; [reflexivity |]. now rewrite length_map in Hlen.
  - exact Hl.
Qed.

(** X6.  Every bus event the batch processor posts is addressed from the
    first due event, in input order, of one user: it carries that event's
    recipients and categories, an empty [cc], the default reply address as
    [replyTo] and as sender address, version ["v3"] and the fixed subject. *)
Theorem handleScheduledEvents_first_event (events : list Event.t) (e : busEvent) :
  In e (sent (handleScheduledEvents config constants EVENT_BUNDLES now postEvent events)) ->
  exists k first before after,
    events = before ++ first :: after
    /\ user_key first = k
    /\ Forall (fun x => user_key x <> k) before
    /\ topic e = Constants.BUS_API_EVENT_EMAIL_GENERAL constants
    /\ Message.recipients (payload e) = Message.recipients (Event.data first)
    /\ Message.categories (payload e) = Message.categories (Event.data first)
    /\ Message.cc (payload e) = Some []
    /\ Message.replyTo (payload e) = Config.DEFAULT_REPLY_EMAIL config
    /\ Message.from (payload e)
       = {| Message.name := Config.REPLY_EMAIL_FROM config;
            Message.email := Config.DEFAULT_REPLY_EMAIL config |}
    /\ Message.version (payload e) = "v3"
    /\ subject (Message.data (payload e)) = "Your Topcoder project updates".
Proof.
  rewrite handleScheduledEvents_loop. intros He.
  destruct (user_groups events) as (Hne & _ & _).
  destruct (forEach_user_shape _ Hne) as (_ & Hs & _).
  destruct (Hs e He) as (g & Hg & Hev).
  apply in_map_iff in Hg as ([k g'] & Hk & Hin). simpl in Hk. subst g'.
  destruct (groupBy_grouping user_key events) as (_ & Hent & _).
  destruct (Hent k g Hin) as [Hmem _].
  destruct (user_event_inv g e Hev) as (first & rest & byProject & Hfirst & _ & ->).
  rewrite Hfirst in Hmem. symmetry in Hmem.
  destruct (filter_head _ _ _ _ Hmem) as (before & after & Hsplit & Hb & Hf).
  exists k, first, before, after. cbn.
  split; [exact Hsplit | split; [now apply String.eqb_eq |]].
  split; [| now repeat split].
  eapply Forall_impl; [| exact Hb]. intros x Hx. now apply String.eqb_neq.
Qed.

(** X7.  The body of every bus event the batch processor posts holds one
    project per distinct project id among the due events of its user, in
    the order [_.groupBy] yields them; a project takes its id and name
    from the first of its events and its sections from the section builder
    run on exactly its events. *)
Theorem handleScheduledEvents_projects (events : list Event.t) (e : busEvent) :
  In e (sent (handleScheduledEvents config constants EVENT_BUNDLES now postEvent events)) ->
  exists k userEvents,
    In (k, userEvents) (Lodash.groupBy user_key events)
    /\ let byProject := Lodash.groupBy project_key userEvents in
       NoDup (map fst byProject)
       /\ (forall ev, In ev userEvents -> In (project_key ev) (map fst byProject))
       /\ Forall2 (fun g p =>
                     snd g = filter (fun ev => project_key ev =? fst g) userEvents
                     /\ id p = first_data (snd g) "projectId"
                     /\ name p = first_data (snd g) "projectName"
                     /\ getSections EVENT_BUNDLES (snd g) = Return (sections p))
                  byProject (projects (Message.data (payload e))).
Proof.
  rewrite handleScheduledEvents_loop. intros He.
  destruct (user_groups events) as (Hne & _ & _).
  destruct (forEach_user_shape _ Hne) as (_ & Hs & _).
  destruct (Hs e He) as (g & Hg & Hev).
  apply in_map_iff in Hg as ([k g'] & Hk & Hin). simpl in Hk. subst g'.
  exists k, g. split; [exact Hin |]. cbv zeta.
  destruct (groupBy_grouping project_key g) as (Hnd & Hent & Hkey).
  split; [exact Hnd | split; [exact Hkey |]].
  destruct (user_event_inv g e Hev) as (first & rest & byProject & _ & Hm & ->).
  cbn [payload Message.data projects].
  apply mapValues_inv in Hm.
  apply Forall2_map_right.
  apply (Forall2_strengthen
           (fun kg => snd kg = filter (fun ev => project_key ev =? fst kg) g)) in Hm.
  - eapply Forall2_impl; [| exact Hm].
    intros [k' g'] [k'' p] (Hg' & _ & Hp). cbn [fst snd] in *.
    unfold project_of in Hp.
    destruct (getSections EVENT_BUNDLES g') as [secs|] eqn:Hsec; [| discriminate].
    injection Hp as <-. cbn. now repeat split.
  - intros [k' g'] Hkg. now destruct (Hent k' g' Hkg).
Qed.
End BatchEdges.

(** ** Every run of the handler *)

Lemma lookup_set (o : obj) k v k' :
  lookup (set o k v) k' = if k =? k' then v else lookup o k'.
Proof.
  induction o as [|[k0 v0] o IH]; cbn [set lookup]; [reflexivity |].
  destruct (k0 =? k) eqn:E; cbn [lookup].
  - apply String.eqb_eq in E. subst k0. now destruct (k =? k').
  - rewrite IH. destruct (k0 =? k') eqn:E'; [| reflexivity].
    apply String.eqb_eq in E'. subst k'. rewrite String.eqb_sym in E. now rewrite E.
Qed.

Lemma lookup_assign_other (target source : obj) k :
  ~ In k (map fst source) ->
  lookup (Lodash.assign target source) k = lookup target k.
Proof.
  unfold Lodash.assign. revert target.
  induction source as [|[k0 v0] source IH]; intros target Hk; cbn [fold_left fst snd];
    [reflexivity |].
  rewrite IH by (intros H; apply Hk; now right).
  rewrite lookup_set. destruct (k0 =? k) eqn:E; [| reflexivity].
  apply String.eqb_eq in E. exfalso. apply Hk. now left.
Qed.

Lemma lookup_assign_in (target source : obj) k v :
  NoDup (map fst source) -> In (k, v) source ->
  lookup (Lodash.assign target source) k = v.
Proof.
  unfold Lodash.assign. revert target.
  induction source as [|[k0 v0] source IH]; intros target Hnd Hin; [contradiction |].
  cbn [map fst] in Hnd. inversion Hnd as [|? ? Hk0 Hnd']; subst.
  cbn [fold_left fst snd]. destruct Hin as [E|Hin].
  - injection E as -> ->.
    change (lookup (Lodash.assign (set target k v) source) k = v).
    rewrite lookup_assign_other by exact Hk0.
    rewrite lookup_set. now rewrite String.eqb_refl.
  - now apply IH.
Qed.

Section HandlerEdges.
Variable config : Config.t.
Variable constants : Constants.t.
Variable EVENT_BUNDLES : list (string * Bundle.t).
Variable markdownToHTML : value -> value.
Variable sanitizeEmail : value -> value.
Variable parseInt : value -> value.
Variable toLowerCase : string -> string.
Variable jwt_signature : obj -> string -> value.
Variable now : string.
Variable getSettings : value -> response value.
Variable getUsersById : list value -> response (list User.t).
Variable postEvent : busEvent -> response unit.
Variable topicName : string.
Variable messageJSON : MessageJSON.t.
Variable notification : Notification.t.

Let run := handler config constants EVENT_BUNDLES markdownToHTML sanitizeEmail
             parseInt toLowerCase jwt_signature now getSettings getUsersById postEvent
             topicName messageJSON notification.
Let send := deliver config constants EVENT_BUNDLES now postEvent notification.
Let notificationType := or_else (Notification.newType notification) (VStr topicName).
Let contents := Notification.contents notification.
Let general := Constants.BUS_API_EVENT_EMAIL_GENERAL constants.

(** The address the email goes to. *)
Let recipient (user : User.t) : value :=
  if is_string (Config.ENABLE_DEV_MODE config) "true"
  then Config.DEV_MODE_EMAIL config else User.email user.

(** [eventMessage.data] after line 241. *)
Let composed (user : User.t) : obj :=
  Message.data (eventMessage (compose config constants toLowerCase now notificationType
                                messageJSON notification user [recipient user])).

Let topic_id : value := parseInt (MessageJSON.topicId messageJSON).

(** [eventMessage.data] after line 278. *)
Let message_data (user : User.t) (messaging : bool) : obj :=
  let with_post :=
    if messaging then
      let d := set (composed user) "topicId" topic_id in
      let d := set d "postId" (if truthy (MessageJSON.postId messageJSON)
                               then parseInt (MessageJSON.postId messageJSON) else VNull) in
      if truthy (MessageJSON.postContent messageJSON)
      then set d "post" (markdownToHTML (MessageJSON.postContent messageJSON)) else d
    else composed user in
  if truthy (MessageJSON.fileName messageJSON)
  then set with_post "fileName" (MessageJSON.fileName messageJSON) else with_post.

Let token (user : User.t) : value :=
  jwt_signature [ ("userId", parseInt (Notification.userId notification));
                  ("topicId", topic_id);
                  ("userEmail", sanitizeEmail (User.email user)) ]
                (Config.AUTH_SECRET config).

(** [eventMessage] without its [data], after line 278. *)
Let envelope (user : User.t) (messaging : bool) : Message.t unit :=
  {| Message.data := tt;
     Message.recipients := [recipient user];
     Message.version := "v3";
     Message.from := {| Message.name := lookup contents "userHandle";
                        Message.email := Config.DEFAULT_REPLY_EMAIL config |};
     Message.categories := [toLowerCase (to_string (Config.ENV config) ++ ":" ++ general)%string];
     Message.cc :=
       if messaging && is_string notificationType
                         (Constants.BUS_API_EVENT_CONNECT_POST_MENTION constants)
       then Some [Config.MENTION_EMAIL config] else None;
     Message.replyTo :=
       if messaging
       then VStr (to_string (Config.REPLY_EMAIL_PREFIX config) ++ "+"
                  ++ to_string topic_id ++ "/" ++ to_string (token user) ++ "@"
                  ++ to_string (Config.REPLY_EMAIL_DOMAIN config))%string
       else VUndefined |}.

Let final_draft (user : User.t) (messaging : bool) : draft :=
  {| eventMessage := with_data (envelope user messaging) (message_data user messaging);
     reference := VStr (if messaging then "topic" else "project");
     referenceId := if messaging then topic_id else lookup (composed user) "projectId";
     messagingEvent := messaging |}.

Lemma draft_final user tp :
  bundle EVENT_BUNDLES "TOPICS_AND_POSTS" = Some tp ->
  exists t d,
    topics_and_posts config constants EVENT_BUNDLES markdownToHTML sanitizeEmail
      parseInt jwt_signature notificationType messageJSON notification user
      (compose config constants toLowerCase now notificationType messageJSON
         notification user [recipient user])
    = (t, Return d)
    /\ posted t = [] /\ scheduled t = []
    /\ logged info t = [] /\ logged verbose t = [] /\ logged error_level t = []
    /\ file_name messageJSON d
       = final_draft user (Lodash.includes (Bundle.types tp) notificationType).
Proof.
  intros Htp. unfold topics_and_posts. rewrite Htp.
  destruct (Lodash.includes (Bundle.types tp) notificationType).
  - do 2 eexists. split; [reflexivity |]. do 5 (split; [reflexivity |]).
    unfold file_name, final_draft, envelope, message_data, token, topic_id, composed.
    destruct (truthy (MessageJSON.fileName messageJSON)),
             (truthy (MessageJSON.postContent messageJSON)),
             (is_string notificationType
                (Constants.BUS_API_EVENT_CONNECT_POST_MENTION constants));
      cbn [eventMessage reference referenceId messagingEvent set_data with_data andb
           Message.data Message.recipients Message.version Message.from
           Message.categories Message.cc Message.replyTo];
      rewrite ?lookup_set; cbn [String.eqb Ascii.eqb Bool.eqb]; reflexivity.
  - do 2 eexists. split; [reflexivity |]. do 5 (split; [reflexivity |]).
    unfold file_name, final_draft, envelope, message_data, composed.
    destruct (truthy (MessageJSON.fileName messageJSON)); reflexivity.
Qed.

(** The bus event of lines 305-311 for a draft whose group is [b]. *)
Let bus_event (d : draft) (b : Bundle.t) : busEvent :=
  let data := Message.data (eventMessage d) in
  {| topic := general;
     originator := "tc-notifications";
     timestamp := now;
     mime_type := "application/json";
     payload :=
       with_data (eventMessage d)
         {| subject := replacePlaceholders (Bundle.subject b) [data];
            connectURL := Config.CONNECT_URL config;
            projects :=
              [ {| id := lookup data "projectId";
                   name := lookup data "projectName";
                   sections :=
                     [ {| title := replacePlaceholders (Bundle.title b) [data];
                          flag := getEventGroupKey EVENT_BUNDLES (wrap (eventMessage d));
                          notifications := [data] |} ] |} ] |} |}.

(** The four ways lines 292-322 can go. *)
Lemma send_cases d be bp :
  (is_string be "yes" && truthy bp = true /\ recognized constants bp = false
   /\ send d be bp
      = ([], Throw (UnsupportedBundlePeriod (Notification.userId notification) bp)))
  \/ (is_string be "yes" && truthy bp = true /\ recognized constants bp = true
      /\ send d be bp
         = ([AddEvent {| Event.data := eventMessage d;
                         Event.period := bp;
                         Event.userId := Notification.userId notification;
                         Event.eventType := VStr general;
                         Event.reference := reference d;
                         Event.referenceId := referenceId d |}],
            Return tt))
  \/ (is_string be "yes" && truthy bp = false
      /\ bundle EVENT_BUNDLES (getEventGroupKey EVENT_BUNDLES (wrap (eventMessage d))) = None
      /\ send d be bp = ([], Throw TypeError))
  \/ (is_string be "yes" && truthy bp = false
      /\ exists b,
           bundle EVENT_BUNDLES (getEventGroupKey EVENT_BUNDLES (wrap (eventMessage d)))
           = Some b
           /\ send d be bp
              = (ConsoleLog :: PostEvent (bus_event d b)
                   :: match postEvent (bus_event d b) with
                      | Resolved _ => [Log info "Successfully sent event to bus api"]
                      | Rejected => []
                      end,
                 match postEvent (bus_event d b) with
                 | Resolved _ => Return tt
                 | Rejected => Throw Rejection
                 end)).
Proof.
  unfold send, deliver.
  destruct (is_string be "yes" && truthy bp) eqn:Hb.
  - destruct (recognized constants bp) eqn:Hr; cbn [negb].
    + right. left. now repeat split.
    + left. now repeat split.
  - right. right. unfold wrapIndividualNotification.
    destruct (bundle EVENT_BUNDLES (getEventGroupKey EVENT_BUNDLES (wrap (eventMessage d))))
      as [b|] eqn:Hk.
    + right. split; [reflexivity |]. exists b. split; [reflexivity |].
      rewrite (getSections_singleton EVENT_BUNDLES _ b Hk).
      cbn [lift bind emit app await].
      destruct (postEvent _) as [[]|]; reflexivity.
    + left. now repeat split.
Qed.

(** The line logged when the email is switched off for the type. *)
Let skipped : string :=
  ("Notification '" ++ to_string notificationType ++ "' won't be sent by '"
   ++ Constants.SETTINGS_EMAIL_SERVICE_ID constants
   ++ "' service to the userId '" ++ to_string (Notification.userId notification)
   ++ "' due to his notification settings.")%string.

Lemma type_settings_throws settings :
  match type_settings settings notificationType with
  | Throw err =>
      err = TypeError
      /\ (Lodash.get settings ["notifications"] = VUndefined
          \/ Lodash.get settings ["notifications"] = VNull)
  | Return _ =>
      Lodash.get settings ["notifications"] <> VUndefined
      /\ Lodash.get settings ["notifications"] <> VNull
  end.
Proof.
  unfold type_settings.
  destruct settings as [| | | | | |o]; cbn [member Lodash.get]; auto.
  destruct (lookup o "notifications"); cbn [member]; auto; split; discriminate.
Qed.

(** A run either ends before the email is composed, with nothing posted or
    scheduled, or composes the draft and hands it to lines 292-322. *)
Lemma run_cases :
  (posted (fst run) = [] /\ scheduled (fst run) = [] /\ logged info (fst run) = []
   /\ (logged verbose (fst run) = []
       /\ (snd run = Throw Rejection \/ snd run = Throw TypeError)
       \/ exists settings s,
            getSettings (Notification.userId notification) = Resolved settings
            /\ type_settings settings notificationType = Return s
            /\ disabled constants s = true
            /\ run = ([Log verbose skipped], Return tt)))
  \/ exists settings s user others tp pre,
       getSettings (Notification.userId notification) = Resolved settings
       /\ type_settings settings notificationType = Return s
       /\ disabled constants s = false
       /\ getUsersById [Notification.userId notification] = Resolved (user :: others)
       /\ bundle EVENT_BUNDLES "TOPICS_AND_POSTS" = Some tp
       /\ posted pre = [] /\ scheduled pre = [] /\ logged info pre = []
       /\ logged verbose pre = []
       /\ let messaging := Lodash.includes (Bundle.types tp) notificationType in
          let b := bundling constants settings notificationType messaging in
          let d := final_draft user messaging in
          run = (pre ++ fst (send d (fst b) (snd b)), snd (send d (fst b) (snd b))).
Proof.
  unfold run, handler. fold notificationType.
  destruct (getSettings (Notification.userId notification)) as [settings|] eqn:Hs;
    cbn [await bind ret_ throw]; [| left; cbn; auto 8].
  pose proof (type_settings_throws settings) as Hts.
  destruct (type_settings settings notificationType) as [s|err] eqn:Ht;
    cbn [lift bind]; [| destruct Hts as [-> _]; left; cbn; auto 8].
  destruct (disabled constants s) eqn:Hd.
  { left. do 3 (split; [reflexivity |]). right. exists settings, s. now repeat split. }
  destruct (getUsersById [Notification.userId notification]) as [[|user others]|] eqn:Hu;
    cbn [await bind ret_ throw emit]; [left; cbn; auto 8 | | left; cbn; auto 8].
  fold (recipient user).
  destruct (bundle EVENT_BUNDLES "TOPICS_AND_POSTS") as [tp|] eqn:Htp.
  - right.
    destruct (draft_final user tp Htp) as (t & d & Hrun & Hp & Hsch & Hi & Hv & _ & Hd').
    rewrite Hrun. cbn [bind]. rewrite Hd'. cbn [messagingEvent final_draft].
    exists settings, s, user, others, tp,
      ([Log debug "got users"]
       ++ (if truthy (User.email user) then []
           else [Log error_level
                   ("Email not received for user: " ++ to_string (User.id user))%string])
       ++ t ++ [Log debug "bundlingEnabled=>"; Log debug "bundlePeriod=>"]).
    do 5 (split; [first [reflexivity | eassumption] |]).
    split; [| split; [| split; [| split]]].
    + rewrite !posted_app, Hp. now destruct (truthy (User.email user)).
    + rewrite !scheduled_app, Hsch. now destruct (truthy (User.email user)).
    + rewrite !logged_app, Hi. now destruct (truthy (User.email user)).
    + rewrite !logged_app, Hv. now destruct (truthy (User.email user)).
    + cbv zeta.
      destruct (bundling constants settings notificationType
                  (Lodash.includes (Bundle.types tp) notificationType)) as [be bp].
      cbn [fst snd]. fold send.
      destruct (send _ be bp) as [td od].
      destruct (truthy (User.email user)); cbn [negb bind ret_ emit app fst snd];
        now rewrite <- ?app_assoc.
  - left. unfold topics_and_posts. rewrite Htp.
    destruct (truthy (User.email user)); cbn; auto 8.
Qed.

(** X8.  Whatever the settings, the user lookup and the bus answer, one run
    of the handler posts or schedules at most one event and never both.  A
    run that schedules is fulfilled; a run that posts is fulfilled or
    rejected as the bus answers, and success is logged exactly when the
    bus accepted the event.  A rejected run has scheduled nothing. *)
Theorem handler_single_effect :
  List.length (posted (fst run)) + List.length (scheduled (fst run)) <= 1
  /\ (scheduled (fst run) <> [] -> snd run = Return tt)
  /\ (forall e, In e (posted (fst run)) ->
        snd run = match postEvent e with
                  | Resolved _ => Return tt
                  | Rejected => Throw Rejection
                  end)
  /\ logged info (fst run)
     = (match posted (fst run), snd run with
        | _ :: _, Return _ => ["Successfully sent event to bus api"]
        | _, _ => []
        end)
  /\ (forall err, snd run = Throw err ->
        scheduled (fst run) = []
        /\ (err = Rejection \/ err = TypeError
            \/ exists period,
                 err = UnsupportedBundlePeriod (Notification.userId notification) period)).
Proof.
  destruct run_cases as [(Hp & Hsch & Hi & Ho)
                        |(settings & s & user & others & tp & pre & _ & _ & _ & _ & _
                          & Hp & Hsch & Hi & _ & Hrun)].
  - rewrite Hp, Hsch, Hi. cbn. split; [lia | split; [congruence | split; [tauto |]]].
    split; [reflexivity |]. intros err Herr. split; [reflexivity |].
    destruct Ho as [[_ [Ho|Ho]]|(settings & s & _ & _ & _ & Ho)]; rewrite Ho in Herr;
      [| | discriminate]; injection Herr as <-; auto.
  - cbv zeta in Hrun. rewrite Hrun. cbn [fst snd].
    rewrite posted_app, scheduled_app, logged_app, Hp, Hsch, Hi. cbn [app].
    destruct (send_cases (final_draft user (Lodash.includes (Bundle.types tp) notificationType))
                (fst (bundling constants settings notificationType
                        (Lodash.includes (Bundle.types tp) notificationType)))
                (snd (bundling constants settings notificationType
                        (Lodash.includes (Bundle.types tp) notificationType))))
      as [(_ & _ & ->)|[(_ & _ & ->)|[(_ & _ & ->)|(_ & b & _ & ->)]]]; cbn [fst snd].
    + cbn. split; [lia | split; [congruence | split; [tauto |]]].
      split; [reflexivity |]. intros err Herr. injection Herr as <-.
      split; [reflexivity |]. right. right. now eexists.
    + cbn. split; [lia | split; [reflexivity | split; [tauto |]]].
      split; [reflexivity |]. discriminate.
    + cbn. split; [lia | split; [congruence | split; [tauto |]]].
      split; [reflexivity |]. intros err Herr. injection Herr as <-. auto.
    + set (e := bus_event _ b).
      destruct (postEvent e) as [[]|] eqn:Hbus; cbn.
      * split; [lia | split; [reflexivity | split]].
        -- intros e' [<-|[]]. now rewrite Hbus.
        -- split; [reflexivity | discriminate].
      * split; [lia | split; [congruence | split]].
        -- intros e' [<-|[]]. now rewrite Hbus.
        -- split; [reflexivity |]. intros err Herr. injection Herr as <-. auto.
Qed.

(** The test of lines 192-194 holds exactly when the setting reads ['no']. *)
Lemma disabled_get settings s :
  type_settings settings notificationType = Return s ->
  disabled constants s
  = is_string (Lodash.get settings
                 ["notifications"; to_string notificationType;
                  Constants.SETTINGS_EMAIL_SERVICE_ID constants; "enabled"]) "no".
Proof.
  unfold type_settings, disabled, prop.
  destruct settings as [| | | | | |o]; cbn [member Lodash.get]; try discriminate.
  destruct (lookup o "notifications") as [| | | | | |n]; cbn [member]; try discriminate;
    try (intros H; injection H as <-; reflexivity).
  intros H. injection H as <-.
  destruct (lookup n (to_string notificationType)) as [| |b|z| |x|t];
    cbn [truthy member andb]; try reflexivity.
  - now destruct b.
  - now destruct (negb (z =? 0)%Z).
  - now destruct (negb (x =? "")).
  - destruct (lookup t (Constants.SETTINGS_EMAIL_SERVICE_ID constants)) as [| |b|z| |x|sv];
      cbn [truthy member andb is_string]; try reflexivity.
    + now destruct b.
    + now destruct (negb (z =? 0)%Z).
    + now destruct (negb (x =? "")).
Qed.

(** X9.  The runs that end in an error before an email is composed.  A
    rejected settings lookup rejects the run; settings without a
    [notifications] object make it a [TypeError]; once the email service
    is not switched off for the type, a rejected user lookup rejects the
    run and an empty list of users makes it a [TypeError].  None of these
    runs posts or schedules. *)
Theorem handler_early_errors :
  (getSettings (Notification.userId notification) = Rejected ->
   run = ([], Throw Rejection))
  /\ (forall settings,
        getSettings (Notification.userId notification) = Resolved settings ->
        (Lodash.get settings ["notifications"] = VUndefined
         \/ Lodash.get settings ["notifications"] = VNull) ->
        run = ([], Throw TypeError))
  /\ (forall settings,
        getSettings (Notification.userId notification) = Resolved settings ->
        Lodash.get settings ["notifications"] <> VUndefined ->
        Lodash.get settings ["notifications"] <> VNull ->
        is_string (Lodash.get settings
                     ["notifications"; to_string notificationType;
                      Constants.SETTINGS_EMAIL_SERVICE_ID constants; "enabled"]) "no"
        = false ->
        (getUsersById [Notification.userId notification] = Rejected ->
         run = ([], Throw Rejection))
        /\ (getUsersById [Notification.userId notification] = Resolved [] ->
            run = ([Log debug "got users"], Throw TypeError))).
Proof.
  split; [| split].
  - intros Hs. unfold run, handler. now rewrite Hs.
  - intros settings Hs Hn. unfold run, handler. fold notificationType. rewrite Hs.
    cbn [await bind ret_]. pose proof (type_settings_throws settings) as Hts.
    destruct (type_settings settings notificationType) as [s|err].
    + destruct Hts as [H1 H2]. now destruct Hn.
    + now destruct Hts as [-> _].
  - intros settings Hs Hn1 Hn2 Hno.
    pose proof (type_settings_throws settings) as Hts.
    destruct (type_settings settings notificationType) as [s|err] eqn:Ht;
      [| destruct Hts as [_ [H|H]]; contradiction].
    assert (Hd : disabled constants s = false) by now rewrite (disabled_get settings s Ht).
    split; intros Hu; unfold run, handler; fold notificationType;
      rewrite Hs; cbn [await bind ret_]; rewrite Ht; cbn [lift bind]; rewrite Hd, Hu.
    + reflexivity.
    + reflexivity.
Qed.

(** What a run sends out: nothing, one scheduled event, or one bus event,
    built from the final draft. *)
Lemma run_outbound :
  (posted (fst run) = [] /\ scheduled (fst run) = [])
  \/ exists settings user others tp,
       getSettings (Notification.userId notification) = Resolved settings
       /\ getUsersById [Notification.userId notification] = Resolved (user :: others)
       /\ bundle EVENT_BUNDLES "TOPICS_AND_POSTS" = Some tp
       /\ let messaging := Lodash.includes (Bundle.types tp) notificationType in
          let b := bundling constants settings notificationType messaging in
          let d := final_draft user messaging in
          (is_string (fst b) "yes" && truthy (snd b) = true
           /\ recognized constants (snd b) = true
           /\ posted (fst run) = []
           /\ scheduled (fst run)
              = [ {| Event.data := eventMessage d;
                     Event.period := snd b;
                     Event.userId := Notification.userId notification;
                     Event.eventType := VStr general;
                     Event.reference := reference d;
                     Event.referenceId := referenceId d |} ])
          \/ (is_string (fst b) "yes" && truthy (snd b) = false
              /\ scheduled (fst run) = []
              /\ exists g,
                   bundle EVENT_BUNDLES
                     (getEventGroupKey EVENT_BUNDLES (wrap (eventMessage d))) = Some g
                   /\ posted (fst run) = [bus_event d g]).
Proof.
  destruct run_cases as [(Hp & Hsch & _)
                        |(settings & s & user & others & tp & pre & Hs & _ & _ & Hu & Htp
                          & Hp & Hsch & _ & _ & Hrun)]; [now left |].
  cbv zeta in Hrun.
  set (messaging := Lodash.includes (Bundle.types tp) notificationType) in *.
  set (b := bundling constants settings notificationType messaging) in *.
  set (d := final_draft user messaging) in *.
  destruct (send_cases d (fst b) (snd b))
    as [(_ & _ & E)|[(H1 & H2 & E)|[(_ & _ & E)|(H1 & g & Hg & E)]]];
    rewrite E in Hrun; rewrite Hrun; cbn [fst snd];
    rewrite posted_app, scheduled_app, Hp, Hsch; cbn [app].
  - now left.
  - right. exists settings, user, others, tp. do 3 (split; [assumption |]).
    left. now repeat split.
  - now left.
  - right. exists settings, user, others, tp. do 3 (split; [assumption |]).
    right. split; [exact H1 |].
    assert (Hpost : forall l, posted (ConsoleLog :: PostEvent (bus_event d g) :: l)
                              = bus_event d g :: posted l) by reflexivity.
    assert (Hsched : forall l, scheduled (ConsoleLog :: PostEvent (bus_event d g) :: l)
                               = scheduled l) by reflexivity.
    rewrite Hpost, Hsched.
    destruct (postEvent (bus_event d g)) as [[]|]; split; try reflexivity;
      exists g; now split.
Qed.

(** X10.  An event the handler schedules is stored under the
    notification's user id and the general email event type, with the
    bundle period the settings resolve to; that period is set and
    [SCHEDULED_EVENT_PERIOD[period]] is truthy, read as JavaScript reads
    it, with the properties every object inherits.  Its reference is the
    topic, with the parsed topic id, for a topics-and-posts type, and
    otherwise the project, with the [projectId] its data carry. *)
Theorem handler_scheduled_event (e : Event.t) :
  In e (scheduled (fst run)) ->
  exists settings tp,
    getSettings (Notification.userId notification) = Resolved settings
    /\ bundle EVENT_BUNDLES "TOPICS_AND_POSTS" = Some tp
    /\ let messaging := Lodash.includes (Bundle.types tp) notificationType in
       let b := bundling constants settings notificationType messaging in
       is_string (fst b) "yes" = true
       /\ Event.period e = snd b
       /\ truthy (Event.period e) = true
       /\ truthy_at (Constants.SCHEDULED_EVENT_PERIOD constants)
            (to_string (Event.period e)) = true
       /\ Event.userId e = Notification.userId notification
       /\ Event.eventType e = VStr (Constants.BUS_API_EVENT_EMAIL_GENERAL constants)
       /\ Event.reference e = VStr (if messaging then "topic" else "project")
       /\ Event.referenceId e
          = (if messaging then parseInt (MessageJSON.topicId messageJSON)
             else lookup (Message.data (Event.data e)) "projectId").
Proof.
  intros He.
  destruct run_outbound as [[_ Hn]|(settings & user & others & tp & Hs & _ & Htp & H)];
    [rewrite Hn in He; contradiction |].
  cbv zeta in H. destruct H as [(Hb & Hr & _ & Hsch)|(_ & Hn & _)];
    [| rewrite Hn in He; contradiction].
  rewrite Hsch in He. destruct He as [<-|[]].
  exists settings, tp. split; [exact Hs | split; [exact Htp |]]. cbv zeta.
  apply andb_prop in Hb as [Hyes Hset].
  cbn [Event.period Event.userId Event.eventType Event.reference Event.referenceId
       Event.data].
  do 6 (split; [first [assumption | reflexivity] |]). split; [reflexivity |].
  destruct (Lodash.includes (Bundle.types tp) notificationType); [reflexivity |].
  unfold final_draft, message_data.
  cbn [referenceId eventMessage with_data Message.data].
  destruct (truthy (MessageJSON.fileName messageJSON)); [| reflexivity].
  now rewrite lookup_set.
Qed.

(** X11.  Whatever the handler schedules or posts is addressed to the first
    user of the lookup, or to the development address in development
    mode, and to nobody else; it is sent from the author's handle at the
    default reply address, as version ["v3"], under the one category of
    the environment.  Only a topics-and-posts type gets a [replyTo], built
    from the topic id and the signed token, and only the mention type
    among them gets a [cc], the mention address. *)
Theorem handler_envelope (user : User.t) (others : list User.t) (tp : Bundle.t) :
  getUsersById [Notification.userId notification] = Resolved (user :: others) ->
  bundle EVENT_BUNDLES "TOPICS_AND_POSTS" = Some tp ->
  let messaging := Lodash.includes (Bundle.types tp) notificationType in
  Forall (fun e => with_data (Event.data e) tt = envelope user messaging)
         (scheduled (fst run))
  /\ Forall (fun e => with_data (payload e) tt = envelope user messaging)
            (posted (fst run)).
Proof.
  intros Hu Htp messaging.
  destruct run_outbound as [[-> ->]|(settings & user' & others' & tp' & _ & Hu' & Htp' & H)];
    [split; constructor |].
  rewrite Hu in Hu'. injection Hu' as <- <-. rewrite Htp in Htp'. injection Htp' as <-.
  cbv zeta in H. fold messaging in H.
  destruct H as [(_ & _ & -> & ->)|(_ & -> & g & _ & ->)]; split;
    repeat constructor.
Qed.

(** X12.  A bus event the handler posts goes to the general email topic
    with originator ['tc-notifications'], the current time and the JSON
    mime type.  Its body is the single notification wrapped as a bundle:
    one project, with the project id and name of the notification's data,
    holding one section of the notification's group with these data
    alone, under the subject and the title resolved from the group's
    templates on these data. *)
Theorem handler_posted_event (e : busEvent) :
  In e (posted (fst run)) ->
  exists (data : obj) (g : Bundle.t),
    let key := getEventGroupKey EVENT_BUNDLES (wrap (with_data (payload e) data)) in
    bundle EVENT_BUNDLES key = Some g
    /\ topic e = Constants.BUS_API_EVENT_EMAIL_GENERAL constants
    /\ originator e = "tc-notifications"
    /\ timestamp e = now
    /\ mime_type e = "application/json"
    /\ Message.data (payload e)
       = {| subject := replacePlaceholders (Bundle.subject g) [data];
            connectURL := Config.CONNECT_URL config;
            projects :=
              [ {| id := lookup data "projectId";
                   name := lookup data "projectName";
                   sections :=
                     [ {| title := replacePlaceholders (Bundle.title g) [data];
                          flag := key;
                          notifications := [data] |} ] |} ] |}.
Proof.
  intros He.
  destruct run_outbound as [[Hn _]|(settings & user & others & tp & _ & _ & _ & H)];
    [rewrite Hn in He; contradiction |].
  cbv zeta in H. destruct H as [(_ & _ & Hn & _)|(_ & _ & g & Hg & Hp)];
    [rewrite Hn in He; contradiction |].
  rewrite Hp in He. destruct He as [<-|[]].
  exists (Message.data (eventMessage
            (final_draft user (Lodash.includes (Bundle.types tp) notificationType)))), g.
  cbv zeta. split; [exact Hg | now repeat split].
Qed.

(** The fields lines 218-228 compute. *)
Let literal (user : User.t) : obj :=
  [ ("name", VStr (to_string (User.firstName user) ++ " "
                   ++ to_string (User.lastName user))%string);
    ("handle", User.handle user);
    ("date", VStr now);
    ("projectName", lookup contents "projectName");
    ("projectId", MessageJSON.projectId messageJSON);
    ("authorHandle", lookup contents "userHandle");
    ("authorFullName", lookup contents "userFullName");
    ("photoURL", lookup contents "photoURL");
    ("type", notificationType) ].

Lemma composed_assign user :
  composed user
  = Lodash.assign (set (literal user) (to_string notificationType) (VBool true)) contents.
Proof. reflexivity. Qed.

Lemma message_data_other user messaging k :
  ~ In k ["topicId"; "postId"; "post"; "fileName"] ->
  lookup (message_data user messaging) k = lookup (composed user) k.
Proof.
  intros Hk.
  assert (H1 : ("topicId" =? k) = false) by (apply String.eqb_neq; intros <-; apply Hk; cbn; auto).
  assert (H2 : ("postId" =? k) = false) by (apply String.eqb_neq; intros <-; apply Hk; cbn; auto).
  assert (H3 : ("post" =? k) = false) by (apply String.eqb_neq; intros <-; apply Hk; cbn; auto).
  assert (H4 : ("fileName" =? k) = false)
    by (apply String.eqb_neq; intros <-; apply Hk; cbn; auto).
  unfold message_data.
  destruct (truthy (MessageJSON.fileName messageJSON)), messaging,
           (truthy (MessageJSON.postContent messageJSON));
    rewrite ?lookup_set, ?H1, ?H2, ?H3, ?H4; reflexivity.
Qed.

Lemma has_own_In (o : obj) k :
  if has_own o k then In (k, lookup o k) o else ~ In k (map fst o).
Proof.
  induction o as [|[k0 v0] o IH]; cbn [has_own existsb lookup map fst In].
  - tauto.
  - destruct (String.eqb_spec k0 k) as [->|Hne]; cbn [orb].
    + now left.
    + fold (has_own o k). destruct (has_own o k).
      * now right.
      * intros [E|H]; [congruence | contradiction].
Qed.

Lemma lookup_assign (target source : obj) k :
  NoDup (map fst source) ->
  lookup (Lodash.assign target source) k
  = if has_own source k then lookup source k else lookup target k.
Proof.
  intros Hnd. pose proof (has_own_In source k) as H.
  destruct (has_own source k).
  - now apply lookup_assign_in.
  - now apply lookup_assign_other.
Qed.

(** X13.  The data of whatever the handler schedules or posts, property
    by property.  Under each name the data hold the first of these that
    applies: the file name of the message, under [fileName], when the
    message has one; for a topics-and-posts type, the rendered post under
    [post] when the message has content, the parsed post id (or [null])
    under [postId] and the parsed topic id under [topicId]; the property
    of that name of the notification's contents, as it is; [true] under
    the name of the notification type; the field computed from the user,
    the clock and the message. *)
Theorem handler_data_fields (user : User.t) (others : list User.t) (tp : Bundle.t) :
  NoDup (map fst (Notification.contents notification)) ->
  getUsersById [Notification.userId notification] = Resolved (user :: others) ->
  bundle EVENT_BUNDLES "TOPICS_AND_POSTS" = Some tp ->
  let messaging := Lodash.includes (Bundle.types tp) notificationType in
  let carried :=
    map (fun e => Message.data (Event.data e)) (scheduled (fst run))
    ++ flat_map (fun e => flat_map (fun p => flat_map notifications (sections p))
                            (projects (Message.data (payload e))))
         (posted (fst run)) in
  let contents := Notification.contents notification in
  let computed : obj :=
    [ ("name", VStr (to_string (User.firstName user) ++ " "
                     ++ to_string (User.lastName user))%string);
      ("handle", User.handle user);
      ("date", VStr now);
      ("projectName", lookup contents "projectName");
      ("projectId", MessageJSON.projectId messageJSON);
      ("authorHandle", lookup contents "userHandle");
      ("authorFullName", lookup contents "userFullName");
      ("photoURL", lookup contents "photoURL");
      ("type", notificationType) ] in
  Forall (fun data =>
    forall k,
      lookup data k
      = if (k =? "fileName") && truthy (MessageJSON.fileName messageJSON)
        then MessageJSON.fileName messageJSON
        else if messaging && (k =? "post")
                && truthy (MessageJSON.postContent messageJSON)
        then markdownToHTML (MessageJSON.postContent messageJSON)
        else if messaging && (k =? "postId")
        then (if truthy (MessageJSON.postId messageJSON)
              then parseInt (MessageJSON.postId messageJSON) else VNull)
        else if messaging && (k =? "topicId")
        then parseInt (MessageJSON.topicId messageJSON)
        else if has_own contents k then lookup contents k
        else if k =? to_string notificationType then VBool true
        else lookup computed k)
    carried.
Proof.
  intros Hnd Hu Htp messaging carried contents0 computed.
  assert (Hcarried : carried = [] \/ carried = [message_data user messaging]).
  { unfold carried.
    destruct run_outbound as [[-> ->]|(settings & user' & others' & tp' & _ & Hu' & Htp' & H)];
      [now left |].
    rewrite Hu in Hu'. injection Hu' as <- <-. rewrite Htp in Htp'. injection Htp' as <-.
    cbv zeta in H. fold messaging in H.
    destruct H as [(_ & _ & -> & ->)|(_ & -> & g & _ & ->)]; right; reflexivity. }
  destruct Hcarried as [-> | ->]; constructor; [| constructor].
  intros k.
  assert (Hc : lookup (composed user) k
               = if has_own contents0 k then lookup contents0 k
                 else if k =? to_string notificationType then VBool true
                 else lookup computed k).
  { rewrite composed_assign, (lookup_assign _ _ k Hnd), lookup_set.
    fold contents0. now rewrite (String.eqb_sym k). }
  rewrite <- Hc. clear Hc.
  rewrite (String.eqb_sym k "fileName"), (String.eqb_sym k "post"),
    (String.eqb_sym k "postId"), (String.eqb_sym k "topicId").
  unfold message_data, topic_id.
  destruct messaging,
           (truthy (MessageJSON.fileName messageJSON)),
           (truthy (MessageJSON.postContent messageJSON));
    rewrite ?lookup_set;
    destruct ("fileName" =? k), ("post" =? k), ("postId" =? k), ("topicId" =? k);
    reflexivity.
Qed.

Lemma is_string_eq v s : is_string v s = true <-> v = VStr s.
Proof.
  destruct v; cbn [is_string]; split; intros H; try discriminate.
  - apply String.eqb_eq in H. now subst.
  - injection H as ->. apply String.eqb_refl.
Qed.

(** X18.  The handler takes the skip of lines 192-198 exactly when the
    fetched settings read ['no'] under the notification type and the email
    service: such a run logs the one verbose line and is fulfilled with
    nothing else done, and no other run logs at the verbose level. *)
Theorem handler_skip_iff :
  (logged verbose (fst run) <> []
   <-> exists settings,
         getSettings (Notification.userId notification) = Resolved settings
         /\ Lodash.get settings
              ["notifications"; to_string notificationType;
               Constants.SETTINGS_EMAIL_SERVICE_ID constants; "enabled"] = VStr "no")
  /\ (logged verbose (fst run) <> [] ->
      run = ([Log verbose
                ("Notification '" ++ to_string notificationType ++ "' won't be sent by '"
                 ++ Constants.SETTINGS_EMAIL_SERVICE_ID constants
                 ++ "' service to the userId '"
                 ++ to_string (Notification.userId notification)
                 ++ "' due to his notification settings.")%string],
             Return tt)).
Proof.
  assert (Hcases :
    logged verbose (fst run) = []
    \/ exists settings s,
         getSettings (Notification.userId notification) = Resolved settings
         /\ type_settings settings notificationType = Return s
         /\ disabled constants s = true
         /\ run = ([Log verbose skipped], Return tt)).
  { destruct run_cases as [(_ & _ & _ & [[Hv _]|H])
                          |(settings & s & user & others & tp & pre & _ & _ & _ & _ & _
                            & _ & _ & _ & Hv & Hrun)]; [now left | now right |].
    left. cbv zeta in Hrun. rewrite Hrun. cbn [fst]. rewrite logged_app, Hv. cbn [app].
    destruct (send_cases (final_draft user (Lodash.includes (Bundle.types tp) notificationType))
                (fst (bundling constants settings notificationType
                        (Lodash.includes (Bundle.types tp) notificationType)))
                (snd (bundling constants settings notificationType
                        (Lodash.includes (Bundle.types tp) notificationType))))
      as [(_ & _ & ->)|[(_ & _ & ->)|[(_ & _ & ->)|(_ & b & _ & ->)]]]; try reflexivity.
    cbn [fst]. now destruct (postEvent _) as [[]|]. }
  split; [split |].
  - intros Hlog. destruct Hcases as [Hv|(settings & s & Hs & Ht & Hd & _)]; [contradiction |].
    exists settings. split; [exact Hs |].
    rewrite (disabled_get settings s Ht) in Hd. now apply is_string_eq.
  - intros (settings & Hs & Hno).
    destruct Hcases as [Hv|(settings' & s & _ & _ & _ & ->)]; [| discriminate].
    exfalso.
    pose proof (type_settings_throws settings) as Hts.
    assert (Hrun : run = ([Log verbose skipped], Return tt)).
    { unfold run, handler. fold notificationType. rewrite Hs. cbn [await bind ret_].
      destruct (type_settings settings notificationType) as [s|err] eqn:Ht.
      - cbn [lift bind]. rewrite (disabled_get settings s Ht), Hno. reflexivity.
      - exfalso. destruct Hts as [_ Hn].
        destruct settings as [| | | | | |o]; try discriminate Hno.
        cbn [Lodash.get] in Hno, Hn.
        destruct (lookup o "notifications"); try discriminate Hno;
          destruct Hn; discriminate. }
    rewrite Hrun in Hv. discriminate.
  - intros Hlog. destruct Hcases as [Hv|(settings & s & _ & _ & _ & Hrun)];
      [contradiction | exact Hrun].
Qed.
End HandlerEdges.

(** ** The order of the groups *)

Lemma array_index_inj k k' n :
  array_index k = Some n -> array_index k' = Some n -> k = k'.
Proof.
  unfold array_index. intros H H'.
  destruct (NilEmpty.uint_of_string k) as [d|]; [| discriminate].
  destruct (NilEmpty.uint_of_string k') as [d'|]; [| discriminate].
  destruct ((NilZero.string_of_uint (N.to_uint (N.of_uint d)) =? k)
            && (N.of_uint d <? 4294967295)%N) eqn:E; [| discriminate].
  destruct ((NilZero.string_of_uint (N.to_uint (N.of_uint d')) =? k')
            && (N.of_uint d' <? 4294967295)%N) eqn:E'; [| discriminate].
  injection H as H. injection H' as H'.
  apply andb_prop in E as [E _]. apply andb_prop in E' as [E' _].
  apply String.eqb_eq in E, E'. rewrite <- E, <- E', H, H'. reflexivity.
Qed.

Lemma insert_index_In {A} n (e : string * A) l x :
  In x (insert_index n e l) <-> x = (n, e) \/ In x l.
Proof.
  induction l as [|[m e'] l IH]; cbn [insert_index].
  - cbn. intuition.
  - destruct (n <=? m)%N; cbn [In]; [intuition |].
    rewrite IH. intuition.
Qed.

Lemma insert_index_sorted {A} n (e : string * A) l :
  ~ In n (map fst l) ->
  StronglySorted N.lt (map fst l) ->
  StronglySorted N.lt (map fst (insert_index n e l)).
Proof.
  induction l as [|[m e'] l IH]; cbn [insert_index map fst]; intros Hn Hs.
  - repeat constructor.
  - apply StronglySorted_inv in Hs as [Hs Hm].
    destruct (n <=? m)%N eqn:E; cbn [map fst].
    + assert (Hlt : (n < m)%N).
      { apply N.leb_le in E. destruct (N.eq_dec n m) as [->|]; [| lia].
        exfalso. apply Hn. now left. }
      constructor; [now constructor |].
      constructor; [exact Hlt |].
      eapply Forall_impl; [| exact Hm]. cbn. intros; lia.
    + apply N.leb_gt in E. constructor.
      * apply IH; [| exact Hs]. intros H. apply Hn. now right.
      * apply Forall_forall. intros x Hx. apply in_map_iff in Hx as (y & <- & Hy).
        apply insert_index_In in Hy as [->|Hy]; [exact E |].
        rewrite Forall_forall in Hm. apply Hm. now apply in_map.
Qed.

Lemma index_entries_tagged {A} (l : list (string * A)) x :
  In x (index_entries l) -> In (snd x) l /\ array_index (fst (snd x)) = Some (fst x).
Proof.
  induction l as [|e l IH]; cbn [index_entries]; [contradiction |].
  destruct (array_index (fst e)) as [n|] eqn:E.
  - intros H. apply insert_index_In in H as [->|H].
    + split; [now left | exact E].
    + destruct (IH H). split; [now right | assumption].
  - intros H. destruct (IH H). split; [now right | assumption].
Qed.

Lemma index_entries_sorted {A} (l : list (string * A)) :
  NoDup (map fst l) -> StronglySorted N.lt (map fst (index_entries l)).
Proof.
  induction l as [|e l IH]; cbn [index_entries map]; intros Hnd; [constructor |].
  inversion Hnd as [|? ? Hne Hnd']; subst.
  destruct (array_index (fst e)) as [n|] eqn:E; [| now apply IH].
  apply insert_index_sorted; [| now apply IH].
  intros Hin. apply in_map_iff in Hin as (x & Hx & Hin).
  destruct (index_entries_tagged l x Hin) as [Hl Hidx]. rewrite Hx in Hidx.
  apply Hne. rewrite (array_index_inj _ _ _ E Hidx). now apply in_map.
Qed.

(** Objects whose property names are all array indices are read back in
    ascending order of the index. *)
Lemma own_order_ascending {A} (l : list (string * A)) :
  NoDup (map fst l) ->
  (forall k, In k (map fst l) -> array_index k <> None) ->
  exists ns,
    map array_index (map fst (own_order l)) = map Some ns
    /\ StronglySorted N.lt ns.
Proof.
  intros Hnd Hidx. exists (map fst (index_entries l)).
  split; [| now apply index_entries_sorted].
  unfold own_order, name_entries.
  replace (filter _ l) with (@nil (string * A)).
  - rewrite app_nil_r, !map_map. apply map_ext_in. intros x Hx.
    now destruct (index_entries_tagged l x Hx).
  - symmetry. apply filter_none. intros e He.
    specialize (Hidx (fst e) (in_map fst _ _ He)).
    now destruct (array_index (fst e)).
Qed.

Lemma Forall2_map_eq {A B C} (R : A -> B -> Prop) (f : A -> C) (h : B -> C) l r :
  Forall2 R l r -> (forall x y, R x y -> f x = h y) -> map f l = map h r.
Proof.
  induction 1 as [|a b l r Hab _ IH]; intros H; cbn [map]; [reflexivity |].
  f_equal; [now apply H | now apply IH].
Qed.

Section BatchOrder.
Variable config : Config.t.
Variable constants : Constants.t.
Variable EVENT_BUNDLES : list (string * Bundle.t).
Variable now : string.
Variable postEvent : busEvent -> response unit.

(** X14.  When the project ids of the due events print as array indices
    (integers below 2^32 - 1, written without sign or leading zero), the
    projects of every posted digest come in ascending order of the id,
    whatever the order of the events: the order in which JavaScript
    enumerates the groups. *)
Theorem handleScheduledEvents_projects_ascending (events : list Event.t) (e : busEvent) :
  (forall ev, In ev events -> array_index (project_key ev) <> None) ->
  In e (sent (handleScheduledEvents config constants EVENT_BUNDLES now postEvent events)) ->
  exists ns,
    map (fun p => array_index (to_string (id p))) (projects (Message.data (payload e)))
    = map Some ns
    /\ StronglySorted N.lt ns.
Proof.
  intros Hidx He. rewrite handleScheduledEvents_loop in He.
  destruct (user_groups events) as (Hne & Hsub & _).
  destruct (forEach_user_shape config constants EVENT_BUNDLES now postEvent _ Hne)
    as (_ & Hs & _).
  destruct (Hs e He) as (g & Hg & Hev).
  destruct (user_event_inv config constants EVENT_BUNDLES now g e Hev)
    as (first & rest & byProject & _ & Hm & ->).
  cbn [payload Message.data projects].
  destruct (grouped_grouping project_key g) as (Hnd & _ & Hkey).
  destruct (own_order_ascending (Lodash.grouped project_key g) Hnd) as (ns & Hns & Hsorted).
  { intros k Hk.
    destruct (grouped_grouping project_key g) as (_ & Hent & _).
    apply in_map_iff in Hk as ([k' g'] & <- & Hin). cbn [fst].
    destruct (Hent k' g' Hin) as [Hg' Hne'].
    destruct g' as [|ev g']; [congruence |].
    assert (Hev' : In ev (Lodash.members_of project_key g k'))
      by (rewrite <- Hg'; now left).
    apply filter_In in Hev' as [Hev' Hk']. apply String.eqb_eq in Hk'. rewrite <- Hk'.
    apply Hidx. now apply (Hsub g). }
  exists ns. split; [| exact Hsorted]. rewrite <- Hns.
  fold (Lodash.groupBy project_key g).
  apply mapValues_inv in Hm.
  destruct (groupBy_grouping project_key g) as (_ & Hent & _).
  apply (Forall2_strengthen
           (fun kg => snd kg = Lodash.members_of project_key g (fst kg) /\ snd kg <> [])) in Hm;
    [| intros [k' g'] Hin; now apply Hent].
  rewrite !map_map.
  symmetry. apply (Forall2_map_eq _ _ _ _ _ Hm).
  intros [k' g'] [k'' p] ([Hg' Hne'] & _ & Hp). cbn [fst snd] in *.
  unfold project_of in Hp.
  destruct (getSections EVENT_BUNDLES g') as [secs|]; [| discriminate].
  injection Hp as <-. cbn [id]. f_equal.
  destruct g' as [|ev g']; [congruence |]. cbn [first_data].
  assert (Hev' : In ev (Lodash.members_of project_key g k')) by (rewrite <- Hg'; now left).
  apply filter_In in Hev' as [_ Hk']. now apply String.eqb_eq in Hk'.
Qed.
End BatchOrder.

(** ** The placeholder resolver and its data *)

Lemma matches_token s p : In p (matches s) -> exists w, p = token w.
Proof.
  induction s as [|c r IH]; cbn [matches]; [contradiction |].
  destruct (Ascii.eqb c "<"); [| exact IH].
  destruct (token_at r) as [w|]; [| exact IH].
  intros [<-|H]; [now exists w | now apply IH].
Qed.

Lemma fold_left_ext_in {A B} (f g : A -> B -> A) (l : list B) :
  (forall a x, In x l -> f a x = g a x) ->
  forall a, fold_left f l a = fold_left g l a.
Proof.
  induction l as [|x l IH]; intros H a; cbn [fold_left]; [reflexivity |].
  rewrite (H a x) by now left. apply IH. intros a' y Hy. apply H. now right.
Qed.

Lemma split_first_prefix (pre rest p : string) :
  has "<" pre = false ->
  split_first (String "<" p) (pre ++ rest)
  = match split_first (String "<" p) rest with
    | Some (before, after) => Some ((pre ++ before)%string, after)
    | None => None
    end.
Proof.
  induction pre as [|c pre IH]; intros Hpre.
  - cbn [append]. now destruct (split_first (String "<" p) rest) as [[before after]|].
  - cbn [has] in Hpre. apply orb_false_elim in Hpre as [Hc Hpre].
    change ((String c pre ++ rest)%string) with (String c (pre ++ rest)).
    cbn [split_first starts_with].
    rewrite (Ascii.eqb_sym "<" c), Hc. cbn [andb].
    rewrite (IH Hpre).
    now destruct (split_first (String "<" p) rest) as [[before after]|].
Qed.

Lemma str_replace_prefix (pre rest p v : string) :
  has "<" pre = false ->
  exists rest', str_replace (pre ++ rest) (String "<" p) v = (pre ++ rest')%string.
Proof.
  intros Hpre. unfold str_replace. rewrite (split_first_prefix pre rest p Hpre).
  destruct (split_first (String "<" p) rest) as [[before after]|].
  - eexists. now rewrite append_assoc.
  - now eexists.
Qed.

(** X15.  The resolver reads the notifications only through the properties
    the template's placeholders name: two lists of notifications that
    agree on these properties resolve the template to the same text. *)
Theorem replacePlaceholders_frame (term : string) (data data' : list obj) :
  (forall w, In (token w) (matches term) ->
     Lodash.map_prop data w = Lodash.map_prop data' w) ->
  replacePlaceholders term data = replacePlaceholders term data'.
Proof.
  intros H. unfold replacePlaceholders, str_match.
  destruct (matches term) as [|p ps] eqn:Hm; [reflexivity |].
  apply fold_left_ext_in. intros r q Hq. unfold each_placeholder. cbn [ret].
  destruct (matches_token term q) as [w ->]; [rewrite Hm; exact Hq |].
  now rewrite slice_token, (H w Hq).
Qed.

(** X16.  The text of the template in front of its first ["<"] is kept in
    front of the result, whatever the notifications hold; a template
    without ["<"] is returned as it is. *)
Theorem replacePlaceholders_prefix (pre rest : string) (data : list obj) :
  has "<" pre = false ->
  replacePlaceholders pre data = pre
  /\ exists rest', replacePlaceholders (pre ++ rest) data = (pre ++ rest')%string.
Proof.
  intros Hpre. split.
  - unfold replacePlaceholders, str_match.
    replace (matches pre) with (@nil string); [reflexivity |].
    clear rest. induction pre as [|c pre IH]; [reflexivity |].
    cbn [has] in Hpre. apply orb_false_elim in Hpre as [Hc Hpre].
    cbn [matches]. rewrite Hc. now apply IH.
  - unfold replacePlaceholders, str_match.
    destruct (matches (pre ++ rest)) as [|p ps] eqn:Hm; [now eexists |].
    assert (Htok : forall q, In q (p :: ps) -> exists w, q = token w).
    { intros q Hq. apply (matches_token (pre ++ rest)). now rewrite Hm. }
    clear Hm. generalize dependent rest. revert Htok.
    generalize (p :: ps). clear p ps.
    intros l. induction l as [|q l IH]; intros Htok rest; cbn [fold_left].
    + now eexists.
    + destruct (Htok q (or_introl eq_refl)) as [w ->].
      unfold each_placeholder at 2. cbn [ret].
      destruct (str_replace_prefix pre rest (w ++ ">") 
                  (join ", " (Lodash.map_prop data (slice_1_m1 (token w)))) Hpre)
        as [rest' Hr].
      change (token w) with (String "<" (w ++ ">")) at 1.
      rewrite Hr. apply IH. intros q' Hq'. apply Htok. now right.
Qed.

(** ** The batch that stops half-way *)

Section BatchStop.
Variable config : Config.t.
Variable constants : Constants.t.
Variable EVENT_BUNDLES : list (string * Bundle.t).
Variable now : string.
Variable postEvent : busEvent -> response unit.

Let event_for := user_event config constants EVENT_BUNDLES now.
Let loop := forEach_user config constants EVENT_BUNDLES now postEvent.

Lemma forEach_user_prefix (groups : list (list Event.t)) :
  let run := loop groups in
  map (fun chain => (statuses (fst chain), snd chain)) (settled run)
  = map (fun p => ([(fst p, match postEvent (snd p) with
                            | Resolved _ => COMPLETED
                            | Rejected => FAILED
                            end)],
                   Return tt))
        (combine groups (sent run))
  /\ exists served,
       Forall2 (fun g e => event_for g = Return e) served (sent run)
       /\ match thrown run with
          | None => groups = served
          | Some err =>
              exists offending rest,
                groups = served ++ offending :: rest /\ event_for offending = Throw err
          end.
Proof.
  induction groups as [|g groups IH]; cbn [loop forEach_user].
  - cbn. split; [reflexivity |]. exists []. split; [constructor | reflexivity].
  - unfold loop. cbn [forEach_user]. fold loop. fold (event_for g).
    destruct (event_for g) as [e|err] eqn:He.
    + destruct IH as (Hs & served & Hf & Ht).
      cbn [sent settled thrown combine map fst snd]. split.
      * f_equal; [| exact Hs].
        now destruct (settle_outcome g (postEvent e)) as [-> ->].
      * exists (g :: served). split; [now constructor |].
        destruct (thrown (loop groups)) as [err|].
        -- destruct Ht as (offending & rest & -> & Hthrow).
           now exists offending, rest.
        -- now rewrite Ht.
    + cbn [sent settled thrown combine map]. split; [reflexivity |].
      exists []. split; [constructor |]. now exists g, groups.
Qed.

(** X17.  Whether or not the batch processor throws, the status calls are
    one per posted bus event: on all the events of the user the event was
    built for, with [COMPLETED] or [FAILED] as the bus answers, in a
    promise chain that is fulfilled.  When it throws, the users are split
    in enumeration order into those served, the offending user, one of
    whose events has an undefined group, and the rest: the events of the
    offending user and of the rest get no status call and no email. *)
Theorem handleScheduledEvents_stops (events : list Event.t) :
  let run := handleScheduledEvents config constants EVENT_BUNDLES now postEvent events in
  let users := map snd (Lodash.groupBy user_key events) in
  exists served,
    List.length served = List.length (sent run)
    /\ map (fun chain => (statuses (fst chain), snd chain)) (settled run)
       = map (fun p => ([(fst p, match postEvent (snd p) with
                                 | Resolved _ => COMPLETED
                                 | Rejected => FAILED
                                 end)],
                        Return tt))
             (combine served (sent run))
    /\ match thrown run with
       | None => users = served
       | Some _ =>
           exists offending rest ev,
             users = served ++ offending :: rest
             /\ In ev offending
             /\ bundle EVENT_BUNDLES (getEventGroupKey EVENT_BUNDLES ev) = None
       end.
Proof.
  intros run users. subst run. rewrite handleScheduledEvents_loop. fold users. fold loop.
  destruct (forEach_user_prefix users) as (Hs & served & Hf & Ht). cbv zeta in Hs.
  exists served.
  assert (Hlen : List.length served = List.length (sent (loop users)))
    by (eapply Forall2_length; exact Hf).
  split; [exact Hlen |]. split.
  - rewrite Hs. f_equal.
    destruct (thrown (loop users)) as [err|].
    + destruct Ht as (offending & rest & -> & _).
      clear Hs. revert Hf. generalize (sent (loop (served ++ offending :: rest))).
      clear Hlen. induction served as [|g served IH]; intros l Hf.
      * inversion Hf. reflexivity.
      * inversion Hf as [|? e ? l' _ Hf' E1 E2]; subst.
        cbn [app combine]. f_equal. now apply IH.
    + now rewrite Ht.
  - destruct (thrown (loop users)) as [err|]; [| exact Ht].
    destruct Ht as (offending & rest & Hsplit & Hthrow).
    assert (Hne : offending <> []).
    { destruct (user_groups events) as (Hne & _). fold users in Hne.
      rewrite Forall_forall in Hne. apply Hne. rewrite Hsplit.
      apply in_or_app. right. now left. }
    destruct (user_event_throws config constants EVENT_BUNDLES now offending err Hne Hthrow)
      as (_ & ev & Hev & Hnd).
    exists offending, rest, ev. split; [exact Hsplit | split; [exact Hev |]].
    destruct (bundle EVENT_BUNDLES (getEventGroupKey EVENT_BUNDLES ev)); [| reflexivity].
    exfalso. apply Hnd. discriminate.
Qed.
End BatchStop.

(** ** The further properties on the sample configuration *)

Lemma getSections_no_empty_section_witness :
  exists secs,
    getSections sample_bundles sample_events = Return secs
    /\ Forall (fun s => notifications s <> []) secs
    /\ List.length secs <= List.length sample_events
    /\ (sample_events = [] -> secs = []).
Proof.
  apply getSections_no_empty_section. intros e _. apply sample_groups_defined.
Defined.

Lemma handleScheduledEvents_first_event_witness :
  exists e first before after,
    In e (sent (handleScheduledEvents (sample_config "false") sample_constants
                  sample_bundles sample_now (fun _ => Resolved tt) sample_due))
    /\ sample_due = before ++ first :: after
    /\ Forall (fun x => user_key x <> user_key first) before
    /\ Message.recipients (payload e) = Message.recipients (Event.data first)
    /\ Message.cc (payload e) = Some [].
Proof.
  assert (H : exists e,
            In e (sent (handleScheduledEvents (sample_config "false") sample_constants
                          sample_bundles sample_now (fun _ => Resolved tt) sample_due)))
    by (cbv; eexists; left; reflexivity).
  destruct H as [e He].
  destruct (handleScheduledEvents_first_event (sample_config "false") sample_constants
              sample_bundles sample_now (fun _ => Resolved tt) sample_due e He)
    as (k & first & before & after & Hsplit & Hk & Hb & _ & Hr & _ & Hcc & _).
  exists e, first, before, after. rewrite Hk. auto.
Defined.

Lemma handleScheduledEvents_projects_witness :
  exists e k userEvents,
    In e (sent (handleScheduledEvents (sample_config "false") sample_constants
                  sample_bundles sample_now (fun _ => Resolved tt) sample_due))
    /\ In (k, userEvents) (Lodash.groupBy user_key sample_due)
    /\ Forall2 (fun g p => id p = first_data (snd g) "projectId"
                           /\ getSections sample_bundles (snd g) = Return (sections p))
               (Lodash.groupBy project_key userEvents)
               (projects (Message.data (payload e))).
Proof.
  assert (H : exists e,
            In e (sent (handleScheduledEvents (sample_config "false") sample_constants
                          sample_bundles sample_now (fun _ => Resolved tt) sample_due)))
    by (cbv; eexists; left; reflexivity).
  destruct H as [e He].
  destruct (handleScheduledEvents_projects (sample_config "false") sample_constants
              sample_bundles sample_now (fun _ => Resolved tt) sample_due e He)
    as (k & userEvents & Hin & _ & _ & Hp).
  exists e, k, userEvents. split; [exact He | split; [exact Hin |]].
  eapply Forall2_impl; [| exact Hp]. cbv beta. tauto.
Defined.

Lemma handleScheduledEvents_projects_ascending_witness :
  let events :=
    [ sample_event 1 [("type", VStr "project.created"); ("projectId", VNum 10)];
      sample_event 1 [("type", VStr "project.created"); ("projectId", VNum 9)] ] in
  exists e ns,
    In e (sent (handleScheduledEvents (sample_config "false") sample_constants
                  sample_bundles sample_now (fun _ => Resolved tt) events))
    /\ map (fun p => array_index (to_string (id p))) (projects (Message.data (payload e)))
       = map Some ns
    /\ StronglySorted N.lt ns.
Proof.
  intros events.
  assert (H : exists e,
            In e (sent (handleScheduledEvents (sample_config "false") sample_constants
                          sample_bundles sample_now (fun _ => Resolved tt) events)))
    by (cbv; eexists; left; reflexivity).
  destruct H as [e He].
  assert (Hidx : forall ev, In ev events -> array_index (project_key ev) <> None)
    by (intros ev [<-|[<-|[]]]; vm_compute; discriminate).
  destruct (handleScheduledEvents_projects_ascending (sample_config "false")
              sample_constants sample_bundles sample_now (fun _ => Resolved tt)
              events e Hidx He) as (ns & Hns & Hs).
  exists e, ns. auto.
Defined.

Lemma handler_early_errors_witness :
  handler (sample_config "false") sample_constants sample_bundles
    (fun v => v) (fun v => v) sample_parseInt (fun s => s) (fun _ _ => VStr "sig")
    sample_now (fun _ => Resolved (VObj [])) (fun _ => Resolved [])
    (fun _ => Resolved tt) "project.created" sample_json sample_notification
  = ([], Throw TypeError)
  /\ handler (sample_config "false") sample_constants sample_bundles
       (fun v => v) (fun v => v) sample_parseInt (fun s => s) (fun _ _ => VStr "sig")
       sample_now (fun _ => Resolved (sample_settings "project.created" [] []))
       (fun _ => Resolved [])
       (fun _ => Resolved tt) "project.created" sample_json sample_notification
     = ([Log debug "got users"], Throw TypeError).
Proof.
  split.
  - destruct (handler_early_errors (sample_config "false") sample_constants sample_bundles
                (fun v => v) (fun v => v) sample_parseInt (fun s => s)
                (fun _ _ => VStr "sig") sample_now
                (fun _ => Resolved (VObj [])) (fun _ => Resolved [])
                (fun _ => Resolved tt) "project.created" sample_json sample_notification)
      as (_ & H & _).
    apply (H (VObj []) eq_refl). now left.
  - destruct (handler_early_errors (sample_config "false") sample_constants sample_bundles
                (fun v => v) (fun v => v) sample_parseInt (fun s => s)
                (fun _ _ => VStr "sig") sample_now
                (fun _ => Resolved (sample_settings "project.created" [] []))
                (fun _ => Resolved [])
                (fun _ => Resolved tt) "project.created" sample_json sample_notification)
      as (_ & _ & H).
    destruct (H (sample_settings "project.created" [] []) eq_refl) as [_ H'];
      [discriminate | discriminate | reflexivity |].
    exact (H' eq_refl).
Defined.

Lemma handler_scheduled_event_witness :
  exists e,
    In e (scheduled (fst (sample_handler "false" (sample_settings "project.created" [] [])
                            (sample_user (VStr "ann@example.com")) (Resolved tt)
                            "project.created")))
    /\ truthy (Event.period e) = true
    /\ truthy_at (Constants.SCHEDULED_EVENT_PERIOD sample_constants)
         (to_string (Event.period e)) = true
    /\ Event.userId e = VNum 40
    /\ Event.eventType e = VStr "email.general".
Proof.
  assert (H : exists e,
            In e (scheduled
                    (fst (sample_handler "false" (sample_settings "project.created" [] [])
                            (sample_user (VStr "ann@example.com")) (Resolved tt)
                            "project.created"))))
    by (cbv; eexists; left; reflexivity).
  destruct H as [e He].
  destruct (handler_scheduled_event (sample_config "false") sample_constants sample_bundles
              (fun v => v) (fun v => v) sample_parseInt (fun s => s) (fun _ _ => VStr "sig")
              sample_now
              (fun _ => Resolved (sample_settings "project.created" [] []))
              (fun _ => Resolved [sample_user (VStr "ann@example.com")])
              (fun _ => Resolved tt) "project.created" sample_json sample_notification e He)
    as (settings & tp & _ & _ & H).
  cbv zeta in H. destruct H as (_ & _ & Ht & Hr & Hu & Hty & _).
  exists e. auto.
Defined.

Lemma handler_envelope_witness :
  let r := sample_handler "true" (sample_settings "post.mention" [] [])
             (sample_user (VStr "ann@example.com")) (Resolved tt) "post.mention" in
  posted (fst r) <> []
  /\ Forall (fun e => Message.recipients (payload e) = [VStr "dev@example.com"]
                      /\ Message.cc (payload e) = Some [VStr "mention@example.com"]
                      /\ Message.replyTo (payload e) = VStr "reply+9/sig@example.com")
            (posted (fst r)).
Proof.
  intros r. split; [vm_compute; discriminate |].
  destruct (handler_envelope (sample_config "true") sample_constants sample_bundles
              (fun v => v) (fun v => v) sample_parseInt (fun s => s) (fun _ _ => VStr "sig")
              sample_now
              (fun _ => Resolved (sample_settings "post.mention" [] []))
              (fun _ => Resolved [sample_user (VStr "ann@example.com")])
              (fun _ => Resolved tt) "post.mention" sample_json sample_notification
              (sample_user (VStr "ann@example.com")) [] _ eq_refl eq_refl) as [_ H].
  eapply Forall_impl; [| exact H]. cbv beta zeta. intros e He.
  change (Message.recipients (with_data (payload e) tt) = [VStr "dev@example.com"]
          /\ Message.cc (with_data (payload e) tt) = Some [VStr "mention@example.com"]
          /\ Message.replyTo (with_data (payload e) tt) = VStr "reply+9/sig@example.com").
  rewrite He. repeat split.
Defined.

Lemma handler_posted_event_witness :
  exists e data g,
    In e (posted (fst (sample_handler "false" (sample_settings "post.created" [] [])
                         (sample_user (VStr "ann@example.com")) (Resolved tt)
                         "post.created")))
    /\ topic e = "email.general"
    /\ timestamp e = sample_now
    /\ List.length (projects (Message.data (payload e))) = 1
    /\ flat_map (fun p => flat_map notifications (sections p))
         (projects (Message.data (payload e))) = [data]
    /\ subject (Message.data (payload e)) = replacePlaceholders (Bundle.subject g) [data].
Proof.
  assert (H : exists e,
            In e (posted
                    (fst (sample_handler "false" (sample_settings "post.created" [] [])
                            (sample_user (VStr "ann@example.com")) (Resolved tt)
                            "post.created"))))
    by (cbv; eexists; left; reflexivity).
  destruct H as [e He].
  destruct (handler_posted_event (sample_config "false") sample_constants sample_bundles
              (fun v => v) (fun v => v) sample_parseInt (fun s => s) (fun _ _ => VStr "sig")
              sample_now
              (fun _ => Resolved (sample_settings "post.created" [] []))
              (fun _ => Resolved [sample_user (VStr "ann@example.com")])
              (fun _ => Resolved tt) "post.created" sample_json sample_notification e He)
    as (data & g & H).
  cbv zeta in H. destruct H as (_ & Ht & _ & Hn & _ & Hd).
  exists e, data, g. rewrite Hd. cbn. repeat split; assumption.
Defined.

Lemma handler_data_fields_witness :
  let r := sample_handler "false" (sample_settings "project.created" [] [])
             (sample_user (VStr "ann@example.com")) (Resolved tt) "project.created" in
  scheduled (fst r) <> []
  /\ Forall (fun e =>
               let data := Message.data (Event.data e) in
               lookup data "projectName" = VStr "Apollo"
               /\ lookup data "date" = VStr sample_now
               /\ lookup data "project.created" = VBool true)
            (scheduled (fst r)).
Proof.
  intros r. split; [vm_compute; discriminate |].
  assert (Hnd : NoDup (map fst (Notification.contents sample_notification))).
  { cbn. repeat constructor; cbn; intuition discriminate. }
  pose proof (handler_data_fields (sample_config "false") sample_constants sample_bundles
                (fun v => v) (fun v => v) sample_parseInt (fun s => s)
                (fun _ _ => VStr "sig") sample_now
                (fun _ => Resolved (sample_settings "project.created" [] []))
                (fun _ => Resolved [sample_user (VStr "ann@example.com")])
                (fun _ => Resolved tt) "project.created" sample_json sample_notification
                (sample_user (VStr "ann@example.com")) [] _ Hnd eq_refl eq_refl) as H.
  cbv zeta in H. apply Forall_app in H as [H _]. rewrite Forall_map in H.
  eapply Forall_impl; [| exact H]. cbv beta zeta.
  intros e He. rewrite !He. repeat split.
Defined.

Lemma replacePlaceholders_frame_witness :
  replacePlaceholders "<name> posted in <topic>"
    [[("name", VStr "ann"); ("topic", VStr "news"); ("seen", VBool true)]]
  = replacePlaceholders "<name> posted in <topic>"
      [[("topic", VStr "news"); ("name", VStr "ann")]].
Proof.
  apply replacePlaceholders_frame.
  intros w [E|[E|[]]]; apply (f_equal slice_1_m1) in E;
    rewrite (slice_token w) in E; rewrite <- E; reflexivity.
Defined.

Lemma replacePlaceholders_prefix_witness :
  replacePlaceholders "Updates" [[("name", VStr "<b>")]] = "Updates"
  /\ exists rest',
       replacePlaceholders ("Posts by " ++ "<name> in <name>") [[("name", VStr "$`<b>")]]
       = ("Posts by " ++ rest')%string.
Proof.
  split.
  - exact (proj1 (replacePlaceholders_prefix "Updates" "" [[("name", VStr "<b>")]] eq_refl)).
  - exact (proj2 (replacePlaceholders_prefix "Posts by " "<name> in <name>"
                    [[("name", VStr "$`<b>")]] eq_refl)).
Defined.
